(** * FormFit order-intake server: conversation state machine and order pipeline

    A shallow embedding of the conversation state machine
    ([conversation.js]), the record store ([db.js]), the messenger
    ([messenger.js]), the pricing engine ([pricing.js]), the model
    generation ([tooltrace.js]), the vendor client ([craftcloud.js]), the
    pipeline orchestrator ([pipeline.js]), the POST route of the webhook
    ([webhook.js]) and the two routes of the dashboard that write
    ([index.js]); the properties of the specification that concern them;
    and further properties of the code.

    Conventions of the embedding.
    - A JavaScript string is a [string]: its bytes, in UTF-8.  The case
      maps, the white-space class and the length below are those of
      [String.prototype.toUpperCase], [toLowerCase], of the regular
      expression class [\s] and of [length] on the strings of ASCII
      characters ([JS.is_ascii]); what is proved of a text of the customer
      through them is stated for such texts, unless it only needs a keyword
      to be found.
    - The replies of the assistant are constants; they are kept byte for
      byte, in UTF-8.
    - A JavaScript number is the rational ([Q]) it denotes; NaN and the
      infinities are not represented.  The sums of the vendor's prices are
      sums of doubles ([number_add]), rounded to the nearest double, and what
      is proved of them is stated for prices whose sums do not overflow.
    - A column of the store holds the value that was bound to it: the
      conversions of SQLite between numbers and texts are not represented,
      and what is proved of a value read back is stated for a value of the
      type of its column ([fits_column]).
    - [async] functions are run to completion one after the other (the
      webhook awaits every turn), so [await] is sequencing. *)

From Stdlib Require Import Ascii QArith Qround Qabs.
From stdpp Require Import base option list strings gmap pretty.

(** ** JavaScript strings *)

Module JS.

Definition upper_char (c : ascii) : ascii :=
  let n := Ascii.N_of_ascii c in
  if ((97 <=? n) && (n <=? 122))%N then Ascii.ascii_of_N (n - 32) else c.

Definition lower_char (c : ascii) : ascii :=
  let n := Ascii.N_of_ascii c in
  if ((65 <=? n) && (n <=? 90))%N then Ascii.ascii_of_N (n + 32) else c.

(** [s.toUpperCase()] and [s.toLowerCase()], on ASCII: a character
    outside ASCII is left as it is. *)
Fixpoint toUpperCase (s : string) : string :=
  match s with
  | EmptyString => EmptyString
  | String c s' => String (upper_char c) (toUpperCase s')
  end.

Fixpoint toLowerCase (s : string) : string :=
  match s with
  | EmptyString => EmptyString
  | String c s' => String (lower_char c) (toLowerCase s')
  end.

(** [s.includes(sub)]: [sub] occurs in [s] as a contiguous substring. *)
Fixpoint includes (s sub : string) : bool :=
  String.prefix sub s ||
  match s with
  | EmptyString => false
  | String _ s' => includes s' sub
  end.

(** The class [\s] on ASCII: tab, line feed, vertical tab, form feed,
    carriage return and space. *)
Definition is_space (c : ascii) : bool :=
  let n := Ascii.N_of_ascii c in
  ((9 <=? n) && (n <=? 13) || (n =? 32))%N.

Fixpoint trimStart (s : string) : string :=
  match s with
  | EmptyString => EmptyString
  | String c s' => if is_space c then trimStart s' else s
  end.

(** [trimEnd] keeps a character when it is not a space or when something
    is left after it. *)
Fixpoint trimEnd (s : string) : string :=
  match s with
  | EmptyString => EmptyString
  | String c s' =>
      match trimEnd s' with
      | EmptyString => if is_space c then EmptyString else String c EmptyString
      | t => String c t
      end
  end.

(** [s.trim()], with the white space of ASCII. *)
Definition trim (s : string) : string := trimEnd (trimStart s).

(** [arr.includes(w)] on an array of strings. *)
Definition array_includes (arr : list string) (w : string) : bool :=
  existsb (String.eqb w) arr.

(** [arr.join(sep)]. *)
Fixpoint join (sep : string) (arr : list string) : string :=
  match arr with
  | [] => ""
  | [w] => w
  | w :: rest => w +:+ sep +:+ join sep rest
  end.

(** The separator class [[\s,./]] of [parseDetails]. *)
Definition is_sep (c : ascii) : bool :=
  is_space c || Ascii.eqb c ","%char || Ascii.eqb c "."%char
  || Ascii.eqb c "/"%char.

Definition starts_with_sep (s : string) : bool :=
  match s with
  | EmptyString => false
  | String c _ => is_sep c
  end.

(** [s.split(/[\s,./]+/)].  The pieces between maximal runs of
    separators, including the empty piece before a leading run and after
    a trailing one; the empty string gives one empty piece. *)
Fixpoint split_seps (s : string) : list string :=
  match s with
  | EmptyString => [""]
  | String c s' =>
      if is_sep c then
        if starts_with_sep s' then split_seps s' else "" :: split_seps s'
      else
        match split_seps s' with
        | t :: ts => String c t :: ts
        | [] => [String c ""]
        end
  end.

(** Truthiness of a string: only the empty string is falsy. *)
Definition nonempty (s : string) : bool :=
  match s with EmptyString => false | _ => true end.

(** The strings of ASCII characters: every character code is below 128.
    On them a character is a byte, and [toUpperCase], [toLowerCase],
    [is_space] and [String.length] are what JavaScript computes. *)
Definition is_ascii_char (c : ascii) : bool :=
  (Ascii.N_of_ascii c <? 128)%N.

Fixpoint is_ascii (s : string) : bool :=
  match s with
  | EmptyString => true
  | String c s' => is_ascii_char c && is_ascii s'
  end.

End JS.

(** ** conversation.js: parseDetails *)

Record Details := mkDetails {
  d_material : string;
  d_color : string;
  d_size : string
}.

Definition knownWords : list string :=
  [ "pla"; "pla+"; "petg"; "small"; "medium"; "large"; "full"; "drawer";
    "tools"; "tool"; "and"; "the"; "i"; "want"; "would"; "like"; "please";
    "1"; "2"; "3"; "material"; "color"; "size"; "in"; "a" ].

(** [w.length] is [String.length w] on a text of ASCII characters, where
    a character is one byte. *)
Definition parseDetails (text : string) : Details :=
  let lower := JS.toLowerCase text in
  let material :=
    if JS.includes lower "petg" then "PETG"
    else if JS.includes lower "pla+" then "PLA+"
    else if JS.includes lower "pla" then "PLA"
    else "PLA" in
  let size :=
    if JS.includes lower "full" || JS.includes lower "drawer" then "full drawer"
    else if JS.includes lower "small" then "small"
    else if JS.includes lower "medium" then "medium"
    else if JS.includes lower "large" then "full drawer"
    else "medium" in
  let words :=
    filter (λ w, 1 < String.length w) (JS.split_seps text) in
  let colorWords :=
    filter (λ w, JS.array_includes knownWords (JS.toLowerCase w) = false) words in
  let color :=
    if bool_decide (0 < length colorWords) then JS.join " " colorWords
    else "black" in
  mkDetails material color size.

(** *** The parsing policy as the specification words it *)


Definition material_priority : list (string * string) :=
  [ ("petg", "PETG"); ("pla+", "PLA+"); ("pla", "PLA") ].

Definition size_priority : list (string * string) :=
  [ ("full", "full drawer"); ("drawer", "full drawer"); ("small", "small");
    ("medium", "medium"); ("large", "full drawer") ].





(** The stop words the specification names: the keywords of the material
    and of the size, the filler words, and the digits 1 to 3. *)
Definition filler_words : list string :=
  [ "a"; "and"; "color"; "i"; "in"; "like"; "material"; "please"; "size";
    "the"; "tool"; "tools"; "want"; "would" ].

Definition stop_words : list string :=
  material_priority.*1 ++ size_priority.*1 ++ filler_words ++ [ "1"; "2"; "3" ].

Definition is_stop_word (w : string) : Prop :=
  JS.toLowerCase w ∈ stop_words.

Global Instance is_stop_word_dec w : Decision (is_stop_word w).
Proof. unfold is_stop_word. apply _. Defined.


(** ** Values, rows and the record store *)

(** What a column holds and what a statement binds: NULL, a number or a
    text. *)
Inductive value :=
  | VNull
  | VNum (q : Q)
  | VStr (s : string).

Global Instance Q_eq_dec : EqDecision Q.
Proof. solve_decision. Defined.

Global Instance value_eq_dec : EqDecision value.
Proof. solve_decision. Defined.

(** Truthiness of a property read; [None] is [undefined]. *)
Definition truthy (v : option value) : bool :=
  match v with
  | Some (VStr s) => JS.nonempty s
  | Some (VNum q) => negb (Qeq_bool q 0)
  | Some VNull | None => false
  end.

(** A row of the [orders] table: column name to value.  The surrogate key
    [id] is never read by the code and is left out. *)
Abbreviation Row := (gmap string value).

(** The fields object handed to [updateOrder], as [Object.entries] lists
    it. *)
Abbreviation Fields := (list (string * value)).

Record Message := mkMessage {
  m_psid : string;
  m_direction : string;
  m_text : string;
  m_timestamp : string
}.

Record ConvState := mkConvState {
  stage : string;
  pending_order_id : string;
  cs_updated_at : string
}.

(** What the process does to the outside world, in the order it does it:
    the statements that write to the database and the calls to the
    network, the file system and the browser. *)
Inductive Event :=
  | EvInsertOrder (orderId psid photoPath : string)
  | EvUpdateOrder (orderId : string) (assignments : Fields)
  | EvInsertMessage (psid direction text : string)
  | EvInsertState (psid : string)
  | EvSetState (psid stage pendingOrderId : string)
  | EvSendText (psid text : string) (delivered : bool)
  | EvDownload (url psid : string) (saved : bool)
  | EvProcessImage (imagePath : value) (outputDir : string)
  | EvRunToolTrace (attempt : nat)
  | EvSleep (ms : N)
  | EvUploadAndQuote (stlPath material : value)
  | EvPlaceOrder (quoteId : string) (name : value) (customerRef : string)
      (shippingId : option string).

Record World := mkWorld {
  orders : list Row;
  messages : list Message;
  conv : gmap string ConvState;
  trace : list Event;
  clock : nat
}.

Definition set_orders (f : list Row → list Row) (w : World) : World :=
  mkWorld (f (orders w)) (messages w) (conv w) (trace w) (clock w).
Definition set_messages (f : list Message → list Message) (w : World) : World :=
  mkWorld (orders w) (f (messages w)) (conv w) (trace w) (clock w).
Definition set_conv (f : gmap string ConvState → gmap string ConvState)
    (w : World) : World :=
  mkWorld (orders w) (messages w) (f (conv w)) (trace w) (clock w).
Definition set_trace (f : list Event → list Event) (w : World) : World :=
  mkWorld (orders w) (messages w) (conv w) (f (trace w)) (clock w).
Definition set_clock (f : nat → nat) (w : World) : World :=
  mkWorld (orders w) (messages w) (conv w) (trace w) (f (clock w)).

(** ** Quotes of the vendor and of the pricing engine *)

(** The quotes and the shipping entries of the vendor's answer.  A price
    is the numeral of the answer, a rational. *)
Record RawQuote := mkRawQuote {
  rq_quoteId : string;
  rq_vendorId : string;
  rq_price : Q;
  rq_productionTimeSlow : option N;
  rq_productionTimeFast : option N
}.

Global Instance RawQuote_eq_dec : EqDecision RawQuote.
Proof. solve_decision. Defined.

Record Shipping := mkShipping {
  sh_vendorId : string;
  sh_price : Q;
  sh_shippingId : string
}.

Record QuoteData := mkQuoteData {
  qd_quotes : list RawQuote;
  qd_shippings : list Shipping
}.

Record VendorQuote := mkVendorQuote {
  quoteId : string;
  vendorId : string;
  price : Q;
  leadDays : option N;
  shipping : Q;
  shippingId : option string;
  totalPrice : Q
}.

Record Quote := mkQuote {
  basePrice : value;
  addonsPrice : value;
  q_shipping : value;
  q_total : value;
  craftcloudCost : value;
  margin : value
}.

(** ** Outcomes and the monad of the process *)

Inductive outcome (A : Type) :=
  | Ret (a : A)
  | Throw (message : string).
Arguments Ret {A} a.
Arguments Throw {A} message.

(** What the process cannot decide by itself.  Every oracle is asked at an
    instant, the value of the clock, which every question advances. *)
Record Env := mkEnv {
  db_fault : nat → bool;
  now : nat → string;
  random_num : nat → N;
  date_now : nat → N;
  graph_post_ok : nat → bool;
  http_get_ok : nat → bool;
  fs_exists : nat → bool;
  mkdir_fault : nat → option string;
  tooltrace_run : nat → outcome unit;
  vendor_quote : nat → outcome QuoteData;
  vendor_cart : nat → outcome string;
  vendor_order : nat → outcome string;
  api_key : string;
  path_resolve : string → string;
  path_join : string → string → string;
  uploads_dir : string
}.

(** The pricing engine, as the conversation sees it. *)
Record Pricing := mkPricing {
  calculateQuote :
    option value → option value → string → bool → bool → outcome Quote;
  formatProposal : Row → Quote → outcome string
}.

Definition M (A : Type) : Type := World → outcome A * World.

Global Instance M_ret : MRet M := λ A a w, (Ret a, w).
Global Instance M_bind : MBind M := λ A B k m w,
  match m w with
  | (Ret a, w') => k a w'
  | (Throw e, w') => (Throw e, w')
  end.

Definition throw {A} (message : string) : M A := λ w, (Throw message, w).
Definition get_world : M World := λ w, (Ret w, w).
Definition modify (f : World → World) : M unit := λ w, (Ret tt, f w).
Definition lift {A} (o : outcome A) : M A := λ w, (o, w).

(** [try { m } catch (err) { h(err.message) }]. *)
Definition try_catch {A} (m : M A) (h : string → M A) : M A := λ w,
  match m w with
  | (Ret a, w') => (Ret a, w')
  | (Throw e, w') => h e w'
  end.

Definition emit (e : Event) : M unit := modify (set_trace (λ t, t ++ [e])).

(** Read the clock and advance it. *)
Definition tick : M nat := λ w, (Ret (clock w), set_clock S w).

Definition has_order_id (orderId : string) (row : Row) : bool :=
  bool_decide (row !! "order_id" = Some (VStr orderId)).

Section Process.

Variable env : Env.

(** ** db.js *)

(** One statement run on the database: it throws when the driver fails. *)
Definition db_stmt : M nat :=
  t ← tick;
  if db_fault env t then throw "SqliteError" else mret t.

Definition generateOrderId : M string :=
  t ← tick;
  mret ("FFC-" +:+ pretty (10000 + random_num env t `mod` 90000)%N).

Definition new_order (orderId psid photoPath created : string) : Row :=
  list_to_map
    [ ("order_id", VStr orderId); ("psid", VStr psid); ("name", VStr "");
      ("status", VStr "new"); ("photo_path", VStr photoPath);
      ("material", VStr ""); ("color", VStr ""); ("size", VStr "");
      ("fulfillment_type", VStr ""); ("rush", VNum 0); ("cad_design", VNum 0);
      ("base_price", VNum 0); ("addons_price", VNum 0); ("shipping", VNum 0);
      ("total", VNum 0); ("craftcloud_cost", VNum 0); ("margin", VNum 0);
      ("created_at", VStr created); ("updated_at", VStr created);
      ("stl_path", VStr ""); ("craftcloud_quote_id", VStr "") ].

(** [order_id] is UNIQUE: the INSERT throws on an id that is taken. *)
Definition createOrder (psid photoPath : string) : M string :=
  orderId ← generateOrderId;
  t ← db_stmt;
  w ← get_world;
  if existsb (has_order_id orderId) (orders w)
  then throw "UNIQUE constraint failed: orders.order_id"
  else
    modify (set_orders (λ os, os ++ [new_order orderId psid photoPath (now env t)]));;
    emit (EvInsertOrder orderId psid photoPath);;
    mret orderId.

(** [SELECT * FROM orders WHERE order_id = ?], first row. *)
Definition select_order (orderId : string) (w : World) : option Row :=
  find (has_order_id orderId) (orders w).

Definition getOrder (orderId : string) : M (option Row) :=
  _ ← db_stmt;
  w ← get_world;
  mret (select_order orderId w).

Definition allowed : list string :=
  [ "name"; "status"; "photo_path"; "material"; "color"; "size";
    "fulfillment_type"; "rush"; "cad_design"; "base_price"; "addons_price";
    "shipping"; "total"; "craftcloud_cost"; "margin"; "stl_path";
    "craftcloud_quote_id" ].

(** [SET k1 = ?, k2 = ?, ...]: of two assignments to one column the
    rightmost counts. *)
Definition apply_assignments (updates : Fields) (row : Row) : Row :=
  foldl (λ r kv, <[kv.1 := kv.2]> r) row updates.

(** The [UPDATE] of one row.  A column holds the value that is bound to
    it: this is what SQLite stores for NULL, for a text in a TEXT column
    and for a number in an INTEGER or REAL column; the conversions it makes
    of a number bound to a TEXT column and of a numeral bound to a numeric
    one are not represented. *)
Definition update_row (orderId : string) (updates : Fields) (stamp : string)
    (row : Row) : Row :=
  if has_order_id orderId row
  then <["updated_at" := VStr stamp]> (apply_assignments updates row)
  else row.

Definition updateOrder (orderId : string) (fields : Fields) : M unit :=
  let updates := filter (λ kv, kv.1 ∈ allowed) fields in
  if bool_decide (length updates = 0) then mret tt
  else
    t ← db_stmt;
    modify (set_orders (map (update_row orderId updates (now env t))));;
    emit (EvUpdateOrder orderId updates).

Definition saveMessage (psid direction text : string) : M unit :=
  t ← db_stmt;
  modify (set_messages (λ ms, ms ++ [mkMessage psid direction text (now env t)]));;
  emit (EvInsertMessage psid direction text).

(** The row of the customer, inserted at stage NEW on first contact.  The
    object returned for a fresh customer has no [updated_at]; nothing reads
    it. *)
Definition getState (psid : string) : M ConvState :=
  _ ← db_stmt;
  w ← get_world;
  match conv w !! psid with
  | Some row => mret row
  | None =>
      t ← db_stmt;
      let row := mkConvState "NEW" "" (now env t) in
      modify (set_conv (insert psid row));;
      emit (EvInsertState psid);;
      mret row
  end.

Definition setState (psid stage pendingOrderId : string) : M unit :=
  t ← db_stmt;
  modify (set_conv (insert psid (mkConvState stage pendingOrderId (now env t))));;
  emit (EvSetState psid stage pendingOrderId).

(** ** messenger.js *)

(** The failure of the post is caught and logged. *)
Definition sendText (psid text : string) : M unit :=
  t ← tick;
  emit (EvSendText psid text (graph_post_ok env t)).

(** The local path of the saved image, or the empty string when the
    download fails. *)
Definition downloadAttachment (url psid : string) : M string :=
  t ← tick;
  emit (EvDownload url psid (http_get_ok env t));;
  if http_get_ok env t
  then mret ("uploads/" +:+ psid +:+ "_" +:+ pretty (date_now env t) +:+ ".jpg")
  else mret "".

End Process.

(** ** pricing.js *)

Module PricingJs.

Local Open Scope Q_scope.

Definition SELF_BASE : list (string * Q) :=
  [ ("small", 35); ("medium", 75); ("full drawer", 150) ].
Definition MATERIAL_MULT : list (string * Q) :=
  [ ("pla", 1); ("pla+", 11 # 10); ("petg", 12 # 10) ].
Definition SELF_SHIPPING : list (string * Q) :=
  [ ("small", 8); ("medium", 8); ("full drawer", 15) ].
Definition RUSH_FEE : Q := 25.
Definition CAD_FEE : Q := 15.
Definition CLOUD_COST : list (string * Q) :=
  [ ("small", 20); ("medium", 45); ("full drawer", 100) ].
Definition CLOUD_SELL : list (string * Q) :=
  [ ("small", 55); ("medium", 110); ("full drawer", 225) ].

(** [TABLE[key] || fallback] for a key among the table's own entries or
    absent from the object altogether. *)
Definition lookup_or (table : list (string * Q)) (key : string) (fallback : Q) : Q :=
  match find (λ kv, String.eqb kv.1 key) table with
  | Some kv => kv.2
  | None => fallback
  end.

(** [Math.round]: to the nearest integer, halves upwards. *)
Definition round (x : Q) : Z := Qfloor (x + (1 # 2)).

Definition round_cents (x : Q) : Q := inject_Z (round (x * 100)) / 100.

Definition two_digits (n : Z) : string :=
  if (n <? 10)%Z then "0" +:+ pretty n else pretty n.

(** [x.toFixed(2)]. *)
Definition toFixed2 (x : Q) : string :=
  let n := Qfloor (Qabs x * 100 + (1 # 2)) in
  (if Qlt_le_dec x 0 then "-" else "") +:+
  pretty (n / 100)%Z +:+ "." +:+ two_digits (n `mod` 100)%Z.

Definition addons (rush cadDesign : bool) : Q :=
  (if rush then RUSH_FEE else 0) + (if cadDesign then CAD_FEE else 0).

Definition calculateQuote (size material : option value) (fulfillment : string)
    (rush cadDesign : bool) : outcome Quote :=
  match size, material with
  | Some (VStr size), Some (VStr material) =>
      let sizeKey := JS.toLowerCase size in
      let matKey := JS.toLowerCase material in
      let mode :=
        JS.toUpperCase (if JS.nonempty fulfillment then fulfillment else "SELF") in
      if String.eqb mode "CLOUD" then
        let cost := lookup_or CLOUD_COST sizeKey 45 in
        let sell := lookup_or CLOUD_SELL sizeKey 110 in
        let addons := addons rush cadDesign in
        let total := sell + addons in
        Ret (mkQuote (VNum sell) (VNum addons) (VNum 0) (VNum total)
               (VNum cost) (VNum (total - cost)))
      else
        let base := lookup_or SELF_BASE sizeKey 75 in
        let mult := lookup_or MATERIAL_MULT matKey 1 in
        let basePrice := round_cents (base * mult) in
        let addons := addons rush cadDesign in
        let shipping := lookup_or SELF_SHIPPING sizeKey 8 in
        let total := basePrice + addons + shipping in
        let materialCost := round_cents (base * (3 # 10)) in
        let margin := total - materialCost - shipping in
        Ret (mkQuote (VNum basePrice) (VNum addons) (VNum shipping) (VNum total)
               (VNum 0) (VNum margin))
  | _, _ => Throw "TypeError: toLowerCase is not a function"
  end.

Definition text_of (v : option value) : outcome string :=
  match v with
  | Some (VStr s) => Ret s
  | Some VNull => Ret "null"
  | None => Ret "undefined"
  | Some (VNum _) => Throw "number in a text column"
  end.

Definition fixed2_of (v : value) : outcome string :=
  match v with
  | VNum q => Ret (toFixed2 q)
  | _ => Throw "TypeError: toFixed is not a function"
  end.

Definition positive_num (v : value) : bool :=
  match v with
  | VNum q => if Qlt_le_dec 0 q then true else false
  | _ => false
  end.

Definition obind {A B} (o : outcome A) (k : A → outcome B) : outcome B :=
  match o with
  | Ret a => k a
  | Throw e => Throw e
  end.

Definition formatProposal (order : Row) (quote : Quote) : outcome string :=
  obind (text_of (order !! "size")) (λ size,
  obind (text_of (order !! "material")) (λ material,
  obind (text_of (order !! "color")) (λ color,
  obind (text_of (order !! "fulfillment_type")) (λ fulfillment,
  obind (fixed2_of (basePrice quote)) (λ base,
  obind (if positive_num (addonsPrice quote)
         then fixed2_of (addonsPrice quote) else Ret "") (λ addonsTxt,
  obind (fixed2_of (q_shipping quote)) (λ ship,
  obind (fixed2_of (q_total quote)) (λ totalTxt,
    let parts :=
      (if truthy (order !! "rush") then ["Rush"] else []) ++
      (if truthy (order !! "cad_design") then ["CAD design"] else []) in
    let lines :=
      [ "ðŸ“‹ *FormFit Custom Quote*"; "";
        "Size: " +:+ size; "Material: " +:+ material; "Color: " +:+ color;
        "Fulfillment: " +:+ fulfillment; "";
        "Base price: $" +:+ base ] ++
      (if positive_num (addonsPrice quote)
       then ["Add-ons (" +:+ JS.join ", " parts +:+ "): $" +:+ addonsTxt]
       else []) ++
      (if bool_decide (order !! "fulfillment_type" = Some (VStr "CLOUD"))
       then [ "Shipping: included";
              "(Ships directly to you from our fulfillment partner)" ]
       else [ "Shipping: $" +:+ ship ]) ++
      [ ""; "ðŸ’° Total: $" +:+ totalTxt ] ++
      [ ""; "Reply YES to confirm or NO to cancel." ] in
    Ret (JS.join (String "010"%char "") lines))))))))).

(** The engine of [pricing.js].  It is exact when the size, material,
    colour and fulfilment columns of the order hold texts and the size and
    material are not names that every JavaScript object inherits
    ([constructor], [__proto__]). *)
Definition pricing : Pricing := mkPricing calculateQuote formatProposal.

End PricingJs.

(** ** conversation.js *)

Record Attachment := mkAttachment {
  att_type : string;
  att_url : option string   (* [payload && payload.url] *)
}.

Record Incoming := mkIncoming {
  in_text : string;
  in_attachments : list Attachment
}.

Definition is_image (a : Attachment) : bool := String.eqb (att_type a) "image".

Definition welcome_reply : string :=
  "Hey! 👋 Welcome to FormFit Custom. I'm Mango, your order assistant. Send me a photo of your tools laid out flat on a piece of paper and we'll get you a custom quote!".

Definition photo_reply : string :=
  "Got your photo! 🔧 A couple quick questions:" +:+ String "010"%char
  "1️⃣ What material do you want? (PLA / PETG / PLA+)" +:+ String "010"%char
  "2️⃣ What color?" +:+ String "010"%char
  "3️⃣ Rough size — Small (1-2 tools), Medium (5-10 tools), or Full Drawer?".

Definition details_prompt : string :=
  "Please reply with your material, color, and size preferences.".

Definition fulfillment_reply : string :=
  "Perfect. Do you want us to print it, or would you like a cloud-printed option shipped directly to you?"
  +:+ String "010"%char "(Reply: SELF or CLOUD)".

Definition confirmed_reply (orderId : string) : string :=
  "You're confirmed! 🎉 We'll be in touch when your order ships. Order ID: "
  +:+ orderId.

Definition cancelled_reply : string :=
  "No worries — order cancelled. Send a new photo anytime to start a fresh quote!".

Definition yes_no_prompt : string :=
  "Reply YES to confirm your order or NO to cancel.".

Definition welcome_back_reply : string :=
  "Welcome back! 🙌 Send a new photo to start another order.".

Section Conversation.

Variable env : Env.
Variable pricing : Pricing.

Definition processPhoto (psid : string) (attachments : list Attachment) : M unit :=
  let imageAtt := find is_image attachments in
  photoPath ←
    match imageAtt ≫= att_url with
    | Some url =>
        if JS.nonempty url then downloadAttachment env url psid else mret ""
    | None => mret ""
    end;
  orderId ← createOrder env psid photoPath;
  setState env psid "PHOTO_RECEIVED" orderId;;
  sendText env psid photo_reply;;
  saveMessage env psid "out" photo_reply.

Definition handleNew (psid text : string) (hasImage : bool)
    (attachments : list Attachment) : M unit :=
  if hasImage then processPhoto psid attachments
  else
    sendText env psid welcome_reply;;
    saveMessage env psid "out" welcome_reply.

Definition handlePhotoReceived (psid text : string) : M unit :=
  if negb (JS.nonempty text) then sendText env psid details_prompt
  else
    state ← getState env psid;
    let orderId := pending_order_id state in
    let parsed := parseDetails text in
    updateOrder env orderId
      [ ("material", VStr (d_material parsed)); ("color", VStr (d_color parsed));
        ("size", VStr (d_size parsed)) ];;
    setState env psid "DETAILS_RECEIVED" orderId;;
    sendText env psid fulfillment_reply;;
    saveMessage env psid "out" fulfillment_reply.

Definition handleDetailsReceived (psid text : string) : M unit :=
  let upper := JS.toUpperCase text in
  state ← getState env psid;
  let orderId := pending_order_id state in
  let fulfillment := if JS.includes upper "CLOUD" then "CLOUD" else "SELF" in
  updateOrder env orderId [ ("fulfillment_type", VStr fulfillment) ];;
  order ← getOrder env orderId;
  match order with
  | None => throw "TypeError: Cannot read properties of undefined (reading 'size')"
  | Some order =>
      quote ← lift (calculateQuote pricing (order !! "size") (order !! "material")
                      fulfillment (truthy (order !! "rush"))
                      (truthy (order !! "cad_design")));
      updateOrder env orderId
        [ ("base_price", basePrice quote); ("addons_price", addonsPrice quote);
          ("shipping", q_shipping quote); ("total", q_total quote);
          ("craftcloud_cost", craftcloudCost quote); ("margin", margin quote) ];;
      proposal ← lift (formatProposal pricing order quote);
      setState env psid "QUOTE_SENT" orderId;;
      sendText env psid proposal;;
      saveMessage env psid "out" proposal
  end.

Definition handleQuoteSent (psid text : string) : M unit :=
  let upper := JS.toUpperCase text in
  state ← getState env psid;
  let orderId := pending_order_id state in
  if JS.includes upper "YES" || JS.includes upper "CONFIRM"
     || JS.includes upper "APPROVE" then
    updateOrder env orderId [ ("status", VStr "confirmed") ];;
    setState env psid "CONFIRMED" orderId;;
    sendText env psid (confirmed_reply orderId);;
    saveMessage env psid "out" (confirmed_reply orderId)
  else if JS.includes upper "NO" || JS.includes upper "CANCEL" then
    updateOrder env orderId [ ("status", VStr "cancelled") ];;
    setState env psid "NEW" "";;
    sendText env psid cancelled_reply;;
    saveMessage env psid "out" cancelled_reply
  else
    sendText env psid yes_no_prompt.

Definition handleConfirmed (psid text : string) (hasImage : bool)
    (attachments : list Attachment) : M unit :=
  if hasImage then processPhoto psid attachments
  else
    setState env psid "NEW" "";;
    sendText env psid welcome_back_reply;;
    saveMessage env psid "out" welcome_back_reply.

Definition handleIncoming (psid : string) (message : Incoming) : M unit :=
  state ← getState env psid;
  let text := JS.trim (in_text message) in
  let attachments := in_attachments message in
  let hasImage := existsb is_image attachments in
  if String.eqb (stage state) "NEW" then
    handleNew psid text hasImage attachments
  else if String.eqb (stage state) "PHOTO_RECEIVED" then
    handlePhotoReceived psid text
  else if String.eqb (stage state) "DETAILS_RECEIVED" then
    handleDetailsReceived psid text
  else if String.eqb (stage state) "QUOTE_SENT" then
    handleQuoteSent psid text
  else if String.eqb (stage state) "CONFIRMED" then
    handleConfirmed psid text hasImage attachments
  else
    setState env psid "NEW" "";;
    handleNew psid text hasImage attachments.

End Conversation.

(** ** tooltrace.js *)

Record TraceResult := mkTraceResult {
  tr_stlPath : option string;
  tr_success : bool;
  tr_error : option string
}.

Definition MAX_RETRIES : nat := 2.

(** ** craftcloud.js: the quotes *)

Definition or_else {A} (falsy : A → bool) (a b : option A) : option A :=
  match a with
  | Some x => if falsy x then b else a
  | None => b
  end.

Definition lead_days (q : RawQuote) : option N :=
  match or_else (N.eqb 0) (rq_productionTimeSlow q) (rq_productionTimeFast q) with
  | Some n => if N.eqb 0 n then None else Some n
  | None => None
  end.

(** *** The numbers of the vendor's answer

    A price of the answer is a numeral of its JSON text; the code reads it
    as the double nearest to it, and the sum of two prices is the double
    nearest to the sum of the two doubles. *)

(** The integer part of the binary logarithm of a positive rational: with
    [a] and [b] the bit lengths of the numerator and of the denominator, it
    is [a - b] or one less. *)
Definition floor_log2 (x : Q) : Z :=
  let e := (Z.log2 (Qnum x) - Z.log2 (Zpos (Qden x)))%Z in
  if Qle_bool (2 ^ e) x then e else (e - 1)%Z.

(** The nearest integer, a tie going to the even one. *)
Definition round_half_even (x : Q) : Z :=
  let f := Qfloor x in
  match (x - inject_Z f ?= 1 # 2)%Q with
  | Lt => f
  | Gt => (f + 1)%Z
  | Eq => if Z.even f then f else (f + 1)%Z
  end.

(** The double (IEEE 754 binary64) nearest to a rational, ties to even: 53
    bits of significand from the leading bit down, and below [2 ^ -1022] the
    fixed step [2 ^ -1074] of the subnormal numbers.  The result is in lowest
    terms.  A rational that rounds above the largest double would be an
    infinity in JavaScript: that is not represented ([prices_in_range]). *)
Definition to_double (x : Q) : Q :=
  if Qeq_bool x 0 then 0%Q
  else
    let e := Z.max (floor_log2 (Qabs x)) (-1022) in
    let ulp := (2 ^ (e - 52))%Q in
    let m := inject_Z (round_half_even (Qabs x / ulp)) in
    Qred (if Qle_bool 0 x then m * ulp else - (m * ulp)).

(** [a + b] on two doubles. *)
Definition number_add (a b : Q) : Q := to_double (a + b).

(** Step 5: one combined quote per vendor quote, with the first shipping
    entry of the same vendor. *)
Definition combine_quote (shippings : list Shipping) (q : RawQuote) : VendorQuote :=
  let vendorShipping :=
    find (λ s, String.eqb (sh_vendorId s) (rq_vendorId q)) shippings in
  let price := to_double (rq_price q) in
  let shipping := from_option (λ s, to_double (sh_price s)) 0%Q vendorShipping in
  mkVendorQuote (rq_quoteId q) (rq_vendorId q) price (lead_days q)
    shipping (sh_shippingId <$> vendorShipping) (number_add price shipping).

(** [quotes.sort((a, b) => a.totalPrice - b.totalPrice)].  The difference
    of two doubles has the sign of their comparison.  The sort of an array
    is stable, and a stable sort by a total preorder has one result: the
    one insertion from the right computes. *)
Fixpoint insert_quote (q : VendorQuote) (sorted : list VendorQuote) : list VendorQuote :=
  match sorted with
  | [] => [q]
  | q' :: rest =>
      if Qle_bool (totalPrice q) (totalPrice q') then q :: q' :: rest
      else q' :: insert_quote q rest
  end.

Definition sort_quotes (quotes : list VendorQuote) : list VendorQuote :=
  foldr insert_quote [] quotes.

Record QuoteResult := mkQuoteResult {
  bestQuote : option VendorQuote;
  allQuotes : list VendorQuote
}.

Definition select_quotes (quoteData : QuoteData) : QuoteResult :=
  let quotes := sort_quotes (combine_quote (qd_shippings quoteData) <$> qd_quotes quoteData) in
  mkQuoteResult (head quotes) quotes.

(** *** The selection as the specification words it *)

(** The total price of a vendor quote: the model price plus the shipping
    price of that vendor, 0 when no shipping entry matches. *)
Definition spec_totalPrice (shippings : list Shipping) (q : RawQuote) : Q :=
  match find (λ s, bool_decide (sh_vendorId s = rq_vendorId q)) shippings with
  | Some s => number_add (to_double (rq_price q)) (to_double (sh_price s))
  | None => number_add (to_double (rq_price q)) 0
  end.

(** ** pipeline.js: results *)

Record QuoteSummary := mkQuoteSummary {
  qs_quoteId : string;
  qs_totalPrice : Q;
  qs_vendorId : string;
  qs_leadDays : option N
}.

Record PipelineResult := mkPipelineResult {
  success : bool;
  r_orderId : string;
  r_stlPath : value;                       (* [VNull] is [null] *)
  r_craftcloudQuote : option QuoteSummary;
  r_error : option string
}.

Definition or_default (v : option value) (d : value) : value :=
  if truthy v then default VNull v else d.

Section Pipeline.

Variable env : Env.

(** *** tooltrace.js: processImage *)

Definition trace_failure (error : string) : TraceResult :=
  mkTraceResult None false (Some error).

(** The loop over the attempts, [attempt] being the next one and
    [remaining] how many are left. *)
Fixpoint tooltrace_attempts (remaining attempt : nat) (lastError : option string)
    (absOutputDir : string) : M TraceResult :=
  match remaining with
  | 0 =>
      mret (trace_failure
              (match lastError with
               | Some e => if JS.nonempty e then e else "ToolTrace unavailable"
               | None => "ToolTrace unavailable"
               end))
  | S remaining' =>
      emit (EvRunToolTrace attempt);;
      t ← tick;
      match tooltrace_run env t with
      | Ret _ =>
          mret (mkTraceResult
                  (Some (path_join env absOutputDir (pretty (date_now env t) +:+ ".stl")))
                  true None)
      | Throw e =>
          (if Nat.ltb attempt MAX_RETRIES then emit (EvSleep 3000)
           else mret tt);;
          tooltrace_attempts remaining' (S attempt) (Some e) absOutputDir
      end
  end.

Definition processImage (imagePath : value) (outputDir : string) : M TraceResult :=
  emit (EvProcessImage imagePath outputDir);;
  match imagePath with
  | VStr p =>
      let absImagePath := path_resolve env p in
      let absOutputDir := path_resolve env outputDir in
      t ← tick;
      if negb (fs_exists env t)
      then mret (trace_failure ("Image not found: " +:+ absImagePath))
      else
        t' ← tick;
        (if negb (fs_exists env t') then
           t'' ← tick;
           match mkdir_fault env t'' with
           | Some e => throw e
           | None => mret tt
           end
         else mret tt);;
        tooltrace_attempts MAX_RETRIES 1 None absOutputDir
  | _ => throw "TypeError [ERR_INVALID_ARG_TYPE]: The path argument must be of type string"
  end.

(** *** craftcloud.js *)

Definition getHeaders : M unit :=
  if JS.nonempty (api_key env) then mret tt
  else throw "CRAFTCLOUD_API_KEY not set".

(** Steps 1 to 4 (upload, polling, price request, polling) are the vendor's:
    they end in the quote data or in a throw.  The material is logged and
    not sent. *)
Definition uploadAndQuote (stlFilePath material : value) : M QuoteResult :=
  emit (EvUploadAndQuote stlFilePath material);;
  getHeaders;;
  match stlFilePath with
  | VStr _ =>
      t ← tick;
      quoteData ← lift (vendor_quote env t);
      mret (select_quotes quoteData)
  | _ => throw "TypeError [ERR_INVALID_ARG_TYPE]: The path argument must be of type string"
  end.

(** The cart and the order are the vendor's.  The cart request answers
    with the cart id, the empty string standing for an answer without one;
    [name] is the name of the shipping address, split into first and last
    name between the two requests.  The result is the vendor's order id. *)
Definition placeOrder (quoteId : string) (name : value) (customerRef : string)
    (shippingId : option string) : M string :=
  emit (EvPlaceOrder quoteId name customerRef shippingId);;
  getHeaders;;
  t ← tick;
  cartId ← lift (vendor_cart env t);
  if negb (JS.nonempty cartId) then throw "Cart creation returned no cartId"
  else
    match or_default (Some name) (VStr "FormFit Customer") with
    | VStr _ =>
        t' ← tick;
        lift (vendor_order env t')
    | _ => throw "TypeError: split is not a function"
    end.

(** *** pipeline.js *)

Definition handleSelfFulfillment (orderId : string) (stlPath : value) : M PipelineResult :=
  updateOrder env orderId [ ("status", VStr "in-progress") ];;
  mret (mkPipelineResult true orderId stlPath None None).

Definition handleCloudFulfillment (orderId : string) (order : Row) (stlPath : value)
    : M PipelineResult :=
  let material := or_default (order !! "material") (VStr "PLA") in
  quoteResult ← uploadAndQuote stlPath material;
  match bestQuote quoteResult with
  | None => throw "No Craftcloud quotes returned"
  | Some best =>
      updateOrder env orderId
        [ ("craftcloud_cost", VNum (totalPrice best));
          ("craftcloud_quote_id", VStr (quoteId best)) ];;
      (if JS.nonempty (api_key env) then
         try_catch
           (_ ← placeOrder (quoteId best)
                  (or_default (order !! "name") (VStr "FormFit Customer"))
                  orderId (shippingId best);
            updateOrder env orderId [ ("status", VStr "in-progress") ])
           (λ _, mret tt)
       else mret tt);;
      mret (mkPipelineResult true orderId stlPath
              (Some (mkQuoteSummary (quoteId best) (totalPrice best)
                       (vendorId best) (leadDays best)))
              None)
  end.

(** The [try] block of [runOrderPipeline]. *)
Definition pipeline_try (orderId : string) : M PipelineResult :=
  order ← getOrder env orderId;
  match order with
  | None => throw ("Order " +:+ orderId +:+ " not found")
  | Some order =>
      let stlPath0 := or_default (order !! "stl_path") (VStr "") in
      stlPath ←
        (if negb (truthy (Some stlPath0)) then
           let photoPath := order !! "photo_path" in
           if negb (truthy photoPath)
           then throw "Order has no photo — cannot generate STL"
           else
             traceResult ← processImage (default VNull photoPath) (uploads_dir env);
             if negb (tr_success traceResult)
             then throw ("ToolTrace failed: " +:+ default "null" (tr_error traceResult))
             else
               let stlPath := from_option VStr VNull (tr_stlPath traceResult) in
               updateOrder env orderId [ ("stl_path", stlPath) ];;
               mret stlPath
         else mret stlPath0);
      match or_default (order !! "fulfillment_type") (VStr "") with
      | VStr ft =>
          let fulfillment := JS.toUpperCase ft in
          if String.eqb fulfillment "CLOUD"
          then handleCloudFulfillment orderId order stlPath
          else handleSelfFulfillment orderId stlPath
      | _ => throw "TypeError: toUpperCase is not a function"
      end
  end.

(** Its [catch] block: the write of the status may fail in its turn. *)
Definition pipeline_catch (orderId message : string) : M PipelineResult :=
  try_catch (updateOrder env orderId [ ("status", VStr "error") ]) (λ _, mret tt);;
  mret (mkPipelineResult false orderId VNull None (Some message)).

Definition runOrderPipeline (orderId : string) : M PipelineResult :=
  try_catch (pipeline_try orderId) (pipeline_catch orderId).

End Pipeline.

(** ** craftcloud.js: the names of the shipping address *)

(** [s.split(' ')]: the pieces between the spaces, every space counting. *)
Fixpoint split_space (s : string) : list string :=
  match s with
  | EmptyString => [""]
  | String c s' =>
      if Ascii.eqb c " "%char then "" :: split_space s'
      else
        match split_space s' with
        | t :: ts => String c t :: ts
        | [] => [String c ""]
        end
  end.

(** The first and the last name that [placeOrder] sends for the name of
    the shipping address. *)
Definition shipping_names (name : string) : string * string :=
  let nameParts :=
    split_space (if JS.nonempty name then name else "FormFit Customer") in
  let first := default "" (head nameParts) in
  let last := JS.join " " (tail nameParts) in
  (if JS.nonempty first then first else "FormFit",
   if JS.nonempty last then last else "Customer").

(** ** webhook.js *)

Record WebhookMessage := mkWebhookMessage {
  wm_is_echo : bool;
  wm_text : option string;
  wm_attachments : option (list Attachment)
}.

Record WebhookEvent := mkWebhookEvent {
  ev_sender : option string;            (* [event.sender?.id] *)
  ev_message : option WebhookMessage
}.

Record WebhookBody := mkWebhookBody {
  wb_object : string;
  wb_entry : list (list WebhookEvent)   (* the [messaging] of every entry *)
}.

(** What is logged for an inbound message. *)
Definition inbound_text (text : string) (attachments : list Attachment) : string :=
  if JS.nonempty text then text
  else match attachments with
       | [] => "[empty]"
       | _ => "[image]"
       end.

(** [for (const x of l) { await f(x) }]. *)
Fixpoint for_each {A} (f : A → M unit) (l : list A) : M unit :=
  match l with
  | [] => mret tt
  | x :: l' => f x;; for_each f l'
  end.

Section Webhook.

Variable env : Env.
Variable pricing : Pricing.

(** The body of the inner loop of the POST route. *)
Definition handle_event (event : WebhookEvent) : M unit :=
  match ev_sender event with
  | None => mret tt
  | Some psid =>
      if negb (JS.nonempty psid) then mret tt
      else if from_option wm_is_echo false (ev_message event) then mret tt
      else
        let text := default "" (ev_message event ≫= wm_text) in
        let attachments := default [] (ev_message event ≫= wm_attachments) in
        saveMessage env psid "in" (inbound_text text attachments);;
        handleIncoming env pricing psid (mkIncoming text attachments)
  end.

(** The POST route, after its answer 200. *)
Definition webhook_post (body : WebhookBody) : M unit :=
  try_catch
    (if negb (String.eqb (wb_object body) "page") then mret tt
     else for_each (for_each handle_event) (wb_entry body))
    (λ _, mret tt).

End Webhook.

(** ** index.js: the routes of the dashboard that write

    Of the two versions of the file, the one that has the route of the
    pipeline; its list of statuses has [error]. *)

Inductive ApiBody :=
  | JsonOk
  | JsonError (error : string)
  | JsonResult (result : PipelineResult).

Record Response := mkResponse {
  res_status : N;
  res_body : ApiBody
}.

Definition validStatuses : list string :=
  [ "new"; "confirmed"; "in-progress"; "shipped"; "cancelled"; "error" ].

Section Routes.

Variable env : Env.

(** [POST /api/orders/:orderId/status].  The body is the object that the
    JSON parser leaves; [status] is its member of that name, [None] when
    it has none. *)
Definition post_order_status (orderId : string) (status : option value) : M Response :=
  try_catch
    (match status with
     | Some (VStr s) =>
         if bool_decide (s ∈ validStatuses) then
           updateOrder env orderId [ ("status", VStr s) ];;
           mret (mkResponse 200 JsonOk)
         else mret (mkResponse 400 (JsonError "Invalid status"))
     | _ => mret (mkResponse 400 (JsonError "Invalid status"))
     end)
    (λ _, mret (mkResponse 500 (JsonError "Failed to update status"))).

(** [POST /api/orders/:orderId/run-pipeline]. *)
Definition post_run_pipeline (orderId : string) : M Response :=
  try_catch
    (order ← getOrder env orderId;
     match order with
     | None => mret (mkResponse 404 (JsonError "Order not found"))
     | Some _ =>
         result ← runOrderPipeline env orderId;
         mret (mkResponse 200 (JsonResult result))
     end)
    (λ message,
       mret (mkResponse 500
               (JsonError (if JS.nonempty message then message else "Pipeline failed")))).

End Routes.

(** * Vocabulary of the properties *)

(** The database driver never fails. *)
Definition db_ok (env : Env) : Prop := ∀ t, db_fault env t = false.

(** The five stages of the conversation. *)
Definition stages : list string :=
  [ "NEW"; "PHOTO_RECEIVED"; "DETAILS_RECEIVED"; "QUOTE_SENT"; "CONFIRMED" ].

(** The outcome and the world a program ends in. *)
Definition outcome_of {A} (m : M A) (w : World) : outcome A := (m w).1.
Definition world_after {A} (m : M A) (w : World) : World := (m w).2.

(** Three vendor quotes of 40, 25 and 60 in all, the second one by its
    model price of 20 and a shipping price of 5. *)
Definition sample_shippings : list Shipping :=
  [ mkShipping "vendor-b" 5 "ship-b" ].

Definition sample_quotes : list RawQuote :=
  [ mkRawQuote "q-a" "vendor-a" 40 (Some 7%N) None;
    mkRawQuote "q-b" "vendor-b" 20 (Some 5%N) (Some 3%N);
    mkRawQuote "q-c" "vendor-c" 60 None (Some 2%N) ].

(** The keywords of the reply to a quote, looked up in the upper-cased
    text. *)
Definition has_confirm_keyword (upper : string) : bool :=
  JS.includes upper "YES" || JS.includes upper "CONFIRM"
  || JS.includes upper "APPROVE".

Definition has_cancel_keyword (upper : string) : bool :=
  JS.includes upper "NO" || JS.includes upper "CANCEL".

(** What the store says of an order and of a customer. *)
Definition order_column (orderId column : string) (w : World) : option value :=
  select_order orderId w ≫= (.!! column).

Definition stage_of (psid : string) (w : World) : option string :=
  stage <$> conv w !! psid.

Definition pending_of (psid : string) (w : World) : option string :=
  pending_order_id <$> conv w !! psid.

(** The replies that were sent, and the replies that the message log
    holds, oldest first. *)
Definition sent_reply (e : Event) : option (string * string) :=
  match e with
  | EvSendText psid text _ => Some (psid, text)
  | _ => None
  end.

Definition sent_replies (w : World) : list (string * string) :=
  omap sent_reply (trace w).

Definition logged_reply (m : Message) : option (string * string) :=
  if String.eqb (m_direction m) "out" then Some (m_psid m, m_text m) else None.

Definition logged_replies (w : World) : list (string * string) :=
  omap logged_reply (messages w).

(** A day on which the driver, the network and the file system work, with
    what the browser automation, the vendor's quoting and the vendor's
    ordering answer. *)
Definition sample_env_with (automation : nat → outcome unit)
    (quoting : nat → outcome QuoteData) (ordering : nat → outcome string) : Env :=
  {| db_fault := λ _, false;
     now := λ t, "2024-05-01 10:00:" +:+ pretty t;
     random_num := λ t, (2345 + N.of_nat t)%N;
     date_now := λ t, (1714557600000 + N.of_nat t)%N;
     graph_post_ok := λ _, true;
     http_get_ok := λ _, true;
     fs_exists := λ _, true;
     mkdir_fault := λ _, None;
     tooltrace_run := automation;
     vendor_quote := quoting;
     vendor_cart := λ _, Ret "cart-1";
     vendor_order := ordering;
     api_key := "secret";
     path_resolve := λ p, "/srv/formfit/" +:+ p;
     path_join := λ d f, d +:+ "/" +:+ f;
     uploads_dir := "/srv/formfit/uploads" |}.

(** Everything works, and the vendor quotes 40, 25 and 60. *)
Definition sample_env : Env :=
  sample_env_with (λ _, Ret tt)
    (λ _, Ret (mkQuoteData sample_quotes sample_shippings))
    (λ _, Ret "cc-order-1").

(** The same day with a vendor who takes no order. *)
Definition sample_env_no_placement : Env :=
  sample_env_with (λ _, Ret tt)
    (λ _, Ret (mkQuoteData sample_quotes sample_shippings))
    (λ _, Throw "Request failed with status code 402").

(** The same day with a browser automation that times out. *)
Definition sample_env_no_tooltrace : Env :=
  sample_env_with (λ _, Throw "Timeout 60000ms exceeded")
    (λ _, Ret (mkQuoteData sample_quotes sample_shippings))
    (λ _, Ret "cc-order-1").

(** One customer with one quoted order. *)
Definition sample_order : Row :=
  <["material" := VStr "PETG"]> (<["color" := VStr "red"]>
  (<["size" := VStr "small"]> (<["fulfillment_type" := VStr "SELF"]>
  (new_order "FFC-12345" "u1" "uploads/u1_1714557000000.jpg"
     "2024-05-01 09:50:00")))).

Definition sample_world (stage : string) : World :=
  {| orders := [sample_order];
     messages := [];
     conv := {[ "u1" := mkConvState stage "FFC-12345" "2024-05-01 09:55:00" ]};
     trace := [];
     clock := 0 |}.

(** Two ways a program can behave, whatever the oracles answer: it keeps
    an invariant of the world, it leaves an observation of the world as it
    was. *)
Definition maintains {A} (I : World → Prop) (m : M A) : Prop :=
  ∀ w, I w → I (world_after m w).

Definition preserves {A B} (obs : World → B) (m : M A) : Prop :=
  ∀ w, obs (world_after m w) = obs w.

(** The customer has a conversation state, at one of the five stages. *)
Definition stage_valid (psid : string) (w : World) : Prop :=
  ∃ st, conv w !! psid = Some st ∧ stage st ∈ stages.

(** The calls of the model generation service, oldest first, and the model
    file that each row of the orders holds. *)
Definition process_image_call (e : Event) : option (value * string) :=
  match e with
  | EvProcessImage imagePath outputDir => Some (imagePath, outputDir)
  | _ => None
  end.

Definition process_image_calls (w : World) : list (value * string) :=
  omap process_image_call (trace w).

Definition model_files (w : World) : list (option value * option value) :=
  (λ row : Row, (row !! "order_id", row !! "stl_path")) <$> orders w.

(** The structured result of a failed run. *)
Definition failure_result (orderId message : string) : PipelineResult :=
  mkPipelineResult false orderId VNull None (Some message).

(** The sample order once confirmed, with a way of fulfilment and a model
    file (none when [stl] is empty). *)
Definition sample_confirmed_order (fulfillment stl : string) : Row :=
  <["stl_path" := VStr stl]> (<["fulfillment_type" := VStr fulfillment]>
  (<["status" := VStr "confirmed"]> sample_order)).

Definition sample_confirmed_world (fulfillment stl : string) : World :=
  {| orders := [ sample_confirmed_order fulfillment stl ];
     messages := [];
     conv := {[ "u1" := mkConvState "CONFIRMED" "FFC-12345" "2024-05-01 09:59:00" ]};
     trace := [];
     clock := 0 |}.

(** What the placement of the vendor's order ends in, the cart being asked
    for at instant [t]: the cart, the name, the order. *)
Definition placement (env : Env) (name : value) (t : nat) : outcome string :=
  match vendor_cart env t with
  | Throw e => Throw e
  | Ret cartId =>
      if negb (JS.nonempty cartId) then Throw "Cart creation returned no cartId"
      else
        match name with
        | VStr _ => vendor_order env (S t)
        | _ => Throw "TypeError: split is not a function"
        end
  end.

Definition placed (env : Env) (name : value) (t : nat) : bool :=
  match placement env name t with
  | Ret _ => true
  | Throw _ => false
  end.

(** The first element of a list is at most every other one. *)
Definition head_cheapest (l : list VendorQuote) : Prop :=
  match l with
  | [] => True
  | b :: rest => Forall (λ x, (totalPrice b <= totalPrice x)%Q) rest
  end.

(** The order ids of the rows, and the ids with the customers they belong
    to, in the order of the rows. *)
Definition order_ids (w : World) : list (option value) :=
  (λ row : Row, row !! "order_id") <$> orders w.

Definition order_keys (w : World) : list (option value * option value) :=
  (λ row : Row, (row !! "order_id", row !! "psid")) <$> orders w.

(** No two rows have the same order id. *)
Definition unique_order_ids (w : World) : Prop := NoDup (order_ids w).

(** The id that [generateOrderId] draws at instant [t]. *)
Definition drawn_order_id (env : Env) (t : nat) : string :=
  "FFC-" +:+ pretty (10000 + random_num env t `mod` 90000)%N.

(** A program relates the world it starts in to the world it ends in,
    whatever the oracles answer. *)
Definition relates {A} (R : World → World → Prop) (m : M A) : Prop :=
  ∀ w, R w (world_after m w).

(** What a turn of the conversation with the customer [psid] may do to the
    world: the states of the other customers stay, replies go to [psid]
    only, messages are added to the log for [psid] only, and rows of orders
    are added for [psid] only, the rows there keeping their place, their id
    and their customer. *)
Definition turn_of (psid : string) (w w' : World) : Prop :=
  (∀ p, p ≠ psid → conv w' !! p = conv w !! p) ∧
  (∃ l, sent_replies w' = sent_replies w ++ l ∧ Forall (λ r, r.1 = psid) l) ∧
  (∃ ms, messages w' = messages w ++ ms ∧ Forall (λ m, m_psid m = psid) ms) ∧
  (∃ ks, order_keys w' = order_keys w ++ ks ∧
         Forall (λ k, k.2 = Some (VStr psid)) ks).

(** The number of replies sent so far. *)
Definition reply_count (w : World) : nat := length (sent_replies w).

(** A program sends [n] replies when it completes, and at most [n] when it
    throws. *)
Definition sends {A} (n : nat) (m : M A) : Prop :=
  ∀ w, match m w with
       | (Ret _, w') => reply_count w' = n + reply_count w
       | (Throw _, w') => reply_count w ≤ reply_count w' ≤ n + reply_count w
       end.

(** A program sends at most [n] replies. *)
Definition sends_at_most {A} (n : nat) (m : M A) : Prop :=
  ∀ w, reply_count w ≤ reply_count (world_after m w) ≤ n + reply_count w.

(** The events of a webhook body that are handled: those with a sender
    that are no echoes. *)
Definition handled (event : WebhookEvent) : bool :=
  match ev_sender event with
  | Some psid =>
      JS.nonempty psid && negb (from_option wm_is_echo false (ev_message event))
  | None => false
  end.

(** What a program that only asks the outside world leaves alone: the
    tables and the replies sent. *)
Definition quiet_view (w : World)
    : list Row * list Message * gmap string ConvState * list (string * string) :=
  (orders w, messages w, conv w, sent_replies w).

(** The rows of the orders other than [orderId], each in its place. *)
Definition other_rows (orderId : string) (w : World) : list (option Row) :=
  (λ row : Row, if has_order_id orderId row then None else Some row) <$> orders w.

(** What a run of the pipeline for the order [orderId] leaves alone: the
    messages, the conversation states, the replies sent, the ids and the
    customers of the rows, and the rows of the other orders. *)
Definition pipeline_frame (orderId : string) (w : World) :=
  (messages w, conv w, sent_replies w, order_keys w, other_rows orderId w).

(** The replies that a program logs were sent by it, in that order. *)
Definition logs_what_it_sent (w w' : World) : Prop :=
  ∃ sent logged,
    sent_replies w' = sent_replies w ++ sent ∧
    logged_replies w' = logged_replies w ++ logged ∧
    logged `sublist_of` sent.

(** The events of a webhook body that are handled, in the order of the
    body. *)
Definition handled_events (body : WebhookBody) : list WebhookEvent :=
  filter (λ event, handled event = true) (concat (wb_entry body)).

(** Two events of a webhook body: a photo without text and a text. *)
Definition sample_photo_event (psid : string) : WebhookEvent :=
  mkWebhookEvent (Some psid)
    (Some (mkWebhookMessage false None
             (Some [mkAttachment "image" (Some "https://cdn.example/photo.jpg")]))).

Definition sample_text_event (psid text : string) : WebhookEvent :=
  mkWebhookEvent (Some psid) (Some (mkWebhookMessage false (Some text) None)).

(** The sample world with the order of a third customer, whose id is the
    one drawn on the sample day at instant 3. *)
Definition sample_collision_world : World :=
  set_orders
    (λ os, os ++ [new_order "FFC-12348" "u3" "uploads/u3_1714470000000.jpg"
                    "2024-04-30 08:00:00"])
    (sample_world "NEW").

(** The statuses that the dashboard may write. *)
Definition valid_status (status : option value) : bool :=
  match status with
  | Some (VStr s) => bool_decide (s ∈ validStatuses)
  | _ => false
  end.

(** The address of the photo of a message: the url of its first image, when
    that is not empty. *)
Definition photo_url (attachments : list Attachment) : option string :=
  match find is_image attachments ≫= att_url with
  | Some url => if JS.nonempty url then Some url else None
  | None => None
  end.

(** The sample day without a credential of the vendor. *)
Definition sample_env_no_key : Env :=
  {| db_fault := db_fault sample_env;
     now := now sample_env;
     random_num := random_num sample_env;
     date_now := date_now sample_env;
     graph_post_ok := graph_post_ok sample_env;
     http_get_ok := http_get_ok sample_env;
     fs_exists := fs_exists sample_env;
     mkdir_fault := mkdir_fault sample_env;
     tooltrace_run := tooltrace_run sample_env;
     vendor_quote := vendor_quote sample_env;
     vendor_cart := vendor_cart sample_env;
     vendor_order := vendor_order sample_env;
     api_key := "";
     path_resolve := path_resolve sample_env;
     path_join := path_join sample_env;
     uploads_dir := uploads_dir sample_env |}.

(** A list of quotes in ascending order of the total prices: every quote
    costs at most what every later one costs. *)
Fixpoint ascending (l : list VendorQuote) : Prop :=
  match l with
  | [] => True
  | q :: rest => Forall (λ x, (totalPrice q <= totalPrice x)%Q) rest ∧ ascending rest
  end.

(** The lower-case names that every JavaScript object inherits: as keys of
    a price table they find a member of the prototype and no price. *)
Definition inherited_names : list string := [ "constructor"; "__proto__" ].

(** Prices whose sums are doubles: of a magnitude of at most [2 ^ 1022],
    so that no sum of two of them rounds to an infinity. *)
Definition price_in_range (x : Q) : bool :=
  Qle_bool (Qabs x) (2 ^ 1022).

Definition prices_in_range (quoteData : QuoteData) : bool :=
  forallb (λ q, price_in_range (rq_price q)) (qd_quotes quoteData)
  && forallb (λ s, price_in_range (sh_price s)) (qd_shippings quoteData).

(** Two vendor quotes whose total prices are equal as decimals and differ
    as doubles: 0.1 + 0.2 is above 0.3. *)
Definition sample_decimal_quotes : list RawQuote :=
  [ mkRawQuote "q-a" "vendor-a" (1 # 10) (Some 7%N) None;
    mkRawQuote "q-b" "vendor-b" (3 # 10) (Some 5%N) None ].

Definition sample_decimal_shippings : list Shipping :=
  [ mkShipping "vendor-a" (2 # 10) "ship-a" ].

(** The columns of the allow-list that the schema declares TEXT; the other
    ones are INTEGER or REAL. *)
Definition text_columns : list string :=
  [ "name"; "status"; "photo_path"; "material"; "color"; "size";
    "fulfillment_type"; "stl_path"; "craftcloud_quote_id" ].

(** A value of the type of its column, which the store keeps as it is:
    NULL, a text for a TEXT column, a number for an INTEGER or REAL
    column. *)
Definition fits_column (col : string) (v : value) : bool :=
  match v with
  | VNull => true
  | VStr _ => bool_decide (col ∈ text_columns)
  | VNum _ => negb (bool_decide (col ∈ text_columns))
  end.

(** The steps of [runOrderPipeline] between the read of the order, which
    leaves the world [w], and the fulfilment, which starts in the world
    [w1] with the model file [p]: the order holds [p]; or it holds no model
    file and a photo, [processImage] generates [p] from the photo, and the
    write of [p] to the order works. *)
Definition model_file_ready (env : Env) (orderId : string) (order : Row)
    (w : World) (p : string) (w1 : World) : Prop :=
  (order !! "stl_path" = Some (VStr p) ∧ p ≠ "" ∧ w1 = w)
  ∨ (truthy (order !! "stl_path") = false ∧
     ∃ photo wt,
       order !! "photo_path" = Some (VStr photo) ∧ photo ≠ "" ∧
       processImage env (VStr photo) (uploads_dir env) w
       = (Ret (mkTraceResult (Some p) true None), wt) ∧
       db_fault env (clock wt) = false ∧
       w1 = world_after (updateOrder env orderId [("stl_path", VStr p)]) wt).

(** The sample day with a cart request that the vendor answers without
    cart id, and the sample day with a driver that fails at the instant 5,
    the one of the write of the status in a run that starts at 0 on an
    order with its model file. *)
Definition sample_env_no_cart : Env :=
  {| db_fault := db_fault sample_env;
     now := now sample_env;
     random_num := random_num sample_env;
     date_now := date_now sample_env;
     graph_post_ok := graph_post_ok sample_env;
     http_get_ok := http_get_ok sample_env;
     fs_exists := fs_exists sample_env;
     mkdir_fault := mkdir_fault sample_env;
     tooltrace_run := tooltrace_run sample_env;
     vendor_quote := vendor_quote sample_env;
     vendor_cart := λ _, Ret "";
     vendor_order := vendor_order sample_env;
     api_key := api_key sample_env;
     path_resolve := path_resolve sample_env;
     path_join := path_join sample_env;
     uploads_dir := uploads_dir sample_env |}.

Definition sample_env_status_fault : Env :=
  {| db_fault := λ t, Nat.eqb t 5;
     now := now sample_env;
     random_num := random_num sample_env;
     date_now := date_now sample_env;
     graph_post_ok := graph_post_ok sample_env;
     http_get_ok := http_get_ok sample_env;
     fs_exists := fs_exists sample_env;
     mkdir_fault := mkdir_fault sample_env;
     tooltrace_run := tooltrace_run sample_env;
     vendor_quote := vendor_quote sample_env;
     vendor_cart := vendor_cart sample_env;
     vendor_order := vendor_order sample_env;
     api_key := api_key sample_env;
     path_resolve := path_resolve sample_env;
     path_join := path_join sample_env;
     uploads_dir := uploads_dir sample_env |}.

(** * Properties *)

(** ** Strings *)




(** ** parseDetails *)












(** A decidable proposition that holds by computation. *)
Ltac decide_by_computation :=
  match goal with
  | |- ?P => apply (bool_decide_unpack P); vm_compute; exact I
  end.

(** ** The monad *)

Lemma bind_ret {A B} (m : M A) (k : A → M B) w a w' :
  m w = (Ret a, w') → (m ≫= k) w = k a w'.
Proof. intros H. unfold mbind, M_bind. by rewrite H. Qed.

Lemma bind_throw {A B} (m : M A) (k : A → M B) w e w' :
  m w = (Throw e, w') → (m ≫= k) w = (Throw e, w').
Proof. intros H. unfold mbind, M_bind. by rewrite H. Qed.

Lemma try_catch_ret {A} (m : M A) h w a w' :
  m w = (Ret a, w') → try_catch m h w = (Ret a, w').
Proof. intros H. unfold try_catch. by rewrite H. Qed.

Lemma try_catch_throw {A} (m : M A) h w e w' :
  m w = (Throw e, w') → try_catch m h w = h e w'.
Proof. intros H. unfold try_catch. by rewrite H. Qed.

(** ** db.js: updateOrder *)

Lemma apply_assignments_other (updates : Fields) (row : Row) (col : string) :
  col ∉ updates.*1 → apply_assignments updates row !! col = row !! col.
Proof.
  unfold apply_assignments. revert row.
  induction updates as [|[k v] updates IH]; intros row Hcol; [done|].
  cbn [foldl]. rewrite IH.
  - cbn [fst snd]. apply lookup_insert_ne. intros ->. apply Hcol. cbn. left.
  - intros Hin. apply Hcol. cbn. by right.
Qed.

Lemma allowed_updates_keys (fields : Fields) (col : string) :
  col ∈ (filter (λ kv, kv.1 ∈ allowed) fields).*1 → col ∈ allowed.
Proof.
  intros ([k v] & -> & Hin)%list_elem_of_fmap.
  by apply list_elem_of_filter in Hin as [? _].
Qed.

(** The row of another order is left as it is, and in the row of the order
    only the assigned columns and [updated_at] change. *)
Lemma update_row_other_order orderId updates stamp (row : Row) :
  row !! "order_id" ≠ Some (VStr orderId) →
  update_row orderId updates stamp row = row.
Proof.
  intros Hne. unfold update_row, has_order_id. by rewrite bool_decide_false.
Qed.

Lemma update_row_other_column orderId updates stamp (row : Row) (col : string) :
  col ∉ updates.*1 → col ≠ "updated_at" →
  update_row orderId updates stamp row !! col = row !! col.
Proof.
  intros Hcol Hne. unfold update_row. destruct (has_order_id orderId row); [|done].
  rewrite lookup_insert_ne by done. by apply apply_assignments_other.
Qed.

Lemma updateOrder_cases env orderId (fields : Fields) w :
  let updates := filter (λ kv, kv.1 ∈ allowed) fields in
  updateOrder env orderId fields w =
    if bool_decide (updates = []) then (Ret tt, w)
    else if db_fault env (clock w) then (Throw "SqliteError", set_clock S w)
    else (Ret tt,
          set_trace (λ t, t ++ [EvUpdateOrder orderId updates])
            (set_orders (map (update_row orderId updates (now env (clock w))))
               (set_clock S w))).
Proof.
  intros updates. unfold updateOrder. fold updates.
  destruct updates as [|u us] eqn:Hu; [done|].
  rewrite !bool_decide_false by done.
  unfold db_stmt, tick, mbind, M_bind, throw, mret, M_ret, emit, modify.
  by destruct (db_fault env (clock w)).
Qed.

(** C10.  [updateOrder orderId fields] ignores the keys outside the
    allow-list and does nothing at all when no allowed key is left.
    Otherwise it leaves the messages and the conversation states alone,
    keeps every row in its place, changes in a row only columns of the
    allow-list and [updated_at] (so never [order_id], [psid] or
    [created_at]), and leaves the rows of the other orders as they are.
    For an order id that no row has, no row changes; and the call throws
    only when the database driver fails. *)
Theorem updateOrder_frame env orderId (fields : Fields) w :
  let updates := filter (λ kv, kv.1 ∈ allowed) fields in
  let r := outcome_of (updateOrder env orderId fields) w in
  let w' := world_after (updateOrder env orderId fields) w in
  updateOrder env orderId fields w = updateOrder env orderId updates w ∧
  (updates = [] → updateOrder env orderId fields w = (Ret tt, w)) ∧
  messages w' = messages w ∧ conv w' = conv w ∧
  length (orders w') = length (orders w) ∧
  (∀ i row row', orders w !! i = Some row → orders w' !! i = Some row' →
     (∀ col, col ∉ allowed → col ≠ "updated_at" → row' !! col = row !! col) ∧
     row' !! "order_id" = row !! "order_id" ∧
     row' !! "psid" = row !! "psid" ∧
     row' !! "created_at" = row !! "created_at" ∧
     (row !! "order_id" ≠ Some (VStr orderId) → row' = row)) ∧
  ((∀ row, row ∈ orders w → row !! "order_id" ≠ Some (VStr orderId)) →
     orders w' = orders w ∧ (db_fault env (clock w) = false → r = Ret tt)).
Proof.
  intros updates r w'.
  assert (filter (λ kv, kv.1 ∈ allowed) updates = updates) as Hidem.
  { unfold updates. rewrite list_filter_filter. apply list_filter_iff.
    intros kv. tauto. }
  pose proof (updateOrder_cases env orderId fields w) as Hrun.
  cbn zeta in Hrun. fold updates in Hrun.
  split.
  { rewrite Hrun, (updateOrder_cases env orderId updates w). cbn zeta.
    by rewrite Hidem. }
  split.
  { intros Hnil. by rewrite Hrun, Hnil. }
  assert (∀ col, col ∉ allowed → col ∉ updates.*1) as Hkeys.
  { intros col Hcol Hin. apply Hcol. by apply (allowed_updates_keys fields). }
  subst r w'. unfold outcome_of, world_after. rewrite Hrun.
  destruct (bool_decide (updates = [])); [|destruct (db_fault env (clock w))];
    cbn [fst snd orders messages conv set_orders set_trace set_clock].
  1,2: split_and!; [done..| |done];
       intros i row row' Hrow Hrow'; rewrite Hrow in Hrow';
       injection Hrow' as <-; by split_and!.
  split_and!; [done|done|by rewrite length_map| |].
  - intros i row row' Hrow Hrow'.
    rewrite list_lookup_fmap, Hrow in Hrow'. injection Hrow' as <-.
    split_and!.
    + intros col Hcol Hne. apply update_row_other_column; auto.
    + apply update_row_other_column; [apply Hkeys; decide_by_computation|done].
    + apply update_row_other_column; [apply Hkeys; decide_by_computation|done].
    + apply update_row_other_column; [apply Hkeys; decide_by_computation|done].
    + apply update_row_other_order.
  - intros Hnone. split; [|done].
    rewrite <- (list_fmap_id (orders w)) at 2. apply list_fmap_ext.
    intros i row Hrow. apply update_row_other_order, Hnone.
    by apply list_elem_of_lookup_2 in Hrow.
Qed.

(** ** craftcloud.js: the cheapest quote *)

Lemma insert_quote_perm (q : VendorQuote) (l : list VendorQuote) :
  insert_quote q l ≡ₚ q :: l.
Proof.
  induction l as [|q' l IH]; cbn; [done|].
  destruct (Qle_bool _ _); [done|]. rewrite IH. apply Permutation_swap.
Qed.

Lemma sort_quotes_perm (l : list VendorQuote) : sort_quotes l ≡ₚ l.
Proof.
  induction l as [|q l IH]; cbn; [done|].
  by rewrite insert_quote_perm, IH.
Qed.

Lemma insert_quote_head_cheapest (q : VendorQuote) (l : list VendorQuote) :
  head_cheapest l → head_cheapest (insert_quote q l).
Proof.
  destruct l as [|q' l]; cbn; [by constructor|].
  intros Hl. destruct (Qle_bool (totalPrice q) (totalPrice q')) eqn:Hle; cbn.
  - apply Qle_bool_iff in Hle. constructor; [done|].
    eapply Forall_impl; [exact Hl|]. intros x Hx. cbn in Hx.
    by apply Qle_trans with (totalPrice q').
  - rewrite insert_quote_perm. constructor; [|done].
    destruct (Qlt_le_dec (totalPrice q') (totalPrice q)) as [Hlt|Hge].
    + by apply Qlt_le_weak.
    + apply Qle_bool_iff in Hge. congruence.
Qed.

Lemma sort_quotes_head_cheapest (l : list VendorQuote) :
  head_cheapest (sort_quotes l).
Proof.
  induction l as [|q l IH]; cbn; [done|]. by apply insert_quote_head_cheapest.
Qed.

Lemma head_sort_quotes (l : list VendorQuote) (best : VendorQuote) :
  head (sort_quotes l) = Some best →
  best ∈ l ∧ ∀ x, x ∈ l → (totalPrice best <= totalPrice x)%Q.
Proof.
  intros Hhead. pose proof (sort_quotes_head_cheapest l) as Hmin.
  pose proof (sort_quotes_perm l) as Hperm.
  destruct (sort_quotes l) as [|b rest]; [done|]. injection Hhead as ->.
  split.
  - rewrite <- Hperm. left.
  - intros x Hx. rewrite <- Hperm in Hx.
    apply elem_of_cons in Hx as [->|Hx]; [apply Qle_refl|].
    cbn in Hmin. rewrite Forall_forall in Hmin. by apply Hmin.
Qed.

Lemma head_sort_quotes_is_Some (l : list VendorQuote) :
  l ≠ [] → is_Some (head (sort_quotes l)).
Proof.
  intros Hl. pose proof (sort_quotes_perm l) as Hperm.
  destruct (sort_quotes l); [|by eexists].
  apply Permutation_nil_l in Hperm. by subst.
Qed.

(** The total price of a combined quote is the one of the specification. *)
Lemma combine_quote_totalPrice (shippings : list Shipping) (q : RawQuote) :
  totalPrice (combine_quote shippings q) = spec_totalPrice shippings q.
Proof.
  unfold combine_quote, spec_totalPrice. cbn [totalPrice].
  assert (find (λ s, String.eqb (sh_vendorId s) (rq_vendorId q)) shippings
          = find (λ s, bool_decide (sh_vendorId s = rq_vendorId q)) shippings) as ->.
  { induction shippings as [|s l IH]; [done|]. cbn. rewrite IH.
    destruct (String.eqb_spec (sh_vendorId s) (rq_vendorId q)) as [Heq|Hne].
    - by rewrite bool_decide_true.
    - by rewrite bool_decide_false. }
  by destruct (find _ shippings).
Qed.

(** With a credential and a model file, [uploadAndQuote] returns what the
    selection makes of the vendor's answer. *)
Lemma uploadAndQuote_result env p material w quoteData :
  JS.nonempty (api_key env) = true →
  vendor_quote env (clock w) = Ret quoteData →
  outcome_of (uploadAndQuote env (VStr p) material) w = Ret (select_quotes quoteData).
Proof.
  intros Hkey Hquote.
  unfold outcome_of, uploadAndQuote, getHeaders, emit, modify, tick, lift, mbind, M_bind.
  rewrite Hkey. cbn. by rewrite Hquote.
Qed.

(** C8.  A call of [uploadAndQuote] with a credential, to which the vendor
    answers a list of quotes that is not empty, with prices whose sums do
    not overflow: the call returns, and its best quote is the combined
    quote of one of the quotes of the answer; its total price is the price
    of the model plus the shipping price of that vendor (0 without a
    matching shipping entry), as doubles; no quote of the answer has a
    smaller total price; and a call to which the vendor answers the same
    quotes in another order has a best quote of that same total price,
    which is that same quote when no other quote has its total price. *)
Theorem bestQuote_is_cheapest env p material w
    (shippings : list Shipping) (quotes : list RawQuote) :
  JS.nonempty (api_key env) = true →
  vendor_quote env (clock w) = Ret (mkQuoteData quotes shippings) →
  prices_in_range (mkQuoteData quotes shippings) = true →
  quotes ≠ [] →
  ∃ result q best,
    outcome_of (uploadAndQuote env (VStr p) material) w = Ret result ∧
    bestQuote result = Some best ∧
    q ∈ quotes ∧ best = combine_quote shippings q ∧
    quoteId best = rq_quoteId q ∧ vendorId best = rq_vendorId q ∧
    totalPrice best = spec_totalPrice shippings q ∧
    (∀ q', q' ∈ quotes → (totalPrice best <= spec_totalPrice shippings q')%Q) ∧
    (∀ env' p' material' w' quotes',
       quotes' ≡ₚ quotes →
       JS.nonempty (api_key env') = true →
       vendor_quote env' (clock w') = Ret (mkQuoteData quotes' shippings) →
       ∃ result' best',
         outcome_of (uploadAndQuote env' (VStr p') material') w' = Ret result' ∧
         bestQuote result' = Some best' ∧
         (totalPrice best' == totalPrice best)%Q ∧
         ((∀ q', q' ∈ quotes → q' ≠ q →
             ¬ (spec_totalPrice shippings q' == totalPrice best)%Q) →
          best' = best)).
Proof.
  intros Hkey Hquote _ Hne.
  exists (select_quotes (mkQuoteData quotes shippings)).
  rewrite (uploadAndQuote_result env p material w _ Hkey Hquote).
  unfold select_quotes. cbn [bestQuote qd_quotes qd_shippings].
  set (combined := combine_quote shippings <$> quotes).
  destruct (head_sort_quotes_is_Some combined) as [best Hbest].
  { unfold combined. by destruct quotes. }
  destruct (head_sort_quotes _ _ Hbest) as [Hin Hmin].
  apply list_elem_of_fmap in Hin as (q & -> & Hq).
  exists q, (combine_quote shippings q). split_and!; [done..| | |].
  - apply combine_quote_totalPrice.
  - intros q' Hq'. rewrite <- combine_quote_totalPrice. apply Hmin.
    by apply list_elem_of_fmap_2.
  - intros env' p' material' w' quotes' Hperm Hkey' Hquote'.
    exists (select_quotes (mkQuoteData quotes' shippings)).
    rewrite (uploadAndQuote_result env' p' material' w' _ Hkey' Hquote').
    unfold select_quotes. cbn [bestQuote qd_quotes qd_shippings].
    set (combined' := combine_quote shippings <$> quotes').
    assert (combined' ≡ₚ combined) as Hperm' by (by apply fmap_Permutation).
    destruct (head_sort_quotes_is_Some combined') as [best' Hbest'].
    { intros Hnil. rewrite Hnil in Hperm'. symmetry in Hperm'.
      apply Permutation_nil_r in Hperm'. unfold combined in Hperm'.
      by destruct quotes. }
    destruct (head_sort_quotes _ _ Hbest') as [Hin' Hmin'].
    assert (totalPrice best' == totalPrice (combine_quote shippings q))%Q as Heq.
    { apply Qle_antisym.
      - apply Hmin'. rewrite Hperm'. by apply list_elem_of_fmap_2.
      - apply Hmin. by rewrite <- Hperm'. }
    exists best'. split_and!; [done..|].
    intros Hunique. rewrite Hperm' in Hin'.
    apply list_elem_of_fmap in Hin' as (q' & -> & Hq').
    destruct (decide (q' = q)) as [->|Hdiff]; [done|].
    destruct (Hunique q' Hq' Hdiff). by rewrite <- combine_quote_totalPrice.
Qed.

(** On the sample day, among the total prices 40, 25 and 60 the quote of
    25 is the best one. *)
Lemma bestQuote_is_cheapest_witness :
  ∃ result best,
    outcome_of (uploadAndQuote sample_env (VStr "uploads/model.stl") (VStr "PLA"))
      (sample_world "CONFIRMED") = Ret result ∧
    bestQuote result = Some best ∧
    quoteId best = "q-b" ∧ totalPrice best = 25%Q ∧
    ∀ q', q' ∈ sample_quotes →
          (totalPrice best <= spec_totalPrice sample_shippings q')%Q.
Proof.
  destruct (bestQuote_is_cheapest sample_env "uploads/model.stl" (VStr "PLA")
              (sample_world "CONFIRMED") sample_shippings sample_quotes
              eq_refl eq_refl eq_refl)
    as (result & q & best & Hresult & Hbest & _ & _ & _ & _ & _ & Hmin & _);
    [discriminate|].
  exists result, best. split; [exact Hresult|]. split; [exact Hbest|].
  assert (Some best = Some (combine_quote sample_shippings
                              (mkRawQuote "q-b" "vendor-b" 20 (Some 5%N) (Some 3%N))))
    as [= ->].
  { rewrite <- Hbest. by injection Hresult as <-. }
  split; [reflexivity|]. split; [reflexivity|exact Hmin].
Defined.

(** The sums are sums of doubles: of a quote of 0.1 with a shipping price
    of 0.2 and a quote of 0.3 without one, the second is the best one,
    whichever comes first. *)
Lemma bestQuote_of_doubles :
  (quoteId <$> bestQuote (select_quotes
     (mkQuoteData sample_decimal_quotes sample_decimal_shippings))) = Some "q-b" ∧
  (quoteId <$> bestQuote (select_quotes
     (mkQuoteData (reverse sample_decimal_quotes) sample_decimal_shippings)))
    = Some "q-b" ∧
  (quoteId <$> allQuotes (select_quotes
     (mkQuoteData sample_decimal_quotes sample_decimal_shippings))) = ["q-b"; "q-a"].
Proof. by vm_compute. Qed.

(** The three quotes in each of their six orders: always the one of 25. *)
Lemma bestQuote_sample_orders (quotes' : list RawQuote) :
  quotes' ∈ permutations sample_quotes →
  (quoteId <$> bestQuote (select_quotes (mkQuoteData quotes' sample_shippings)))
    = Some "q-b" ∧
  (totalPrice <$> bestQuote (select_quotes (mkQuoteData quotes' sample_shippings)))
    = Some 25%Q.
Proof.
  intros Hin. vm_compute in Hin.
  repeat (apply elem_of_cons in Hin as [->|Hin]; [by vm_compute|]).
  by apply elem_of_nil in Hin.
Qed.

(** ** The record store when the driver works *)

Section RecordStore.

Context (env : Env) (Hok : db_ok env).

Lemma db_stmt_run w : db_stmt env w = (Ret (clock w), set_clock S w).
Proof. unfold db_stmt, tick, mbind, M_bind. cbn. by rewrite Hok. Qed.

Lemma filter_allowed_all (fields : Fields) :
  Forall (λ kv, kv.1 ∈ allowed) fields →
  filter (λ kv, kv.1 ∈ allowed) fields = fields.
Proof.
  induction 1 as [|kv fields Hkv _ IH]; [done|].
  by rewrite filter_cons_True, IH.
Qed.

Lemma updateOrder_run orderId (fields : Fields) w :
  Forall (λ kv, kv.1 ∈ allowed) fields → fields ≠ [] →
  updateOrder env orderId fields w =
    (Ret tt,
     set_trace (λ t, t ++ [EvUpdateOrder orderId fields])
       (set_orders (map (update_row orderId fields (now env (clock w))))
          (set_clock S w))).
Proof.
  intros Hall Hne. rewrite updateOrder_cases. cbn zeta.
  rewrite filter_allowed_all by done.
  by rewrite bool_decide_false, Hok.
Qed.

Lemma saveMessage_run psid direction text w :
  saveMessage env psid direction text w =
    (Ret tt,
     set_trace (λ t, t ++ [EvInsertMessage psid direction text])
       (set_messages (λ ms, ms ++ [mkMessage psid direction text (now env (clock w))])
          (set_clock S w))).
Proof. unfold saveMessage. by rewrite (bind_ret _ _ _ _ _ (db_stmt_run w)). Qed.

Lemma getState_found psid st w :
  conv w !! psid = Some st →
  getState env psid w = (Ret st, set_clock S w).
Proof.
  intros Hst. unfold getState. rewrite (bind_ret _ _ _ _ _ (db_stmt_run w)).
  unfold get_world, mbind, M_bind. cbn. by rewrite Hst.
Qed.

Lemma setState_run psid stage pendingOrderId w :
  setState env psid stage pendingOrderId w =
    (Ret tt,
     set_trace (λ t, t ++ [EvSetState psid stage pendingOrderId])
       (set_conv (insert psid (mkConvState stage pendingOrderId (now env (clock w))))
          (set_clock S w))).
Proof. unfold setState. by rewrite (bind_ret _ _ _ _ _ (db_stmt_run w)). Qed.

End RecordStore.

Lemma sendText_run env psid text w :
  sendText env psid text w =
    (Ret tt,
     set_trace (λ t, t ++ [EvSendText psid text (graph_post_ok env (clock w))])
       (set_clock S w)).
Proof. done. Qed.

(** The fields that the handlers and the pipeline assign are all on the
    allow-list. *)
Ltac allowed_fields :=
  repeat (apply Forall_cons; split; [decide_by_computation|]); apply Forall_nil_2.

(** Run the next statement of a program whose outcome is known. *)
Ltac run_with lem :=
  erewrite bind_ret; [|apply lem; first [done|allowed_fields|eassumption]].

(** ** conversation.js: the reply to a quote *)

Lemma has_order_id_update_row orderId' orderId (updates : Fields) stamp (row : Row) :
  "order_id" ∉ updates.*1 →
  has_order_id orderId' (update_row orderId updates stamp row)
  = has_order_id orderId' row.
Proof.
  intros Hkey. unfold has_order_id.
  by rewrite update_row_other_column.
Qed.

Lemma select_order_update orderId' orderId (updates : Fields) stamp (os : list Row) :
  "order_id" ∉ updates.*1 →
  find (has_order_id orderId') (map (update_row orderId updates stamp) os)
  = update_row orderId updates stamp <$> find (has_order_id orderId') os.
Proof.
  intros Hkey. induction os as [|row os IH]; [done|]. cbn.
  rewrite has_order_id_update_row by done.
  by destruct (has_order_id orderId' row).
Qed.

Lemma select_order_has_id orderId w (row : Row) :
  select_order orderId w = Some row → has_order_id orderId row = true.
Proof. intros H. by apply find_some in H as [_ ?]. Qed.

(** The status of the pending order after its status was assigned. *)
Lemma order_status_assigned orderId (status : value) stamp w w' (row : Row) :
  select_order orderId w = Some row →
  orders w' = map (update_row orderId [("status", status)] stamp) (orders w) →
  order_column orderId "status" w' = Some status.
Proof.
  intros Hrow Horders. unfold order_column, select_order. rewrite Horders.
  rewrite select_order_update by (cbn; decide_by_computation).
  fold (select_order orderId w). rewrite Hrow. cbn.
  unfold update_row. rewrite (select_order_has_id _ _ _ Hrow).
  rewrite lookup_insert_ne by done. cbn. apply lookup_insert_eq.
Qed.

Section QuoteSent.

Context (env : Env) (Hok : db_ok env).
Context (psid text : string) (w : World) (st : ConvState).
Context (Hst : conv w !! psid = Some st).

Let upper := JS.toUpperCase text.
Let orderId := pending_order_id st.

Lemma handleQuoteSent_confirm :
  has_confirm_keyword upper = true →
  ∃ w',
    handleQuoteSent env psid text w = (Ret tt, w') ∧
    orders w' = map (update_row orderId [("status", VStr "confirmed")]
                       (now env (S (clock w)))) (orders w) ∧
    conv w' = <[psid := mkConvState "CONFIRMED" orderId (now env (S (S (clock w))))]> (conv w) ∧
    sent_replies w' = sent_replies w ++ [(psid, confirmed_reply orderId)] ∧
    logged_replies w' = logged_replies w ++ [(psid, confirmed_reply orderId)].
Proof.
  intros Hkw. unfold handleQuoteSent. fold upper. unfold has_confirm_keyword in Hkw.
  rewrite Hkw. run_with getState_found. fold orderId.
  run_with updateOrder_run. run_with setState_run. run_with sendText_run.
  rewrite saveMessage_run by done. eexists. split; [done|].
  unfold sent_replies, logged_replies. cbn. rewrite !omap_app. cbn.
  by rewrite !app_nil_r.
Qed.


Lemma handleQuoteSent_reprompt :
  has_confirm_keyword upper = false →
  has_cancel_keyword upper = false →
  ∃ w',
    handleQuoteSent env psid text w = (Ret tt, w') ∧
    orders w' = orders w ∧ conv w' = conv w ∧ messages w' = messages w ∧
    sent_replies w' = sent_replies w ++ [(psid, yes_no_prompt)].
Proof.
  intros Hno Hkw. unfold handleQuoteSent. fold upper.
  unfold has_confirm_keyword in Hno. unfold has_cancel_keyword in Hkw.
  rewrite Hno, Hkw. run_with getState_found. rewrite sendText_run.
  eexists. split; [done|]. unfold sent_replies. cbn. by rewrite omap_app.
Qed.

End QuoteSent.




(** C9.  At stage QUOTE_SENT, with the pending order in the store and a
    database that works, a text that contains a confirm keyword and a
    cancel keyword confirms: the status of the order becomes confirmed,
    not cancelled, and the stage becomes CONFIRMED. *)
Theorem confirm_keyword_has_priority env psid text w st (order : Row) :
  db_ok env →
  conv w !! psid = Some st →
  stage st = "QUOTE_SENT" →
  select_order (pending_order_id st) w = Some order →
  has_confirm_keyword (JS.toUpperCase text) = true →
  has_cancel_keyword (JS.toUpperCase text) = true →
  let w' := world_after (handleQuoteSent env psid text) w in
  outcome_of (handleQuoteSent env psid text) w = Ret tt ∧
  order_column (pending_order_id st) "status" w' = Some (VStr "confirmed") ∧
  order_column (pending_order_id st) "status" w' ≠ Some (VStr "cancelled") ∧
  stage_of psid w' = Some "CONFIRMED".
Proof.
  intros Hok Hst _ Horder Hyes _ w'. subst w'.
  unfold outcome_of, world_after, stage_of.
  destruct (handleQuoteSent_confirm env Hok psid text w st Hst Hyes)
    as (w' & -> & Horders & Hconv & _).
  cbn [fst snd]. rewrite Hconv, lookup_insert_eq.
  assert (order_column (pending_order_id st) "status" w' = Some (VStr "confirmed"))
    as Hstatus by (by eapply order_status_assigned).
  split_and!; try done. by rewrite Hstatus.
Qed.

Lemma confirm_keyword_has_priority_witness :
  let text := "Yes please, no changes" in
  let w := sample_world "QUOTE_SENT" in
  db_ok sample_env ∧
  has_confirm_keyword (JS.toUpperCase text) = true ∧
  has_cancel_keyword (JS.toUpperCase text) = true ∧
  let w' := world_after (handleQuoteSent sample_env "u1" text) w in
  outcome_of (handleQuoteSent sample_env "u1" text) w = Ret tt ∧
  order_column "FFC-12345" "status" w' = Some (VStr "confirmed") ∧
  order_column "FFC-12345" "status" w' ≠ Some (VStr "cancelled") ∧
  stage_of "u1" w' = Some "CONFIRMED".
Proof.
  intros text w. split; [by intros t|]. split; [reflexivity|]. split; [reflexivity|].
  exact (confirm_keyword_has_priority sample_env "u1" text w
           (mkConvState "QUOTE_SENT" "FFC-12345" "2024-05-01 09:55:00")
           sample_order (λ t, eq_refl) eq_refl eq_refl eq_refl eq_refl eq_refl).
Defined.

(** ** conversation.js: replies and the message log *)

(** C3 fails on the code: at stage QUOTE_SENT, with a database that works,
    a text without keyword is answered by the re-prompt, and the turn ends
    with that reply sent and nothing added to the message log. *)
Theorem reprompt_is_not_logged env pricing psid message w st :
  db_ok env →
  conv w !! psid = Some st →
  stage st = "QUOTE_SENT" →
  has_confirm_keyword (JS.toUpperCase (JS.trim (in_text message))) = false →
  has_cancel_keyword (JS.toUpperCase (JS.trim (in_text message))) = false →
  let w' := world_after (handleIncoming env pricing psid message) w in
  outcome_of (handleIncoming env pricing psid message) w = Ret tt ∧
  sent_replies w' = sent_replies w ++ [(psid, yes_no_prompt)] ∧
  messages w' = messages w ∧
  logged_replies w' = logged_replies w.
Proof.
  intros Hok Hst Hstage Hyes Hno w'. subst w'. unfold outcome_of, world_after.
  unfold handleIncoming. run_with getState_found. rewrite Hstage.
  cbn [String.eqb Ascii.eqb Bool.eqb andb].
  destruct (handleQuoteSent_reprompt env Hok psid (JS.trim (in_text message))
              (set_clock S w) st Hst Hyes Hno)
    as (w' & -> & _ & _ & Hmsg & Hsent).
  cbn [fst snd]. unfold logged_replies. by rewrite Hmsg.
Qed.

(** The turn of the sample customer who answers "maybe later": one reply
    sent, none logged. *)
Lemma reprompt_is_not_logged_witness :
  let message := mkIncoming "maybe later" [] in
  let w := sample_world "QUOTE_SENT" in
  let w' := world_after (handleIncoming sample_env PricingJs.pricing "u1" message) w in
  db_ok sample_env ∧
  stage_of "u1" w = Some "QUOTE_SENT" ∧
  outcome_of (handleIncoming sample_env PricingJs.pricing "u1" message) w = Ret tt ∧
  sent_replies w' = [("u1", yes_no_prompt)] ∧
  messages w' = [] ∧
  logged_replies w' = [].
Proof.
  intros message w w'. split; [by intros t|]. split; [reflexivity|].
  exact (reprompt_is_not_logged sample_env PricingJs.pricing "u1" message w
           (mkConvState "QUOTE_SENT" "FFC-12345" "2024-05-01 09:55:00")
           (λ t, eq_refl) eq_refl eq_refl eq_refl eq_refl).
Defined.

(** The other reply that is sent and not logged: the request to resend the
    details, at stage PHOTO_RECEIVED on an empty text. *)
Lemma details_prompt_is_not_logged env pricing psid message w st :
  db_ok env →
  conv w !! psid = Some st →
  stage st = "PHOTO_RECEIVED" →
  JS.trim (in_text message) = "" →
  let w' := world_after (handleIncoming env pricing psid message) w in
  outcome_of (handleIncoming env pricing psid message) w = Ret tt ∧
  sent_replies w' = sent_replies w ++ [(psid, details_prompt)] ∧
  messages w' = messages w.
Proof.
  intros Hok Hst Hstage Hempty w'. subst w'. unfold outcome_of, world_after.
  unfold handleIncoming. run_with getState_found. rewrite Hstage, Hempty.
  cbn [String.eqb Ascii.eqb Bool.eqb andb].
  unfold handlePhotoReceived. cbn [JS.nonempty negb]. rewrite sendText_run.
  cbn. unfold sent_replies. cbn. by rewrite omap_app.
Qed.

(** ** Invariants and observations through the monad *)

Section Structural.

Context {B : Type} (obs : World → B) (I : World → Prop).

Lemma preserves_ret {A} (a : A) : preserves obs (mret a).
Proof. done. Qed.

Lemma preserves_throw {A} e : preserves obs (throw (A:=A) e).
Proof. done. Qed.

Lemma preserves_lift {A} (o : outcome A) : preserves obs (lift o).
Proof. done. Qed.

Lemma preserves_bind {A C} (m : M A) (k : A → M C) :
  preserves obs m → (∀ a, preserves obs (k a)) → preserves obs (m ≫= k).
Proof.
  intros Hm Hk w. specialize (Hm w). unfold world_after, mbind, M_bind in *.
  destruct (m w) as [[a|e] w1]; cbn in *; [|done].
  by rewrite <- Hm, <- (Hk a w1).
Qed.

Lemma preserves_try_catch {A} (m : M A) h :
  preserves obs m → (∀ e, preserves obs (h e)) → preserves obs (try_catch m h).
Proof.
  intros Hm Hh w. specialize (Hm w). unfold world_after, try_catch in *.
  destruct (m w) as [[a|e] w1]; cbn in *; [done|].
  by rewrite <- Hm, <- (Hh e w1).
Qed.

Lemma maintains_ret {A} (a : A) : maintains I (mret a).
Proof. by intros w. Qed.

Lemma maintains_throw {A} e : maintains I (throw (A:=A) e).
Proof. by intros w. Qed.

Lemma maintains_lift {A} (o : outcome A) : maintains I (lift o).
Proof. by intros w. Qed.

Lemma maintains_bind {A C} (m : M A) (k : A → M C) :
  maintains I m → (∀ a, maintains I (k a)) → maintains I (m ≫= k).
Proof.
  intros Hm Hk w Hw. specialize (Hm w Hw). unfold world_after, mbind, M_bind in *.
  destruct (m w) as [[a|e] w1]; cbn in *; [|done]. by apply (Hk a w1).
Qed.

Lemma preserves_maintains {A} (m : M A) :
  (∀ w w', obs w' = obs w → I w → I w') → preserves obs m → maintains I m.
Proof. intros Hobs Hm w Hw. by apply (Hobs w), Hw. Qed.

End Structural.

(** ** What the statements of db.js and messenger.js leave alone *)

(** A statement of the record store or a call of the messenger, taken
    apart into the cases of its oracles. *)
Ltac by_oracle_cases :=
  intros w;
  unfold world_after, outcome_of, createOrder, generateOrderId, getOrder, updateOrder,
    saveMessage, getState, setState, sendText, downloadAttachment, db_stmt, tick,
    emit, modify, get_world, throw, mbind, M_bind, mret, M_ret;
  cbn; repeat (case_match; cbn; simplify_eq); try done.

Section Frames.

Context (env : Env).

Lemma getOrder_conv orderId : preserves conv (getOrder env orderId).
Proof. by_oracle_cases. Qed.

Lemma updateOrder_conv orderId fields : preserves conv (updateOrder env orderId fields).
Proof. by_oracle_cases. Qed.

Lemma saveMessage_conv psid direction text :
  preserves conv (saveMessage env psid direction text).
Proof. by_oracle_cases. Qed.

Lemma sendText_conv psid text : preserves conv (sendText env psid text).
Proof. by_oracle_cases. Qed.

Lemma downloadAttachment_conv url psid :
  preserves conv (downloadAttachment env url psid).
Proof. by_oracle_cases. Qed.

Lemma createOrder_conv psid photoPath : preserves conv (createOrder env psid photoPath).
Proof. by_oracle_cases. Qed.

End Frames.

(** ** conversation.js: the stage is one of the five *)

Lemma stage_valid_conv psid w w' :
  conv w' = conv w → stage_valid psid w → stage_valid psid w'.
Proof. unfold stage_valid. by intros ->. Qed.

Lemma conv_frame {A} psid (m : M A) :
  preserves conv m → maintains (stage_valid psid) m.
Proof. apply preserves_maintains. intros w w'. apply stage_valid_conv. Qed.

Lemma setState_stage_valid env psid stage pendingOrderId :
  stage ∈ stages → maintains (stage_valid psid) (setState env psid stage pendingOrderId).
Proof.
  intros Hstage w Hw. unfold world_after, setState, db_stmt, tick, mbind, M_bind.
  cbn. destruct (db_fault env (clock w)); cbn; [done|].
  eexists. split; [apply lookup_insert_eq|done].
Qed.

Lemma getState_stage_valid env psid : maintains (stage_valid psid) (getState env psid).
Proof.
  intros w (st & Hst & Hstage). unfold world_after, getState, db_stmt, tick, mbind, M_bind.
  cbn. destruct (db_fault env (clock w)); cbn; [by exists st|].
  rewrite Hst. by exists st.
Qed.

(** One step of a handler keeps the stage valid. *)
Ltac stage_step :=
  first
    [ apply getState_stage_valid
    | apply setState_stage_valid; decide_by_computation
    | apply conv_frame;
      first [ apply getOrder_conv | apply updateOrder_conv | apply saveMessage_conv
            | apply sendText_conv | apply downloadAttachment_conv
            | apply createOrder_conv ]
    | apply maintains_ret
    | apply maintains_throw
    | apply maintains_lift
    | apply maintains_bind; [|intros ?]
    | case_match ].

Section Handlers.

Context (env : Env) (pricing : Pricing) (psid : string).

Lemma processPhoto_stage attachments :
  maintains (stage_valid psid) (processPhoto env psid attachments).
Proof. unfold processPhoto. repeat stage_step. Qed.

Lemma handleNew_stage text hasImage attachments :
  maintains (stage_valid psid) (handleNew env psid text hasImage attachments).
Proof. unfold handleNew. destruct hasImage; [apply processPhoto_stage|]. repeat stage_step. Qed.

Lemma handlePhotoReceived_stage text :
  maintains (stage_valid psid) (handlePhotoReceived env psid text).
Proof. unfold handlePhotoReceived. repeat stage_step. Qed.

Lemma handleDetailsReceived_stage text :
  maintains (stage_valid psid) (handleDetailsReceived env pricing psid text).
Proof. unfold handleDetailsReceived. repeat stage_step. Qed.

Lemma handleQuoteSent_stage text :
  maintains (stage_valid psid) (handleQuoteSent env psid text).
Proof. unfold handleQuoteSent. repeat stage_step. Qed.

Lemma handleConfirmed_stage text hasImage attachments :
  maintains (stage_valid psid) (handleConfirmed env psid text hasImage attachments).
Proof.
  unfold handleConfirmed. destruct hasImage; [apply processPhoto_stage|].
  repeat stage_step.
Qed.

End Handlers.

Lemma getState_cases env psid w :
  getState env psid w =
    if db_fault env (clock w) then (Throw "SqliteError", set_clock S w)
    else match conv w !! psid with
         | Some st => (Ret st, set_clock S w)
         | None =>
             if db_fault env (S (clock w))
             then (Throw "SqliteError", set_clock S (set_clock S w))
             else (Ret (mkConvState "NEW" "" (now env (S (clock w)))),
                   set_trace (λ t, t ++ [EvInsertState psid])
                     (set_conv (insert psid (mkConvState "NEW" "" (now env (S (clock w)))))
                        (set_clock S (set_clock S w))))
         end.
Proof.
  unfold getState, db_stmt, tick, mbind, M_bind, get_world. cbn.
  destruct (db_fault env (clock w)); cbn; [done|].
  destruct (conv w !! psid); cbn; [done|].
  by destruct (db_fault env (S (clock w))).
Qed.

Lemma setState_cases env psid stage pendingOrderId w :
  setState env psid stage pendingOrderId w =
    if db_fault env (clock w) then (Throw "SqliteError", set_clock S w)
    else (Ret tt,
          set_trace (λ t, t ++ [EvSetState psid stage pendingOrderId])
            (set_conv (insert psid (mkConvState stage pendingOrderId (now env (clock w))))
               (set_clock S w))).
Proof.
  unfold setState, db_stmt, tick, mbind, M_bind. cbn.
  by destruct (db_fault env (clock w)).
Qed.

(** The dispatch of [handleIncoming] on a state that was read. *)
Lemma dispatch_stage env pricing psid message st w1 :
  conv w1 !! psid = Some st →
  let text := JS.trim (in_text message) in
  let attachments := in_attachments message in
  let hasImage := existsb is_image attachments in
  let dispatch : M unit :=
    if String.eqb (stage st) "NEW" then
      handleNew env psid text hasImage attachments
    else if String.eqb (stage st) "PHOTO_RECEIVED" then
      handlePhotoReceived env psid text
    else if String.eqb (stage st) "DETAILS_RECEIVED" then
      handleDetailsReceived env pricing psid text
    else if String.eqb (stage st) "QUOTE_SENT" then
      handleQuoteSent env psid text
    else if String.eqb (stage st) "CONFIRMED" then
      handleConfirmed env psid text hasImage attachments
    else
      setState env psid "NEW" "";;
      handleNew env psid text hasImage attachments in
  (stage st ∈ stages ∨ db_fault env (clock w1) = false →
   stage_valid psid (world_after dispatch w1)) ∧
  (stage st ∉ stages → db_fault env (clock w1) = true →
   ∃ e, outcome_of dispatch w1 = Throw e).
Proof.
  intros Hst text attachments hasImage dispatch. subst dispatch.
  assert (stage st ∈ stages → stage_valid psid w1) as Hvalid by (by exists st).
  destruct (String.eqb_spec (stage st) "NEW") as [Hs|Hnew].
  { split; [intros _|intros []; rewrite Hs; decide_by_computation].
    apply handleNew_stage, Hvalid. rewrite Hs. decide_by_computation. }
  destruct (String.eqb_spec (stage st) "PHOTO_RECEIVED") as [Hs|Hphoto].
  { split; [intros _|intros []; rewrite Hs; decide_by_computation].
    apply handlePhotoReceived_stage, Hvalid. rewrite Hs. decide_by_computation. }
  destruct (String.eqb_spec (stage st) "DETAILS_RECEIVED") as [Hs|Hdetails].
  { split; [intros _|intros []; rewrite Hs; decide_by_computation].
    apply handleDetailsReceived_stage, Hvalid. rewrite Hs. decide_by_computation. }
  destruct (String.eqb_spec (stage st) "QUOTE_SENT") as [Hs|Hquote].
  { split; [intros _|intros []; rewrite Hs; decide_by_computation].
    apply handleQuoteSent_stage, Hvalid. rewrite Hs. decide_by_computation. }
  destruct (String.eqb_spec (stage st) "CONFIRMED") as [Hs|Hconfirmed].
  { split; [intros _|intros []; rewrite Hs; decide_by_computation].
    apply handleConfirmed_stage, Hvalid. rewrite Hs. decide_by_computation. }
  assert (stage st ∉ stages) as Hunknown.
  { unfold stages. rewrite !not_elem_of_cons. split_and!; try done. apply not_elem_of_nil. }
  unfold world_after, outcome_of. pose proof (setState_cases env psid "NEW" "" w1) as Hset.
  destruct (db_fault env (clock w1)).
  - rewrite (bind_throw _ _ _ _ _ Hset). split; [by intros [?|?]|]. intros _ _. by eexists.
  - rewrite (bind_ret _ _ _ _ _ Hset). split; [intros _|done].
    apply handleNew_stage. eexists. split; [apply lookup_insert_eq|decide_by_computation].
Qed.

(** C4.  After a turn of [handleIncoming] that completes, and after any
    turn when the database works, the stage of the customer is one of the
    five.  And on a stored stage that is none of the five, with a database
    that works, the turn first writes the stage NEW with an empty pending
    order reference, the orders and the messages being left alone, and
    then is the turn of [handleNew] from there. *)
Theorem handleIncoming_stage env pricing psid message w :
  let text := JS.trim (in_text message) in
  let attachments := in_attachments message in
  let hasImage := existsb is_image attachments in
  let turn := handleIncoming env pricing psid message in
  (outcome_of turn w = Ret tt → stage_valid psid (world_after turn w)) ∧
  (db_ok env → stage_valid psid (world_after turn w)) ∧
  (∀ st, conv w !! psid = Some st → stage st ∉ stages → db_ok env →
     ∃ w1,
       (getState env psid ≫= λ _, setState env psid "NEW" "") w = (Ret tt, w1) ∧
       stage_of psid w1 = Some "NEW" ∧ pending_of psid w1 = Some "" ∧
       orders w1 = orders w ∧ messages w1 = messages w ∧
       turn w = handleNew env psid text hasImage attachments w1).
Proof.
  intros text attachments hasImage turn. subst text attachments hasImage turn.
  unfold outcome_of, world_after, handleIncoming.
  pose proof (getState_cases env psid w) as Hget.
  split_and!.
  - destruct (db_fault env (clock w)) eqn:Hf0.
    { by rewrite (bind_throw _ _ _ _ _ Hget). }
    destruct (conv w !! psid) as [st|] eqn:Hst.
    + rewrite (bind_ret _ _ _ _ _ Hget).
      destruct (dispatch_stage env pricing psid message st (set_clock S w) Hst)
        as [Hvalid Hthrow].
      destruct (decide (stage st ∈ stages)) as [Hin|Hout]; [intros _; auto|].
      destruct (db_fault env (clock (set_clock S w))) eqn:Hf1; [|intros _; auto].
      destruct (Hthrow Hout eq_refl) as [e He]. unfold outcome_of in He.
      by rewrite He.
    + destruct (db_fault env (S (clock w))) eqn:Hf1.
      { by rewrite (bind_throw _ _ _ _ _ Hget). }
      rewrite (bind_ret _ _ _ _ _ Hget). intros _.
      eapply dispatch_stage; [apply lookup_insert_eq|].
      left. decide_by_computation.
  - intros Hok. rewrite Hok in Hget.
    destruct (conv w !! psid) as [st|] eqn:Hst.
    + rewrite (bind_ret _ _ _ _ _ Hget).
      eapply dispatch_stage; [exact Hst|]. right. apply Hok.
    + rewrite Hok in Hget. rewrite (bind_ret _ _ _ _ _ Hget).
      eapply dispatch_stage; [apply lookup_insert_eq|]. right. apply Hok.
  - intros st Hst Hunknown Hok. rewrite Hok, Hst in Hget.
    assert (∀ s, s ∈ stages → String.eqb (stage st) s = false) as Hne.
    { intros s Hs. apply String.eqb_neq. intros Heq. apply Hunknown. by rewrite Heq. }
    eexists. split.
    { rewrite (bind_ret _ _ _ _ _ Hget). apply (setState_run env Hok). }
    unfold stage_of, pending_of. cbn [conv set_conv set_trace set_clock orders messages].
    rewrite lookup_insert_eq. split_and!; [done..|].
    rewrite (bind_ret _ _ _ _ _ Hget). cbn beta.
    rewrite !Hne by decide_by_computation.
    by erewrite bind_ret by apply (setState_run env Hok).
Qed.

(** A customer whose stored stage is corrupt greets: the stage is NEW
    again, the pending order reference is empty, and the welcome was sent
    and logged. *)
Lemma handleIncoming_stage_witness :
  let message := mkIncoming "hello" [] in
  let w := sample_world "QUOTE-SENT?" in
  let turn := handleIncoming sample_env PricingJs.pricing "u1" message in
  db_ok sample_env ∧
  stage_of "u1" w = Some "QUOTE-SENT?" ∧
  ("QUOTE-SENT?" ∉ stages) ∧
  outcome_of turn w = Ret tt ∧
  stage_valid "u1" (world_after turn w) ∧
  stage_of "u1" (world_after turn w) = Some "NEW" ∧
  pending_of "u1" (world_after turn w) = Some "" ∧
  sent_replies (world_after turn w) = [("u1", welcome_reply)] ∧
  logged_replies (world_after turn w) = [("u1", welcome_reply)].
Proof.
  intros message w turn.
  pose proof (handleIncoming_stage sample_env PricingJs.pricing "u1" message w)
    as (Hret & _ & _).
  split; [by intros t|]. split; [reflexivity|].
  split; [decide_by_computation|]. split; [reflexivity|].
  split; [exact (Hret eq_refl)|]. by vm_compute.
Defined.

(** ** pipeline.js: an order that has its model file *)

(** A program of the pipeline taken apart into the cases of its oracles,
    for an observation of the trace. *)
Ltac by_pipeline_cases :=
  intros w;
  unfold world_after, outcome_of, process_image_calls, handleSelfFulfillment,
    uploadAndQuote, placeOrder, getHeaders, getOrder, updateOrder, db_stmt, tick,
    emit, modify, get_world, throw, lift, mbind, M_bind, mret, M_ret;
  cbn; repeat (case_match; cbn; simplify_eq);
  cbn; rewrite ?omap_app; cbn; rewrite ?app_nil_r; try done.

Section ModelFile.

Context (env : Env).

Lemma updateOrder_calls orderId fields :
  preserves process_image_calls (updateOrder env orderId fields).
Proof. by_pipeline_cases. Qed.

Lemma uploadAndQuote_calls stlPath material :
  preserves process_image_calls (uploadAndQuote env stlPath material).
Proof. by_pipeline_cases. Qed.

Lemma placeOrder_calls quoteId name customerRef shippingId :
  preserves process_image_calls (placeOrder env quoteId name customerRef shippingId).
Proof. by_pipeline_cases. Qed.

Lemma uploadAndQuote_files stlPath material :
  preserves model_files (uploadAndQuote env stlPath material).
Proof. by_pipeline_cases. Qed.

Lemma placeOrder_files quoteId name customerRef shippingId :
  preserves model_files (placeOrder env quoteId name customerRef shippingId).
Proof. by_pipeline_cases. Qed.

(** An update that does not assign [stl_path] keeps the model file of every
    row. *)
Lemma updateOrder_files orderId (fields : Fields) :
  "stl_path" ∉ fields.*1 →
  preserves model_files (updateOrder env orderId fields).
Proof.
  intros Hkey w. unfold world_after. rewrite updateOrder_cases. cbn zeta.
  set (updates := filter _ fields).
  destruct (bool_decide (updates = [])); [done|].
  destruct (db_fault env (clock w)); [done|].
  unfold model_files. cbn. rewrite <- list_fmap_compose.
  apply list_fmap_ext. intros i row _. cbn.
  rewrite !update_row_other_column; try done.
  - intros Hin. apply Hkey.
    apply list_elem_of_fmap in Hin as (kv & -> & Hin).
    apply list_elem_of_filter in Hin as [_ Hin]. by apply list_elem_of_fmap_2.
  - intros Hin%allowed_updates_keys. revert Hin. decide_by_computation.
Qed.

End ModelFile.

(** One step of a program of the pipeline leaves the calls of the model
    generation and the model files as they were. *)
Ltac pipeline_step :=
  first
    [ apply updateOrder_calls | apply uploadAndQuote_calls | apply placeOrder_calls
    | apply uploadAndQuote_files | apply placeOrder_files
    | apply updateOrder_files; cbn; decide_by_computation
    | apply preserves_ret | apply preserves_throw | apply preserves_lift
    | apply preserves_try_catch; [|intros ?]
    | apply preserves_bind; [|intros ?]
    | case_match ].

Section SkipGeneration.

Context (env : Env) (orderId : string).

Lemma handleSelfFulfillment_calls stlPath :
  preserves process_image_calls (handleSelfFulfillment env orderId stlPath).
Proof. unfold handleSelfFulfillment. repeat pipeline_step. Qed.

Lemma handleSelfFulfillment_files stlPath :
  preserves model_files (handleSelfFulfillment env orderId stlPath).
Proof. unfold handleSelfFulfillment. repeat pipeline_step. Qed.

Lemma handleCloudFulfillment_calls order stlPath :
  preserves process_image_calls (handleCloudFulfillment env orderId order stlPath).
Proof. unfold handleCloudFulfillment. repeat pipeline_step. Qed.

Lemma handleCloudFulfillment_files order stlPath :
  preserves model_files (handleCloudFulfillment env orderId order stlPath).
Proof. unfold handleCloudFulfillment. repeat pipeline_step. Qed.

Lemma pipeline_catch_calls message :
  preserves process_image_calls (pipeline_catch env orderId message).
Proof. unfold pipeline_catch. repeat pipeline_step. Qed.

Lemma pipeline_catch_files message :
  preserves model_files (pipeline_catch env orderId message).
Proof. unfold pipeline_catch. repeat pipeline_step. Qed.

Lemma getOrder_cases w :
  getOrder env orderId w =
    if db_fault env (clock w) then (Throw "SqliteError", set_clock S w)
    else (Ret (select_order orderId w), set_clock S w).
Proof.
  unfold getOrder, db_stmt, tick, get_world, mbind, M_bind. cbn.
  by destruct (db_fault env (clock w)).
Qed.

(** With a model file on the order the [try] block goes from the read of
    the order to the fulfilment. *)
Lemma pipeline_try_with_model_file w (order : Row) p :
  db_fault env (clock w) = false →
  select_order orderId w = Some order →
  order !! "stl_path" = Some (VStr p) → p ≠ "" →
  pipeline_try env orderId w =
    match or_default (order !! "fulfillment_type") (VStr "") with
    | VStr ft =>
        if String.eqb (JS.toUpperCase ft) "CLOUD"
        then handleCloudFulfillment env orderId order (VStr p)
        else handleSelfFulfillment env orderId (VStr p)
    | _ => throw "TypeError: toUpperCase is not a function"
    end (set_clock S w).
Proof.
  intros Hf Horder Hstl Hp. unfold pipeline_try.
  pose proof (getOrder_cases w) as Hget. rewrite Hf, Horder in Hget.
  rewrite (bind_ret _ _ _ _ _ Hget). rewrite Hstl.
  assert (or_default (Some (VStr p)) (VStr "") = VStr p) as ->.
  { unfold or_default. cbn. by destruct p. }
  assert (truthy (Some (VStr p)) = true) as -> by (by destruct p).
  cbn [negb]. by erewrite bind_ret by reflexivity.
Qed.

Lemma try_catch_preserves_at {A B} (obs : World → B) (m : M A) h w :
  obs (world_after m w) = obs w →
  (∀ e, preserves obs (h e)) →
  obs (world_after (try_catch m h) w) = obs w.
Proof.
  intros Hm Hh. unfold world_after, try_catch in *.
  destruct (m w) as [[a|e] w1]; cbn in *; [done|].
  by rewrite <- Hm, <- (Hh e w1).
Qed.

(** The fulfilment of an order, by the vendor or by the operator. *)
Lemma fulfilment_calls (order : Row) stlPath :
  preserves process_image_calls
    match or_default (order !! "fulfillment_type") (VStr "") with
    | VStr ft =>
        if String.eqb (JS.toUpperCase ft) "CLOUD"
        then handleCloudFulfillment env orderId order stlPath
        else handleSelfFulfillment env orderId stlPath
    | _ => throw "TypeError: toUpperCase is not a function"
    end.
Proof.
  repeat case_match;
    auto using handleCloudFulfillment_calls, handleSelfFulfillment_calls, preserves_throw.
Qed.

Lemma fulfilment_files (order : Row) stlPath :
  preserves model_files
    match or_default (order !! "fulfillment_type") (VStr "") with
    | VStr ft =>
        if String.eqb (JS.toUpperCase ft) "CLOUD"
        then handleCloudFulfillment env orderId order stlPath
        else handleSelfFulfillment env orderId stlPath
    | _ => throw "TypeError: toUpperCase is not a function"
    end.
Proof.
  repeat case_match;
    auto using handleCloudFulfillment_files, handleSelfFulfillment_files, preserves_throw.
Qed.

Lemma runOrderPipeline_with_model_file w (order : Row) p :
  select_order orderId w = Some order →
  order !! "stl_path" = Some (VStr p) → p ≠ "" →
  process_image_calls (world_after (runOrderPipeline env orderId) w)
    = process_image_calls w ∧
  model_files (world_after (runOrderPipeline env orderId) w) = model_files w.
Proof.
  intros Horder Hstl Hp. unfold runOrderPipeline.
  destruct (db_fault env (clock w)) eqn:Hf.
  - assert (pipeline_try env orderId w = (Throw "SqliteError", set_clock S w)) as Htry.
    { unfold pipeline_try. apply bind_throw. by rewrite getOrder_cases, Hf. }
    split; (apply try_catch_preserves_at;
            [unfold world_after; by rewrite Htry
            |first [apply pipeline_catch_calls|apply pipeline_catch_files]]).
  - split; (apply try_catch_preserves_at;
            [unfold world_after;
             rewrite (pipeline_try_with_model_file w order p) by done
            |first [apply pipeline_catch_calls|apply pipeline_catch_files]]).
    + apply (fulfilment_calls order (VStr p) (set_clock S w)).
    + apply (fulfilment_files order (VStr p) (set_clock S w)).
Qed.

End SkipGeneration.

Lemma select_order_model_file orderId w w' (order : Row) (v : value) :
  model_files w' = model_files w →
  select_order orderId w = Some order →
  order !! "stl_path" = Some v →
  ∃ order' : Row,
    select_order orderId w' = Some order' ∧ order' !! "stl_path" = Some v.
Proof.
  unfold model_files, select_order. generalize (orders w'). generalize (orders w).
  induction l as [|row l IH]; intros [|row' l'] Heq Hfind Hstl; try done.
  cbn in Heq. injection Heq as Hid Hfile Hrest. cbn in *.
  unfold has_order_id in *. rewrite Hid.
  destruct (bool_decide (row !! "order_id" = Some (VStr orderId))).
  - injection Hfind as <-. exists row'. split; [done|]. by rewrite Hfile.
  - by apply (IH l').
Qed.

(** C2.  On an order that has a model file, a run of the pipeline calls
    the model generation not once, whatever the oracles answer, and
    leaves the model file of the order as it is; so do two runs in a row:
    after the second one the calls of the model generation are those from
    before the first, and the order still has its model file. *)
Theorem pipeline_skips_generation env orderId w (order : Row) p :
  select_order orderId w = Some order →
  order !! "stl_path" = Some (VStr p) →
  p ≠ "" →
  let w1 := world_after (runOrderPipeline env orderId) w in
  let w2 := world_after (runOrderPipeline env orderId) w1 in
  process_image_calls w1 = process_image_calls w ∧
  order_column orderId "stl_path" w1 = Some (VStr p) ∧
  process_image_calls w2 = process_image_calls w ∧
  length (process_image_calls w2) ≤ length (process_image_calls w) + 1 ∧
  order_column orderId "stl_path" w2 = order_column orderId "stl_path" w1.
Proof.
  intros Horder Hstl Hp w1 w2.
  destruct (runOrderPipeline_with_model_file env orderId w order p Horder Hstl Hp)
    as [Hcalls1 Hfiles1]. fold w1 in Hcalls1, Hfiles1.
  destruct (select_order_model_file orderId w w1 order (VStr p) Hfiles1 Horder Hstl)
    as (order1 & Horder1 & Hstl1).
  destruct (runOrderPipeline_with_model_file env orderId w1 order1 p Horder1 Hstl1 Hp)
    as [Hcalls2 Hfiles2]. fold w2 in Hcalls2, Hfiles2.
  destruct (select_order_model_file orderId w1 w2 order1 (VStr p) Hfiles2 Horder1 Hstl1)
    as (order2 & Horder2 & Hstl2).
  assert (order_column orderId "stl_path" w1 = Some (VStr p)) as Hcol1.
  { unfold order_column. by rewrite Horder1. }
  assert (order_column orderId "stl_path" w2 = Some (VStr p)) as Hcol2.
  { unfold order_column. by rewrite Horder2. }
  split_and!; [done|done|congruence| |congruence].
  rewrite Hcalls2, Hcalls1. lia.
Qed.

(** The sample order with its model file, run twice for the operator. *)
Lemma pipeline_skips_generation_witness :
  let w := sample_confirmed_world "SELF" "/srv/formfit/uploads/1714557700000.stl" in
  let w1 := world_after (runOrderPipeline sample_env "FFC-12345") w in
  let w2 := world_after (runOrderPipeline sample_env "FFC-12345") w1 in
  order_column "FFC-12345" "stl_path" w
    = Some (VStr "/srv/formfit/uploads/1714557700000.stl") ∧
  process_image_calls w1 = process_image_calls w ∧
  order_column "FFC-12345" "stl_path" w1
    = Some (VStr "/srv/formfit/uploads/1714557700000.stl") ∧
  process_image_calls w2 = process_image_calls w ∧
  length (process_image_calls w2) ≤ length (process_image_calls w) + 1 ∧
  order_column "FFC-12345" "stl_path" w2 = order_column "FFC-12345" "stl_path" w1.
Proof.
  intros w w1 w2. split; [reflexivity|].
  refine (pipeline_skips_generation sample_env "FFC-12345" w _
            "/srv/formfit/uploads/1714557700000.stl" eq_refl eq_refl _).
  discriminate.
Defined.

(** Without a model file the first run generates it and the second run
    finds it: one call of the model generation in two runs. *)
Lemma two_runs_generate_once :
  let w := sample_confirmed_world "SELF" "" in
  let w1 := world_after (runOrderPipeline sample_env "FFC-12345") w in
  let w2 := world_after (runOrderPipeline sample_env "FFC-12345") w1 in
  process_image_calls w = [] ∧
  process_image_calls w1
    = [(VStr "uploads/u1_1714557000000.jpg", "/srv/formfit/uploads")] ∧
  process_image_calls w2 = process_image_calls w1 ∧
  order_column "FFC-12345" "stl_path" w2 = order_column "FFC-12345" "stl_path" w1.
Proof. by vm_compute. Qed.

(** ** pipeline.js: failures *)

Section Failures.

Context (env : Env) (orderId : string).

Lemma pipeline_catch_cases message w1 :
  pipeline_catch env orderId message w1 =
    (Ret (failure_result orderId message),
     if db_fault env (clock w1) then set_clock S w1
     else set_trace (λ t, t ++ [EvUpdateOrder orderId [("status", VStr "error")]])
            (set_orders (map (update_row orderId [("status", VStr "error")]
                                (now env (clock w1))))
               (set_clock S w1))).
Proof.
  unfold pipeline_catch, try_catch, mbind, M_bind. rewrite updateOrder_cases. cbn zeta.
  rewrite filter_allowed_all by allowed_fields.
  rewrite bool_decide_false by done.
  by destruct (db_fault env (clock w1)).
Qed.

Lemma runOrderPipeline_of_throw w message w1 :
  pipeline_try env orderId w = (Throw message, w1) →
  runOrderPipeline env orderId w =
    (Ret (failure_result orderId message), world_after (pipeline_catch env orderId message) w1).
Proof.
  intros Htry. unfold runOrderPipeline. rewrite (try_catch_throw _ _ _ _ _ Htry).
  unfold world_after. by rewrite pipeline_catch_cases.
Qed.




End Failures.

Section Scenarios.

Context (env : Env) (orderId : string) (w : World).
Context (Hread : db_fault env (clock w) = false).


Lemma pipeline_try_no_photo (order : Row) :
  select_order orderId w = Some order →
  truthy (order !! "stl_path") = false →
  truthy (order !! "photo_path") = false →
  pipeline_try env orderId w
  = (Throw "Order has no photo — cannot generate STL", set_clock S w).
Proof.
  intros Horder Hstl Hphoto. unfold pipeline_try.
  pose proof (getOrder_cases env orderId w) as Hget. rewrite Hread, Horder in Hget.
  rewrite (bind_ret _ _ _ _ _ Hget). unfold or_default. rewrite Hstl, Hphoto.
  done.
Qed.




End Scenarios.



(** ** pipeline.js: the vendor's quote and the vendor's order *)

(** A column of an order after an update of that order. *)
Lemma order_column_updated orderId (updates : Fields) stamp w w' (row : Row) col :
  select_order orderId w = Some row →
  orders w' = map (update_row orderId updates stamp) (orders w) →
  "order_id" ∉ updates.*1 → col ≠ "updated_at" →
  select_order orderId w' = Some (update_row orderId updates stamp row) ∧
  order_column orderId col w' = apply_assignments updates row !! col.
Proof.
  intros Hrow Horders Hkey Hcol. unfold order_column, select_order.
  rewrite Horders, select_order_update by done.
  fold (select_order orderId w). rewrite Hrow. cbn. split; [done|].
  unfold update_row. rewrite (select_order_has_id _ _ _ Hrow).
  by rewrite lookup_insert_ne.
Qed.

Section Cloud.

Context (env : Env) (Hok : db_ok env) (Hkey : JS.nonempty (api_key env) = true).
Context (orderId : string).

Lemma uploadAndQuote_run p material w quoteData :
  vendor_quote env (clock w) = Ret quoteData →
  uploadAndQuote env (VStr p) material w
  = (Ret (select_quotes quoteData),
     set_clock S (set_trace (λ t, t ++ [EvUploadAndQuote (VStr p) material]) w)).
Proof.
  intros Hquote.
  unfold uploadAndQuote, getHeaders, emit, modify, tick, lift, mbind, M_bind.
  rewrite Hkey. cbn. by rewrite Hquote.
Qed.

Lemma placeOrder_run quoteId' name customerRef shippingId' w :
  truthy (Some name) = true →
  ∃ w',
    placeOrder env quoteId' name customerRef shippingId' w
    = (placement env name (clock w), w') ∧
    trace w' = trace w ++ [EvPlaceOrder quoteId' name customerRef shippingId'] ∧
    orders w' = orders w ∧
    (∀ vendorOrder, placement env name (clock w) = Ret vendorOrder →
                    clock w' = 2 + clock w).
Proof.
  intros Hname.
  unfold placeOrder, placement, getHeaders, emit, modify, tick, lift, throw, mbind, M_bind.
  rewrite Hkey. cbn.
  destruct (vendor_cart env (clock w)) as [cartId|e]; cbn; [|by eexists].
  destruct (JS.nonempty cartId); cbn; [|by eexists].
  unfold or_default. rewrite Hname. cbn.
  destruct name as [|q|s]; [discriminate Hname| |]; cbn; by eexists.
Qed.

End Cloud.

Lemma or_default_truthy (v : option value) (d : value) :
  truthy (Some d) = true → truthy (Some (or_default v d)) = true.
Proof.
  intros Hd. unfold or_default. destruct (truthy v) eqn:Hv; [|done].
  by destruct v.
Qed.

(** The same order through [runOrderPipeline], on the day the vendor takes
    no order and on the day it does. *)
Lemma runOrderPipeline_cloud_sample :
  let stl := "/srv/formfit/uploads/1714557700000.stl" in
  let w := sample_confirmed_world "CLOUD" stl in
  let summary := Some (mkQuoteSummary "q-b" 25 "vendor-b" (Some 5%N)) in
  outcome_of (runOrderPipeline sample_env_no_placement "FFC-12345") w
  = Ret (mkPipelineResult true "FFC-12345" (VStr stl) summary None) ∧
  order_column "FFC-12345" "status"
    (world_after (runOrderPipeline sample_env_no_placement "FFC-12345") w)
  = Some (VStr "confirmed") ∧
  outcome_of (runOrderPipeline sample_env "FFC-12345") w
  = Ret (mkPipelineResult true "FFC-12345" (VStr stl) summary None) ∧
  order_column "FFC-12345" "status"
    (world_after (runOrderPipeline sample_env "FFC-12345") w)
  = Some (VStr "in-progress").
Proof. by vm_compute. Qed.

(** ** The scenarios of the specification, on the sample day *)

(** A first photo from an unknown customer: an order with status new, the
    stage PHOTO_RECEIVED, and the request for the details sent and
    logged. *)
Example scenario_first_photo :
  let message := mkIncoming "" [ mkAttachment "image" (Some "https://cdn.example/p.jpg") ] in
  let turn := handleIncoming sample_env PricingJs.pricing "u9" message in
  let w' := world_after turn (mkWorld [] [] ∅ [] 0) in
  outcome_of turn (mkWorld [] [] ∅ [] 0) = Ret tt ∧
  stage_of "u9" w' = Some "PHOTO_RECEIVED" ∧
  pending_of "u9" w' = Some "FFC-12348" ∧
  order_column "FFC-12348" "status" w' = Some (VStr "new") ∧
  order_column "FFC-12348" "psid" w' = Some (VStr "u9") ∧
  sent_replies w' = [("u9", photo_reply)] ∧
  logged_replies w' = [("u9", photo_reply)].
Proof. intros message turn w'. split_and!; vm_compute; reflexivity. Qed.

(** At stage DETAILS_RECEIVED, "I'll do cloud printing": the fulfilment is
    CLOUD, the quote is on the order, the stage is QUOTE_SENT, and the
    proposal, sent and logged, has its total. *)
Example scenario_cloud_printing :
  let turn := handleIncoming sample_env PricingJs.pricing "u1"
                (mkIncoming "I'll do cloud printing" []) in
  let w' := world_after turn (sample_world "DETAILS_RECEIVED") in
  outcome_of turn (sample_world "DETAILS_RECEIVED") = Ret tt ∧
  order_column "FFC-12345" "fulfillment_type" w' = Some (VStr "CLOUD") ∧
  order_column "FFC-12345" "total" w' = Some (VNum 55) ∧
  stage_of "u1" w' = Some "QUOTE_SENT" ∧
  ((λ reply, JS.includes reply.2 "Total:") <$> sent_replies w') = [true] ∧
  logged_replies w' = sent_replies w'.
Proof. intros turn w'. split_and!; vm_compute; reflexivity. Qed.

(** The operator's order with a photo and no model file, on the day the
    browser automation times out: two attempts, three seconds apart, then
    the status error. *)
Example scenario_generation_fails_twice :
  let run := runOrderPipeline sample_env_no_tooltrace "FFC-12345" in
  let w := sample_confirmed_world "SELF" "" in
  success <$> (match outcome_of run w with Ret res => Some res | Throw _ => None end)
    = Some false ∧
  trace (world_after run w)
  = [ EvProcessImage (VStr "uploads/u1_1714557000000.jpg") "/srv/formfit/uploads";
      EvRunToolTrace 1; EvSleep 3000; EvRunToolTrace 2;
      EvUpdateOrder "FFC-12345" [("status", VStr "error")] ].
Proof. split; vm_compute; reflexivity. Qed.

(** * Further properties of the code *)

(** ** db.js: what is written is what is read *)

Lemma find_existsb_false {A} (f : A → bool) (l : list A) :
  existsb f l = false → find f l = None.
Proof.
  induction l as [|x l IH]; [done|]. cbn.
  destruct (f x); [done|]. apply IH.
Qed.

Lemma find_snoc {A} (f : A → bool) (l : list A) (x : A) :
  find f (l ++ [x]) =
    match find f l with
    | Some y => Some y
    | None => if f x then Some x else None
    end.
Proof.
  induction l as [|y l IH]; cbn; [done|]. by destruct (f y).
Qed.

Lemma createOrder_cases env psid photoPath w :
  let orderId := drawn_order_id env (clock w) in
  createOrder env psid photoPath w =
    if db_fault env (S (clock w))
    then (Throw "SqliteError", set_clock S (set_clock S w))
    else if existsb (has_order_id orderId) (orders w)
    then (Throw "UNIQUE constraint failed: orders.order_id",
          set_clock S (set_clock S w))
    else (Ret orderId,
          set_trace (λ t, t ++ [EvInsertOrder orderId psid photoPath])
            (set_orders
               (λ os, os ++ [new_order orderId psid photoPath (now env (S (clock w)))])
               (set_clock S (set_clock S w)))).
Proof.
  intros orderId. subst orderId.
  unfold createOrder, generateOrderId, drawn_order_id, db_stmt, tick, get_world, throw,
    emit, modify, mbind, M_bind, mret, M_ret.
  cbn. destruct (db_fault env (S (clock w))); cbn; [done|].
  by destruct (existsb _ (orders w)).
Qed.

Lemma new_order_columns orderId psid photoPath created :
  let row := new_order orderId psid photoPath created in
  row !! "order_id" = Some (VStr orderId) ∧ row !! "psid" = Some (VStr psid) ∧
  row !! "photo_path" = Some (VStr photoPath) ∧ row !! "status" = Some (VStr "new") ∧
  row !! "stl_path" = Some (VStr "") ∧ row !! "fulfillment_type" = Some (VStr "") ∧
  row !! "created_at" = Some (VStr created).
Proof. split_and!; by vm_compute. Qed.

(** X1.  An order that [createOrder] has created is found by [getOrder]
    under the id returned: it belongs to the customer, holds the photo
    path, is new and has neither model file nor fulfilment type.  The id
    was free before, every order found before is found as it was, and the
    messages and the conversation states are left alone. *)
Theorem createOrder_then_getOrder env psid photoPath w orderId w1 :
  createOrder env psid photoPath w = (Ret orderId, w1) →
  db_fault env (clock w1) = false →
  select_order orderId w = None ∧
  (∃ row : Row,
     outcome_of (getOrder env orderId) w1 = Ret (Some row) ∧
     row !! "order_id" = Some (VStr orderId) ∧ row !! "psid" = Some (VStr psid) ∧
     row !! "photo_path" = Some (VStr photoPath) ∧
     row !! "status" = Some (VStr "new") ∧
     row !! "stl_path" = Some (VStr "") ∧
     row !! "fulfillment_type" = Some (VStr "")) ∧
  (∀ orderId' (row : Row),
     select_order orderId' w = Some row →
     outcome_of (getOrder env orderId') w1 = Ret (Some row)) ∧
  messages w1 = messages w ∧ conv w1 = conv w.
Proof.
  intros Hrun Hread. rewrite createOrder_cases in Hrun. cbn zeta in Hrun.
  destruct (db_fault env (S (clock w))); [done|].
  destruct (existsb _ (orders w)) eqn:Hfree; [done|].
  injection Hrun as <- <-.
  set (orderId := drawn_order_id env (clock w)) in *.
  apply find_existsb_false in Hfree. fold (select_order orderId w) in Hfree.
  pose proof (new_order_columns orderId psid photoPath (now env (S (clock w))))
    as (Hid & Hpsid & Hphoto & Hstatus & Hstl & Hft & _).
  split_and!; [done| | |done..].
  - eexists. unfold outcome_of. rewrite getOrder_cases, Hread. cbn [fst].
    unfold select_order. cbn [orders set_trace set_orders set_clock].
    rewrite find_snoc. fold (select_order orderId w). rewrite Hfree.
    unfold has_order_id at 1. rewrite bool_decide_true by done.
    by split_and!.
  - intros orderId' row Hrow. unfold outcome_of. rewrite getOrder_cases, Hread.
    cbn [fst]. unfold select_order. cbn [orders set_trace set_orders set_clock].
    rewrite find_snoc. fold (select_order orderId' w). by rewrite Hrow.
Qed.

(** The first photo of a second customer on the sample day. *)
Lemma createOrder_then_getOrder_witness :
  let w := set_clock (λ _, 1) (sample_world "NEW") in
  let w1 := world_after (createOrder sample_env "u2" "uploads/u2_1.jpg") w in
  select_order "FFC-12346" w = None ∧
  outcome_of (getOrder sample_env "FFC-12345") w1 = Ret (Some sample_order) ∧
  order_column "FFC-12346" "psid" w1 = Some (VStr "u2") ∧
  order_column "FFC-12346" "status" w1 = Some (VStr "new").
Proof.
  intros w w1.
  pose proof (createOrder_then_getOrder sample_env "u2" "uploads/u2_1.jpg" w
                "FFC-12346" w1 eq_refl eq_refl)
    as (Hfree & _ & Hold & _).
  split; [exact Hfree|]. split; [exact (Hold "FFC-12345" sample_order eq_refl)|].
  split; reflexivity.
Defined.

(** ** db.js: the order ids stay unique *)

Section MoreStructural.

Context (I : World → Prop).

Lemma maintains_try_catch {A} (m : M A) h :
  maintains I m → (∀ e, maintains I (h e)) → maintains I (try_catch m h).
Proof.
  intros Hm Hh w Hw. specialize (Hm w Hw). unfold world_after, try_catch in *.
  destruct (m w) as [[a|e] w1]; cbn in *; [done|]. by apply (Hh e w1).
Qed.

Lemma maintains_for_each {A} (f : A → M unit) (l : list A) :
  (∀ x, maintains I (f x)) → maintains I (for_each f l).
Proof.
  intros Hf. induction l as [|x l IH]; cbn [for_each]; [apply maintains_ret|].
  apply maintains_bind; [apply Hf|by intros _].
Qed.

End MoreStructural.

(** An update changes the rows by [update_row] only: what [update_row]
    keeps of a row, an update keeps of all the rows. *)
Lemma updateOrder_rows {B} env orderId (fields : Fields) (f : Row → B) :
  (∀ updates stamp row,
     (∀ col, col ∈ updates.*1 → col ∈ allowed) →
     f (update_row orderId updates stamp row) = f row) →
  preserves (λ w, f <$> orders w) (updateOrder env orderId fields).
Proof.
  intros Hf w. unfold world_after. rewrite updateOrder_cases. cbn zeta.
  destruct (bool_decide _); [done|]. destruct (db_fault env (clock w)); [done|].
  cbn. rewrite <- list_fmap_compose. apply list_fmap_ext. intros i row _. cbn.
  apply Hf. intros col. apply allowed_updates_keys.
Qed.

Lemma updateOrder_order_keys env orderId (fields : Fields) :
  preserves order_keys (updateOrder env orderId fields).
Proof.
  apply (updateOrder_rows env orderId fields (λ row, (row !! "order_id", row !! "psid"))).
  intros updates stamp row Hkeys.
  rewrite !update_row_other_column; try done;
    intros Hin%Hkeys; revert Hin; decide_by_computation.
Qed.

Lemma order_ids_keys w : order_ids w = (order_keys w).*1.
Proof. unfold order_ids, order_keys. by rewrite <- list_fmap_compose. Qed.

Lemma updateOrder_order_ids env orderId (fields : Fields) :
  preserves order_ids (updateOrder env orderId fields).
Proof.
  intros w. rewrite !order_ids_keys. by rewrite updateOrder_order_keys.
Qed.

Lemma free_order_id orderId (os : list Row) :
  existsb (has_order_id orderId) os = false →
  Some (VStr orderId) ∉ (λ row : Row, row !! "order_id") <$> os.
Proof.
  induction os as [|row os IH]; cbn; [intros _; apply not_elem_of_nil|].
  intros [Hrow Hos]%orb_false_elim. rewrite not_elem_of_cons. split; [|by apply IH].
  unfold has_order_id in Hrow. by apply bool_decide_eq_false in Hrow.
Qed.

Lemma createOrder_unique env psid photoPath :
  maintains unique_order_ids (createOrder env psid photoPath).
Proof.
  intros w Hw. unfold world_after. rewrite createOrder_cases. cbn zeta.
  destruct (db_fault env (S (clock w))); [done|].
  destruct (existsb _ (orders w)) eqn:Hfree; [done|].
  set (orderId := drawn_order_id env (clock w)) in *.
  set (row := new_order orderId psid photoPath _).
  assert (row !! "order_id" = Some (VStr orderId)) as Hid
    by apply new_order_columns.
  clearbody row. unfold unique_order_ids, order_ids. cbn. rewrite fmap_app. cbn.
  apply NoDup_app. split; [done|]. split; [|apply NoDup_singleton].
  intros x Hx ->%list_elem_of_singleton. revert Hx. rewrite Hid.
  by apply free_order_id.
Qed.

Section OrderIds.

Context (env : Env).

Lemma getOrder_order_ids orderId : preserves order_ids (getOrder env orderId).
Proof. by_oracle_cases. Qed.

Lemma saveMessage_order_ids psid direction text :
  preserves order_ids (saveMessage env psid direction text).
Proof. by_oracle_cases. Qed.

Lemma sendText_order_ids psid text : preserves order_ids (sendText env psid text).
Proof. by_oracle_cases. Qed.

Lemma downloadAttachment_order_ids url psid :
  preserves order_ids (downloadAttachment env url psid).
Proof. by_oracle_cases. Qed.

Lemma getState_order_ids psid : preserves order_ids (getState env psid).
Proof. by_oracle_cases. Qed.

Lemma setState_order_ids psid stg pendingOrderId :
  preserves order_ids (setState env psid stg pendingOrderId).
Proof. by_oracle_cases. Qed.

End OrderIds.

Lemma unique_frame {A} (m : M A) :
  preserves order_ids m → maintains unique_order_ids m.
Proof. apply preserves_maintains. intros w w'. unfold unique_order_ids. by intros ->. Qed.

(** One step of a turn keeps the order ids unique. *)
Ltac unique_step :=
  lazymatch goal with
  | |- maintains _ (createOrder _ _ _) => apply createOrder_unique
  | |- maintains _ (getOrder _ _) => apply unique_frame, getOrder_order_ids
  | |- maintains _ (updateOrder _ _ _) => apply unique_frame, updateOrder_order_ids
  | |- maintains _ (saveMessage _ _ _ _) => apply unique_frame, saveMessage_order_ids
  | |- maintains _ (sendText _ _ _) => apply unique_frame, sendText_order_ids
  | |- maintains _ (downloadAttachment _ _ _) =>
      apply unique_frame, downloadAttachment_order_ids
  | |- maintains _ (getState _ _) => apply unique_frame, getState_order_ids
  | |- maintains _ (setState _ _ _ _) => apply unique_frame, setState_order_ids
  | |- maintains _ (mret _) => apply maintains_ret
  | |- maintains _ (throw _) => apply maintains_throw
  | |- maintains _ (lift _) => apply maintains_lift
  | |- maintains _ (try_catch _ _) => apply maintains_try_catch; [|intros ?]
  | |- maintains _ (mbind _ _) => apply maintains_bind; [|intros ?]
  | |- maintains _ (for_each _ _) => apply maintains_for_each; intros ?
  | |- maintains _ _ => case_match
  end.

Lemma handleIncoming_unique env pricing psid message :
  maintains unique_order_ids (handleIncoming env pricing psid message).
Proof.
  unfold handleIncoming, handleNew, handlePhotoReceived, handleDetailsReceived,
    handleQuoteSent, handleConfirmed, processPhoto.
  repeat unique_step.
Qed.

(** ** What the pipeline and the routes leave alone *)

Lemma emit_quiet (e : Event) : sent_reply e = None → preserves quiet_view (emit e).
Proof.
  intros He w. unfold world_after, emit, modify, quiet_view, sent_replies. cbn.
  by rewrite omap_app; cbn; rewrite He, app_nil_r.
Qed.

Lemma tick_quiet : preserves quiet_view tick.
Proof. done. Qed.

Lemma get_world_quiet : preserves quiet_view get_world.
Proof. done. Qed.

(** One step of a program that only asks the outside world. *)
Ltac quiet_step :=
  lazymatch goal with
  | |- preserves _ (emit _) => apply emit_quiet; reflexivity
  | |- preserves _ tick => apply tick_quiet
  | |- preserves _ get_world => apply get_world_quiet
  | |- preserves _ (mret _) => apply preserves_ret
  | |- preserves _ (throw _) => apply preserves_throw
  | |- preserves _ (lift _) => apply preserves_lift
  | |- preserves _ (try_catch _ _) => apply preserves_try_catch; [|intros ?]
  | |- preserves _ (mbind _ _) => apply preserves_bind; [|intros ?]
  | |- preserves _ _ => case_match
  end.

Section Quiet.

Context (env : Env).

Lemma db_stmt_quiet : preserves quiet_view (db_stmt env).
Proof. unfold db_stmt. repeat quiet_step. Qed.

Lemma getOrder_quiet orderId : preserves quiet_view (getOrder env orderId).
Proof.
  unfold getOrder. apply preserves_bind; [apply db_stmt_quiet|intros _].
  repeat quiet_step.
Qed.

Lemma tooltrace_attempts_quiet remaining attempt lastError absOutputDir :
  preserves quiet_view (tooltrace_attempts env remaining attempt lastError absOutputDir).
Proof.
  revert attempt lastError.
  induction remaining as [|remaining IH]; intros attempt lastError;
    cbn [tooltrace_attempts]; [apply preserves_ret|].
  apply preserves_bind; [quiet_step|intros _].
  apply preserves_bind; [quiet_step|intros t].
  destruct (tooltrace_run env t); [apply preserves_ret|].
  apply preserves_bind; [|intros _; apply IH]. repeat quiet_step.
Qed.

Lemma processImage_quiet imagePath outputDir :
  preserves quiet_view (processImage env imagePath outputDir).
Proof.
  unfold processImage. apply preserves_bind; [quiet_step|intros _].
  destruct imagePath; try apply preserves_throw.
  apply preserves_bind; [quiet_step|intros t].
  destruct (negb (fs_exists env t)); [apply preserves_ret|].
  apply preserves_bind; [quiet_step|intros t'].
  apply preserves_bind; [|intros _; apply tooltrace_attempts_quiet].
  repeat quiet_step.
Qed.

Lemma uploadAndQuote_quiet stlPath material :
  preserves quiet_view (uploadAndQuote env stlPath material).
Proof. unfold uploadAndQuote, getHeaders. repeat quiet_step. Qed.

Lemma placeOrder_quiet quoteId name customerRef shippingId :
  preserves quiet_view (placeOrder env quoteId name customerRef shippingId).
Proof. unfold placeOrder, getHeaders. repeat quiet_step. Qed.

End Quiet.

Lemma pipeline_frame_quiet {A} orderId (m : M A) :
  preserves quiet_view m → preserves (pipeline_frame orderId) m.
Proof.
  intros Hm w. specialize (Hm w). unfold quiet_view in Hm.
  injection Hm as Horders Hmessages Hconv Hsent.
  unfold pipeline_frame, order_keys, other_rows.
  by rewrite Horders, Hmessages, Hconv, Hsent.
Qed.

Lemma has_order_id_updated orderId' orderId (updates : Fields) stamp (row : Row) :
  (∀ col, col ∈ updates.*1 → col ∈ allowed) →
  has_order_id orderId' (update_row orderId updates stamp row)
  = has_order_id orderId' row.
Proof.
  intros Hkeys. apply has_order_id_update_row.
  intros Hin%Hkeys. revert Hin. decide_by_computation.
Qed.

Lemma updateOrder_other_rows env orderId (fields : Fields) :
  preserves (other_rows orderId) (updateOrder env orderId fields).
Proof.
  apply (updateOrder_rows env orderId fields
           (λ row, if has_order_id orderId row then None else Some row)).
  intros updates stamp row Hkeys. rewrite has_order_id_updated by done.
  destruct (has_order_id orderId row) eqn:Hrow; [done|].
  unfold update_row. by rewrite Hrow.
Qed.

Lemma updateOrder_sent env orderId (fields : Fields) :
  preserves (λ w, (messages w, conv w, sent_replies w)) (updateOrder env orderId fields).
Proof.
  intros w. unfold world_after. rewrite updateOrder_cases. cbn zeta.
  destruct (bool_decide _); [done|]. destruct (db_fault env (clock w)); [done|].
  unfold sent_replies. cbn. by rewrite omap_app; cbn; rewrite app_nil_r.
Qed.

Lemma updateOrder_pipeline_frame env orderId (fields : Fields) :
  preserves (pipeline_frame orderId) (updateOrder env orderId fields).
Proof.
  intros w. unfold pipeline_frame.
  pose proof (updateOrder_sent env orderId fields w) as [= -> -> ->].
  by rewrite updateOrder_order_keys, updateOrder_other_rows.
Qed.

(** One step of the pipeline for the order [orderId]. *)
Ltac frame_step :=
  lazymatch goal with
  | |- preserves _ (updateOrder _ _ _) => apply updateOrder_pipeline_frame
  | |- preserves _ (getOrder _ _) => apply pipeline_frame_quiet, getOrder_quiet
  | |- preserves _ (processImage _ _ _) => apply pipeline_frame_quiet, processImage_quiet
  | |- preserves _ (uploadAndQuote _ _ _) =>
      apply pipeline_frame_quiet, uploadAndQuote_quiet
  | |- preserves _ (placeOrder _ _ _ _ _) => apply pipeline_frame_quiet, placeOrder_quiet
  | |- preserves _ (mret _) => apply preserves_ret
  | |- preserves _ (throw _) => apply preserves_throw
  | |- preserves _ (lift _) => apply preserves_lift
  | |- preserves _ (try_catch _ _) => apply preserves_try_catch; [|intros ?]
  | |- preserves _ (mbind _ _) => apply preserves_bind; [|intros ?]
  | |- preserves _ _ => case_match
  end.

Lemma runOrderPipeline_pipeline_frame env orderId :
  preserves (pipeline_frame orderId) (runOrderPipeline env orderId).
Proof.
  unfold runOrderPipeline, pipeline_try, pipeline_catch, handleCloudFulfillment,
    handleSelfFulfillment.
  repeat frame_step.
Qed.

Lemma other_rows_lookup orderId w w' i (row : Row) :
  other_rows orderId w' = other_rows orderId w →
  orders w !! i = Some row → row !! "order_id" ≠ Some (VStr orderId) →
  orders w' !! i = Some row.
Proof.
  intros Hrows Hrow Hid.
  assert (other_rows orderId w !! i = Some (Some row)) as Hi.
  { unfold other_rows. rewrite list_lookup_fmap, Hrow. cbn.
    unfold has_order_id. by rewrite bool_decide_false. }
  rewrite <- Hrows in Hi. unfold other_rows in Hi.
  rewrite list_lookup_fmap in Hi.
  destruct (orders w' !! i) as [row'|]; [|done]. cbn in Hi.
  destruct (has_order_id orderId row'); [done|]. by injection Hi as ->.
Qed.

(** X2.  A run of the pipeline for an order, whatever the oracles answer,
    leaves the messages, the conversation states and the replies sent as
    they were, creates no order and removes none, keeps the id and the
    customer of every row, and keeps the rows of the other orders as they
    are. *)
Theorem runOrderPipeline_frame env orderId w :
  let w' := world_after (runOrderPipeline env orderId) w in
  messages w' = messages w ∧ conv w' = conv w ∧
  sent_replies w' = sent_replies w ∧
  length (orders w') = length (orders w) ∧
  order_keys w' = order_keys w ∧
  (∀ i (row : Row), orders w !! i = Some row →
     row !! "order_id" ≠ Some (VStr orderId) → orders w' !! i = Some row).
Proof.
  intros w'. pose proof (runOrderPipeline_pipeline_frame env orderId w) as Hframe.
  fold w' in Hframe. unfold pipeline_frame in Hframe.
  injection Hframe as Hmessages Hconv Hsent Hkeys Hrows.
  split_and!; [done..| |done|].
  - apply (f_equal length) in Hkeys. unfold order_keys in Hkeys.
    by rewrite !length_fmap in Hkeys.
  - intros i row. by apply other_rows_lookup.
Qed.

(** ** conversation.js: a turn concerns one customer *)

Section Relates.

Context (R : World → World → Prop) `{!PreOrder R}.

Lemma relates_ret {A} (a : A) : relates R (mret a).
Proof. intros w. reflexivity. Qed.

Lemma relates_throw {A} e : relates R (throw (A:=A) e).
Proof. intros w. reflexivity. Qed.

Lemma relates_lift {A} (o : outcome A) : relates R (lift o).
Proof. intros w. reflexivity. Qed.

Lemma relates_bind {A C} (m : M A) (k : A → M C) :
  relates R m → (∀ a, relates R (k a)) → relates R (m ≫= k).
Proof.
  intros Hm Hk w. specialize (Hm w). unfold world_after, mbind, M_bind in *.
  destruct (m w) as [[a|e] w1]; cbn in *; [|done].
  etrans; [exact Hm|]. apply (Hk a w1).
Qed.

Lemma relates_try_catch {A} (m : M A) h :
  relates R m → (∀ e, relates R (h e)) → relates R (try_catch m h).
Proof.
  intros Hm Hh w. specialize (Hm w). unfold world_after, try_catch in *.
  destruct (m w) as [[a|e] w1]; cbn in *; [done|].
  etrans; [exact Hm|]. apply (Hh e w1).
Qed.

Lemma relates_for_each {A} (f : A → M unit) (l : list A) :
  (∀ x, relates R (f x)) → relates R (for_each f l).
Proof.
  intros Hf. induction l as [|x l IH]; cbn [for_each]; [apply relates_ret|].
  apply relates_bind; [apply Hf|by intros _].
Qed.

End Relates.

Global Instance turn_of_preorder psid : PreOrder (turn_of psid).
Proof.
  split.
  - intros w. unfold turn_of. split_and!; [done|exists []..];
      by rewrite app_nil_r.
  - intros w1 w2 w3 (Hc1 & (l1 & Hs1 & Hl1) & (ms1 & Hm1 & Hms1) & (ks1 & Hk1 & Hks1))
      (Hc2 & (l2 & Hs2 & Hl2) & (ms2 & Hm2 & Hms2) & (ks2 & Hk2 & Hks2)).
    unfold turn_of. split_and!.
    + intros p Hp. by rewrite Hc2, Hc1.
    + exists (l1 ++ l2). rewrite Hs2, Hs1, app_assoc. by rewrite Forall_app.
    + exists (ms1 ++ ms2). rewrite Hm2, Hm1, app_assoc. by rewrite Forall_app.
    + exists (ks1 ++ ks2). rewrite Hk2, Hk1, app_assoc. by rewrite Forall_app.
Qed.

Lemma turn_of_quiet {A} psid (m : M A) :
  preserves quiet_view m → relates (turn_of psid) m.
Proof.
  intros Hm w. specialize (Hm w). unfold quiet_view in Hm.
  injection Hm as Horders Hmessages Hconv Hsent.
  unfold turn_of, order_keys. rewrite Horders, Hmessages, Hconv, Hsent.
  split_and!; [done|exists []..]; by rewrite app_nil_r.
Qed.

(** A world that differs from another one in what a turn may add. *)
Ltac added_nothing := exists []; by rewrite app_nil_r.
Ltac added_one := eexists [_]; split; [reflexivity|]; by apply Forall_singleton.
Ltac solve_turn :=
  unfold turn_of, sent_replies, order_keys; cbn;
  rewrite ?omap_app, ?fmap_app; cbn; rewrite ?app_nil_r;
  split_and!;
  [ intros p Hp; first [done | by rewrite lookup_insert_ne]
  | first [added_nothing | added_one] .. ].

Lemma saveMessage_cases env psid direction text w :
  saveMessage env psid direction text w =
    if db_fault env (clock w) then (Throw "SqliteError", set_clock S w)
    else (Ret tt,
          set_trace (λ t, t ++ [EvInsertMessage psid direction text])
            (set_messages
               (λ ms, ms ++ [mkMessage psid direction text (now env (clock w))])
               (set_clock S w))).
Proof.
  unfold saveMessage, db_stmt, tick, mbind, M_bind. cbn.
  by destruct (db_fault env (clock w)).
Qed.

Section Turn.

Context (env : Env) (psid : string).

Lemma downloadAttachment_quiet url p :
  preserves quiet_view (downloadAttachment env url p).
Proof. unfold downloadAttachment. repeat quiet_step. Qed.

Lemma updateOrder_turn orderId (fields : Fields) :
  relates (turn_of psid) (updateOrder env orderId fields).
Proof.
  intros w. unfold turn_of.
  pose proof (updateOrder_sent env orderId fields w) as [= -> -> ->].
  rewrite updateOrder_order_keys.
  split_and!; [done|added_nothing..].
Qed.

Lemma getState_turn : relates (turn_of psid) (getState env psid).
Proof.
  intros w. unfold world_after. rewrite getState_cases.
  repeat case_match; solve_turn.
Qed.

Lemma setState_turn stg pendingOrderId :
  relates (turn_of psid) (setState env psid stg pendingOrderId).
Proof.
  intros w. unfold world_after. rewrite setState_cases. case_match; solve_turn.
Qed.

Lemma sendText_turn text : relates (turn_of psid) (sendText env psid text).
Proof. intros w. unfold world_after. rewrite sendText_run. solve_turn. Qed.

Lemma saveMessage_turn direction text :
  relates (turn_of psid) (saveMessage env psid direction text).
Proof.
  intros w. unfold world_after. rewrite saveMessage_cases. case_match; solve_turn.
Qed.

Lemma createOrder_turn photoPath :
  relates (turn_of psid) (createOrder env psid photoPath).
Proof.
  intros w. unfold world_after. rewrite createOrder_cases. cbn zeta.
  set (row := new_order _ psid photoPath _).
  assert (row !! "psid" = Some (VStr psid)) as Hpsid by apply new_order_columns.
  clearbody row. repeat case_match; solve_turn.
Qed.

End Turn.

(** One step of a turn with the customer. *)
Ltac turn_step :=
  lazymatch goal with
  | |- relates _ (createOrder _ _ _) => apply createOrder_turn
  | |- relates _ (getOrder _ _) => apply turn_of_quiet, getOrder_quiet
  | |- relates _ (updateOrder _ _ _) => apply updateOrder_turn
  | |- relates _ (saveMessage _ _ _ _) => apply saveMessage_turn
  | |- relates _ (sendText _ _ _) => apply sendText_turn
  | |- relates _ (downloadAttachment _ _ _) =>
      apply turn_of_quiet, downloadAttachment_quiet
  | |- relates _ (getState _ _) => apply getState_turn
  | |- relates _ (setState _ _ _ _) => apply setState_turn
  | |- relates _ (mret _) => apply relates_ret; apply _
  | |- relates _ (throw _) => apply relates_throw; apply _
  | |- relates _ (lift _) => apply relates_lift; apply _
  | |- relates _ (try_catch _ _) => apply relates_try_catch; [apply _| |intros ?]
  | |- relates _ (mbind _ _) => apply relates_bind; [apply _| |intros ?]
  | |- relates _ _ => case_match
  end.

Lemma handleIncoming_turn env pricing psid message :
  relates (turn_of psid) (handleIncoming env pricing psid message).
Proof.
  unfold handleIncoming, handleNew, handlePhotoReceived, handleDetailsReceived,
    handleQuoteSent, handleConfirmed, processPhoto.
  repeat turn_step.
Qed.

(** X3.  A turn of the conversation with a customer, whatever the oracles
    answer and whether it completes or throws: leaves the conversation
    state of every other customer as it was; sends replies to this customer
    only; only adds to the message log, and messages of this customer only;
    and only adds rows to the orders, rows of this customer only, every row
    there keeping its place, its id and its customer. *)
Theorem handleIncoming_concerns_one_customer env pricing psid message w :
  let w' := world_after (handleIncoming env pricing psid message) w in
  (∀ p, p ≠ psid → conv w' !! p = conv w !! p) ∧
  (∃ l, sent_replies w' = sent_replies w ++ l ∧ Forall (λ r, r.1 = psid) l) ∧
  (∃ ms, messages w' = messages w ++ ms ∧ Forall (λ m, m_psid m = psid) ms) ∧
  (∃ ks, order_keys w' = order_keys w ++ ks ∧
         Forall (λ k, k.2 = Some (VStr psid)) ks).
Proof. apply handleIncoming_turn. Qed.

(** ** conversation.js: one reply a turn *)

Section Sends.

Lemma sends_ret {A} (a : A) : sends 0 (mret a).
Proof. by intros w. Qed.

Lemma sends_throw {A} n e : sends n (throw (A:=A) e).
Proof. intros w. unfold throw. lia. Qed.

Lemma sends_lift {A} (o : outcome A) : sends 0 (lift o).
Proof. intros w. unfold lift. destruct o; cbn; lia. Qed.

Lemma sends_bind {A C} n k (m : M A) (f : A → M C) :
  sends n m → (∀ a, sends k (f a)) → sends (n + k) (m ≫= f).
Proof.
  intros Hm Hf w. specialize (Hm w). unfold mbind, M_bind.
  destruct (m w) as [[a|e] w1]; [|lia].
  specialize (Hf a w1). destruct (f a w1) as [[c|e] w2]; lia.
Qed.

Lemma sends_quiet {A} (m : M A) : preserves quiet_view m → sends 0 m.
Proof.
  intros Hm w. specialize (Hm w). unfold world_after, quiet_view in Hm.
  injection Hm as _ _ _ Hsent. unfold reply_count.
  destruct (m w) as [[a|e] w1]; cbn in Hsent; rewrite Hsent; lia.
Qed.

Lemma sends_at_most_sends {A} n (m : M A) : sends n m → sends_at_most n m.
Proof.
  intros Hm w. specialize (Hm w). unfold world_after.
  destruct (m w) as [[a|e] w1]; cbn; lia.
Qed.

Lemma sends_at_most_bind {A C} n k (m : M A) (f : A → M C) :
  sends_at_most n m → (∀ a, sends_at_most k (f a)) → sends_at_most (n + k) (m ≫= f).
Proof.
  intros Hm Hf w. specialize (Hm w). unfold world_after, mbind, M_bind in *.
  destruct (m w) as [[a|e] w1]; cbn in *; [|lia].
  specialize (Hf a w1). unfold world_after in Hf. lia.
Qed.

Lemma sends_at_most_try_catch {A} n k (m : M A) h :
  sends_at_most n m → (∀ e, sends_at_most k (h e)) →
  sends_at_most (n + k) (try_catch m h).
Proof.
  intros Hm Hh w. specialize (Hm w). unfold world_after, try_catch in *.
  destruct (m w) as [[a|e] w1]; cbn in *; [lia|].
  specialize (Hh e w1). unfold world_after in Hh. lia.
Qed.

End Sends.

Section SendsOne.

Context (env : Env).

Lemma sendText_sends psid text : sends 1 (sendText env psid text).
Proof.
  intros w. rewrite sendText_run. unfold reply_count, sent_replies. cbn.
  rewrite omap_app, length_app. cbn. lia.
Qed.

(** The statements of the record store send nothing, and only
    [saveMessage] adds to the messages. *)
Lemma store_statement_sends {A} (m : M A) :
  preserves (λ w, (sent_replies w, messages w)) m → sends 0 m.
Proof.
  intros Hm w. specialize (Hm w). unfold world_after in Hm. unfold reply_count.
  destruct (m w) as [[a|e] w1]; cbn in Hm; injection Hm as -> _; lia.
Qed.

Lemma updateOrder_talk orderId (fields : Fields) :
  preserves (λ w, (sent_replies w, messages w)) (updateOrder env orderId fields).
Proof.
  intros w. by pose proof (updateOrder_sent env orderId fields w) as [= -> _ ->].
Qed.

Lemma saveMessage_sends psid direction text :
  sends 0 (saveMessage env psid direction text).
Proof.
  intros w. rewrite saveMessage_cases. unfold reply_count, sent_replies.
  destruct (db_fault env (clock w)); cbn; [lia|].
  rewrite omap_app. cbn. rewrite app_nil_r. lia.
Qed.

Lemma getState_talk psid :
  preserves (λ w, (sent_replies w, messages w)) (getState env psid).
Proof.
  intros w. unfold world_after. rewrite getState_cases.
  repeat case_match; try done. unfold sent_replies. cbn. rewrite omap_app. cbn.
  by rewrite app_nil_r.
Qed.

Lemma setState_talk psid stg pendingOrderId :
  preserves (λ w, (sent_replies w, messages w)) (setState env psid stg pendingOrderId).
Proof.
  intros w. unfold world_after. rewrite setState_cases.
  case_match; [done|]. unfold sent_replies. cbn. rewrite omap_app. cbn.
  by rewrite app_nil_r.
Qed.

Lemma createOrder_talk psid photoPath :
  preserves (λ w, (sent_replies w, messages w)) (createOrder env psid photoPath).
Proof.
  intros w. unfold world_after. rewrite createOrder_cases. cbn zeta.
  repeat case_match; try done. unfold sent_replies. cbn. rewrite omap_app. cbn.
  by rewrite app_nil_r.
Qed.

End SendsOne.

(** One step of a turn, counting the replies. *)
Ltac sends_step :=
  lazymatch goal with
  | |- sends _ (sendText _ _ _) => apply sendText_sends
  | |- sends _ (createOrder _ _ _) => apply store_statement_sends, createOrder_talk
  | |- sends _ (getOrder _ _) => apply sends_quiet, getOrder_quiet
  | |- sends _ (updateOrder _ _ _) => apply store_statement_sends, updateOrder_talk
  | |- sends _ (saveMessage _ _ _ _) => apply saveMessage_sends
  | |- sends _ (downloadAttachment _ _ _) =>
      apply sends_quiet, downloadAttachment_quiet
  | |- sends _ (getState _ _) => apply store_statement_sends, getState_talk
  | |- sends _ (setState _ _ _ _) => apply store_statement_sends, setState_talk
  | |- sends _ (mret _) => apply sends_ret
  | |- sends _ (throw _) => apply sends_throw
  | |- sends _ (lift _) => apply sends_lift
  | |- sends _ (mbind _ (sendText _ _ _)) => apply (sends_bind 1 0); [|intros ?]
  | |- sends ?n (mbind _ _) => apply (sends_bind 0 n); [|intros ?]
  | |- sends _ _ => case_match
  end.

Lemma handleIncoming_sends env pricing psid message :
  sends 1 (handleIncoming env pricing psid message).
Proof.
  unfold handleIncoming, handleNew, handlePhotoReceived, handleDetailsReceived,
    handleQuoteSent, handleConfirmed, processPhoto.
  repeat sends_step.
Qed.

(** X4.  A turn of the conversation that completes has sent exactly one
    reply, and a turn that throws at most one, whatever the oracles
    answer. *)
Theorem handleIncoming_sends_one_reply env pricing psid message w :
  let turn := handleIncoming env pricing psid message in
  reply_count w ≤ reply_count (world_after turn w) ≤ 1 + reply_count w ∧
  (outcome_of turn w = Ret tt → reply_count (world_after turn w) = 1 + reply_count w).
Proof.
  intros turn. pose proof (handleIncoming_sends env pricing psid message w) as Hturn.
  fold turn in Hturn. unfold world_after, outcome_of.
  destruct (turn w) as [[[]|e] w1]; cbn; split; try lia. done.
Qed.

(** ** conversation.js: what is logged was sent *)

Global Instance logs_what_it_sent_preorder : PreOrder logs_what_it_sent.
Proof.
  split.
  - intros w. exists [], []. by rewrite !app_nil_r.
  - intros w1 w2 w3 (s1 & l1 & Hs1 & Hl1 & Hsub1) (s2 & l2 & Hs2 & Hl2 & Hsub2).
    exists (s1 ++ s2), (l1 ++ l2). rewrite Hs2, Hs1, Hl2, Hl1, !app_assoc.
    split_and!; [done..|]. by apply sublist_app.
Qed.

Lemma logs_talk {A} (m : M A) :
  preserves (λ w, (sent_replies w, messages w)) m → relates logs_what_it_sent m.
Proof.
  intros Hm w. specialize (Hm w). injection Hm as Hsent Hmessages.
  exists [], []. unfold logged_replies. by rewrite Hsent, Hmessages, !app_nil_r.
Qed.

Lemma logs_quiet {A} (m : M A) :
  preserves quiet_view m → relates logs_what_it_sent m.
Proof.
  intros Hm. apply logs_talk. intros w. specialize (Hm w).
  unfold quiet_view in Hm. by injection Hm as _ -> _ ->.
Qed.

Section Logs.

Context (env : Env).

Lemma sendText_logs psid text : relates logs_what_it_sent (sendText env psid text).
Proof.
  intros w. unfold world_after. rewrite sendText_run.
  exists [(psid, text)], []. unfold sent_replies, logged_replies. cbn.
  rewrite omap_app, app_nil_r. split_and!; [done..|]. apply sublist_nil_l.
Qed.

Lemma saveMessage_inbound_logs psid text :
  relates logs_what_it_sent (saveMessage env psid "in" text).
Proof.
  intros w. unfold world_after. rewrite saveMessage_cases.
  exists [], []. unfold sent_replies, logged_replies.
  destruct (db_fault env (clock w)); cbn; rewrite ?omap_app; cbn;
    by rewrite !app_nil_r.
Qed.

(** The reply and its entry in the log. *)
Lemma reply_logs psid text :
  relates logs_what_it_sent (sendText env psid text;; saveMessage env psid "out" text).
Proof.
  intros w. unfold world_after.
  erewrite bind_ret by apply sendText_run. rewrite saveMessage_cases.
  destruct (db_fault env _);
    [exists [(psid, text)], []|exists [(psid, text)], [(psid, text)]];
    unfold sent_replies, logged_replies; cbn; rewrite ?omap_app; cbn;
    rewrite ?app_nil_r; split_and!; try done.
  apply sublist_nil_l.
Qed.

End Logs.

(** One step of a turn, for the replies and the log. *)
Ltac logs_step :=
  lazymatch goal with
  | |- relates _ (mbind (λ _, saveMessage _ _ _ _) (sendText _ _ _)) =>
      apply reply_logs
  | |- relates _ (sendText _ _ _) => apply sendText_logs
  | |- relates _ (createOrder _ _ _) => apply logs_talk, createOrder_talk
  | |- relates _ (getOrder _ _) => apply logs_quiet, getOrder_quiet
  | |- relates _ (updateOrder _ _ _) => apply logs_talk, updateOrder_talk
  | |- relates _ (downloadAttachment _ _ _) =>
      apply logs_quiet, downloadAttachment_quiet
  | |- relates _ (getState _ _) => apply logs_talk, getState_talk
  | |- relates _ (setState _ _ _ _) => apply logs_talk, setState_talk
  | |- relates _ (mret _) => apply relates_ret; apply _
  | |- relates _ (throw _) => apply relates_throw; apply _
  | |- relates _ (lift _) => apply relates_lift; apply _
  | |- relates _ (mbind _ _) => apply relates_bind; [apply _| |intros ?]
  | |- relates _ _ => case_match
  end.

Lemma handleIncoming_logs env pricing psid message :
  relates logs_what_it_sent (handleIncoming env pricing psid message).
Proof.
  unfold handleIncoming, handleNew, handlePhotoReceived, handleDetailsReceived,
    handleQuoteSent, handleConfirmed, processPhoto.
  repeat logs_step.
Qed.

(** X5.  Whatever the oracles answer, the replies that a turn of the
    conversation adds to the message log are replies that it has sent: the
    turn sends at most one reply, and the log gains either nothing or that
    very reply, to the same customer and with the same text. *)
Theorem handleIncoming_logs_what_it_sent env pricing psid message w :
  let w' := world_after (handleIncoming env pricing psid message) w in
  ∃ sent logged,
    sent_replies w' = sent_replies w ++ sent ∧
    logged_replies w' = logged_replies w ++ logged ∧
    length sent ≤ 1 ∧ (logged = [] ∨ logged = sent).
Proof.
  intros w'.
  destruct (handleIncoming_logs env pricing psid message w)
    as (sent & logged & Hsent & Hlogged & Hsub).
  fold w' in Hsent, Hlogged. exists sent, logged.
  assert (length sent ≤ 1) as Hlen.
  { pose proof (sends_at_most_sends _ _
                  (handleIncoming_sends env pricing psid message) w) as Hcount.
    fold w' in Hcount. unfold reply_count in Hcount.
    rewrite Hsent, length_app in Hcount. lia. }
  split_and!; [done..|].
  destruct sent as [|r [|r' sent]]; cbn in Hlen; [| |lia].
  - left. by apply sublist_nil_r.
  - destruct logged as [|l logged]; [by left|right].
    apply sublist_cons_r in Hsub as [Hsub|(logged' & [= -> ->] & Hsub)].
    + by apply sublist_nil_r in Hsub.
    + apply sublist_nil_r in Hsub. by subst.
Qed.

(** ** webhook.js: the POST route *)

Lemma for_each_throw {A} (f : A → M unit) (l1 l2 : list A) (x : A) w w1 e w2 :
  for_each f l1 w = (Ret tt, w1) → f x w1 = (Throw e, w2) →
  for_each f (l1 ++ x :: l2) w = (Throw e, w2).
Proof.
  revert w. induction l1 as [|y l1 IH]; intros w Hl1 Hx; cbn [for_each app] in *.
  - injection Hl1 as <-. by apply bind_throw.
  - unfold mbind, M_bind in Hl1 |- *.
    destruct (f y w) as [[[]|e'] w']; [|done]. by apply IH.
Qed.

Lemma for_each_app {A} (f : A → M unit) (l1 l2 : list A) w w1 :
  for_each f l1 w = (Ret tt, w1) →
  for_each f (l1 ++ l2) w = for_each f l2 w1.
Proof.
  revert w. induction l1 as [|y l1 IH]; intros w Hl1; cbn [for_each app] in *.
  - by injection Hl1 as <-.
  - unfold mbind, M_bind in Hl1 |- *.
    destruct (f y w) as [[[]|e'] w']; [|done]. by apply IH.
Qed.

Section WebhookRoute.

Context (env : Env) (pricing : Pricing).

Lemma handle_event_unhandled event :
  handled event = false → handle_event env pricing event = mret tt.
Proof.
  unfold handled, handle_event. destruct (ev_sender event) as [psid|]; [|done].
  destruct (JS.nonempty psid); [|done]. cbn.
  by destruct (from_option wm_is_echo false (ev_message event)).
Qed.

Lemma handle_event_handled event psid :
  ev_sender event = Some psid → handled event = true →
  let text := default "" (ev_message event ≫= wm_text) in
  let attachments := default [] (ev_message event ≫= wm_attachments) in
  handle_event env pricing event =
    (saveMessage env psid "in" (inbound_text text attachments);;
     handleIncoming env pricing psid (mkIncoming text attachments)).
Proof.
  unfold handled, handle_event. intros ->.
  destruct (JS.nonempty psid); [|done]. cbn.
  by destruct (from_option wm_is_echo false (ev_message event)).
Qed.

Lemma handle_event_sends event :
  sends_at_most (if handled event then 1 else 0) (handle_event env pricing event).
Proof.
  destruct (handled event) eqn:Hev.
  - destruct (ev_sender event) as [psid|] eqn:Hpsid;
      [|by unfold handled in Hev; rewrite Hpsid in Hev].
    rewrite (handle_event_handled event psid) by done. cbn zeta.
    apply sends_at_most_sends, (sends_bind 0 1);
      [apply saveMessage_sends|intros _; apply handleIncoming_sends].
  - rewrite handle_event_unhandled by done. apply sends_at_most_sends, sends_ret.
Qed.

Lemma events_send (events : list WebhookEvent) :
  sends_at_most (length (filter (λ event, handled event = true) events))
    (for_each (handle_event env pricing) events).
Proof.
  induction events as [|event events IH]; cbn [for_each].
  { apply sends_at_most_sends, sends_ret. }
  pose proof (handle_event_sends event) as Hev.
  destruct (handled event) eqn:Hhandled.
  - rewrite filter_cons_True by done.
    apply (sends_at_most_bind 1); [done|by intros _].
  - rewrite filter_cons_False by (by rewrite Hhandled).
    apply (sends_at_most_bind 0); [done|by intros _].
Qed.

Lemma entries_send (entries : list (list WebhookEvent)) :
  sends_at_most (length (filter (λ event, handled event = true) (concat entries)))
    (for_each (for_each (handle_event env pricing)) entries).
Proof.
  induction entries as [|events entries IH]; cbn [for_each concat].
  { apply sends_at_most_sends, sends_ret. }
  rewrite filter_app, length_app.
  apply sends_at_most_bind; [apply events_send|by intros _].
Qed.

Lemma handle_event_logs event :
  relates logs_what_it_sent (handle_event env pricing event).
Proof.
  destruct (handled event) eqn:Hev.
  - destruct (ev_sender event) as [psid|] eqn:Hpsid;
      [|by unfold handled in Hev; rewrite Hpsid in Hev].
    rewrite (handle_event_handled event psid) by done. cbn zeta.
    apply relates_bind; [apply _|apply saveMessage_inbound_logs|intros _].
    apply handleIncoming_logs.
  - rewrite handle_event_unhandled by done. apply relates_ret, _.
Qed.

Lemma events_unhandled (events : list WebhookEvent) w :
  filter (λ event, handled event = true) events = [] →
  for_each (handle_event env pricing) events w = (Ret tt, w).
Proof.
  induction events as [|event events IH]; cbn [for_each]; [done|].
  destruct (handled event) eqn:Hhandled.
  - by rewrite filter_cons_True.
  - rewrite filter_cons_False by (by rewrite Hhandled). intros Hrest.
    rewrite handle_event_unhandled by done. by apply IH.
Qed.

Lemma entries_unhandled (entries : list (list WebhookEvent)) w :
  filter (λ event, handled event = true) (concat entries) = [] →
  for_each (for_each (handle_event env pricing)) entries w = (Ret tt, w).
Proof.
  induction entries as [|events entries IH]; cbn [for_each concat]; [done|].
  rewrite filter_app. intros [Hev Hrest]%app_eq_nil.
  erewrite bind_ret by (by apply events_unhandled). by apply IH.
Qed.

Lemma webhook_post_run body w :
  webhook_post env pricing body w
  = (Ret tt, world_after (webhook_post env pricing body) w).
Proof.
  unfold world_after, webhook_post, try_catch.
  by destruct (_ w) as [[[]|e] w'].
Qed.

End WebhookRoute.

(** X6.  The POST route of the webhook never throws, whatever the body and
    the oracles.  It sends at most one reply for every event that it
    handles (the events with a sender that are no echoes), what it adds to
    the log of replies it has sent, and it leaves the world as it is for a
    body that is not of a page and for a body without an event to
    handle. *)
Theorem webhook_post_never_throws env pricing body w :
  let w' := world_after (webhook_post env pricing body) w in
  outcome_of (webhook_post env pricing body) w = Ret tt ∧
  reply_count w ≤ reply_count w' ≤ length (handled_events body) + reply_count w ∧
  logs_what_it_sent w w' ∧
  (wb_object body ≠ "page" → w' = w) ∧
  (handled_events body = [] → w' = w).
Proof.
  intros w'. subst w'. unfold outcome_of. rewrite webhook_post_run. cbn [fst].
  split; [done|]. unfold world_after, webhook_post.
  destruct (String.eqb_spec (wb_object body) "page") as [Hpage|Hpage]; cbn [negb].
  - split; [|split; [|split; [done|]]].
    + pose proof (sends_at_most_try_catch _ 0 _ (λ _, mret tt)
                    (entries_send env pricing (wb_entry body))
                    (λ _, sends_at_most_sends _ _ (sends_ret tt)) w) as Hcount.
      unfold world_after in Hcount. unfold handled_events. lia.
    + apply (relates_try_catch logs_what_it_sent).
      * apply relates_for_each; [apply _|]. intros events.
        apply relates_for_each; [apply _|]. apply handle_event_logs.
      * intros _. apply relates_ret, _.
    + intros Hnone. unfold try_catch. by rewrite entries_unhandled.
  - split; [cbn; lia|]. split; [reflexivity|done].
Qed.

(** X7.  An event that the webhook handles is first written to the message
    log as an inbound message of its sender, with its text, or with a
    placeholder that is never empty: [image] when the message has an
    attachment of any type and [empty] otherwise.  When that write fails
    the event throws before the turn of the conversation, and nothing else
    has changed; the messages that the turn then adds come after the
    inbound one and are of the same customer. *)
Theorem handle_event_logs_inbound env pricing event psid w :
  ev_sender event = Some psid → handled event = true →
  let text := default "" (ev_message event ≫= wm_text) in
  let attachments := default [] (ev_message event ≫= wm_attachments) in
  let w' := world_after (handle_event env pricing event) w in
  inbound_text text attachments ≠ "" ∧
  (text = "" → attachments ≠ [] → inbound_text text attachments = "[image]") ∧
  (text = "" → attachments = [] → inbound_text text attachments = "[empty]") ∧
  (db_fault env (clock w) = true →
   handle_event env pricing event w = (Throw "SqliteError", set_clock S w)) ∧
  (db_fault env (clock w) = false →
   ∃ ms, messages w'
         = messages w
           ++ mkMessage psid "in" (inbound_text text attachments) (now env (clock w))
              :: ms ∧
         Forall (λ m, m_psid m = psid) ms).
Proof.
  intros Hpsid Hev text attachments w'. subst w'.
  rewrite (handle_event_handled env pricing event psid) by done. cbn zeta.
  fold text attachments. split_and!.
  - unfold inbound_text. destruct text; [by destruct attachments|done].
  - intros -> Hatt. by destruct attachments.
  - by intros -> ->.
  - intros Hf. apply bind_throw. by rewrite saveMessage_cases, Hf.
  - intros Hf. unfold world_after. erewrite bind_ret by (by rewrite saveMessage_cases, Hf).
    destruct (handleIncoming_turn env pricing psid (mkIncoming text attachments)
                (set_trace (λ t, t ++ [EvInsertMessage psid "in" (inbound_text text attachments)])
                   (set_messages
                      (λ ms, ms ++ [mkMessage psid "in" (inbound_text text attachments)
                                      (now env (clock w))])
                      (set_clock S w))))
      as (_ & _ & (ms & Hms & Hall) & _).
    exists ms. split; [|done]. unfold world_after in Hms. rewrite Hms. cbn.
    by rewrite <- app_assoc.
Qed.

(** X8.  The [try] of the POST route is around both loops: when the
    handling of an event throws, the events after it are not handled, those
    of the later entries included, and the route ends where the throw left
    the world. *)
Theorem webhook_post_drops_the_rest env pricing body entries1 events1 event events2
    entries2 w w1 w2 e w3 :
  wb_object body = "page" →
  wb_entry body = entries1 ++ (events1 ++ event :: events2) :: entries2 →
  for_each (for_each (handle_event env pricing)) entries1 w = (Ret tt, w1) →
  for_each (handle_event env pricing) events1 w1 = (Ret tt, w2) →
  handle_event env pricing event w2 = (Throw e, w3) →
  webhook_post env pricing body w = (Ret tt, w3).
Proof.
  intros Hpage Hentries Hbefore Hevents Hevent. unfold webhook_post.
  rewrite Hpage, Hentries. cbn [String.eqb Ascii.eqb Bool.eqb andb negb].
  rewrite (try_catch_throw _ _ _ e w3); [done|].
  rewrite (for_each_app _ _ _ _ _ Hbefore). cbn [for_each].
  apply bind_throw. by apply for_each_throw with (w1 := w2).
Qed.

(** The first event of a customer who sends a photo without a text. *)
Lemma handle_event_logs_inbound_witness :
  let w' := world_after
              (handle_event sample_env PricingJs.pricing (sample_photo_event "u1"))
              (sample_world "NEW") in
  ∃ ms, messages w' = mkMessage "u1" "in" "[image]" (now sample_env 0) :: ms ∧
        Forall (λ m, m_psid m = "u1") ms.
Proof.
  intros w'.
  destruct (handle_event_logs_inbound sample_env PricingJs.pricing
              (sample_photo_event "u1") "u1" (sample_world "NEW") eq_refl eq_refl)
    as (_ & _ & _ & _ & Hlog).
  exact (Hlog eq_refl).
Defined.

(** A photo whose order id is taken, followed by the first message of
    another customer: the second customer is never answered, and the first
    one neither. *)
Lemma webhook_post_drops_the_rest_witness :
  let body := mkWebhookBody "page"
                [[sample_photo_event "u1"; sample_text_event "u2" "hi"]] in
  let w := sample_collision_world in
  let w3 := {| orders := orders w;
               messages := [mkMessage "u1" "in" "[image]" (now sample_env 0)];
               conv := conv w;
               trace := [ EvInsertMessage "u1" "in" "[image]";
                          EvDownload "https://cdn.example/photo.jpg" "u1" true ];
               clock := 5 |} in
  webhook_post sample_env PricingJs.pricing body w = (Ret tt, w3).
Proof.
  intros body w w3.
  exact (webhook_post_drops_the_rest sample_env PricingJs.pricing body
           [] [] (sample_photo_event "u1") [sample_text_event "u2" "hi"] []
           w w w "UNIQUE constraint failed: orders.order_id" w3
           eq_refl eq_refl eq_refl eq_refl eq_refl).
Defined.

(** ** index.js: the routes that write *)

Lemma runOrderPipeline_returns env orderId w :
  ∃ result,
    runOrderPipeline env orderId w
    = (Ret result, world_after (runOrderPipeline env orderId) w).
Proof.
  unfold world_after, runOrderPipeline, try_catch.
  destruct (pipeline_try env orderId w) as [[result|message] w1]; [by eexists|].
  rewrite pipeline_catch_cases. by eexists.
Qed.

Lemma post_order_status_frame env orderId status :
  preserves (pipeline_frame orderId) (post_order_status env orderId status).
Proof. unfold post_order_status. repeat frame_step. Qed.

Lemma post_run_pipeline_frame env orderId :
  preserves (pipeline_frame orderId) (post_run_pipeline env orderId).
Proof.
  unfold post_run_pipeline.
  apply preserves_try_catch; [|intros ?; apply preserves_ret].
  apply preserves_bind; [frame_step|intros [row|]]; [|apply preserves_ret].
  apply preserves_bind; [apply runOrderPipeline_pipeline_frame|intros ?].
  apply preserves_ret.
Qed.

Lemma no_row_to_update orderId (updates : Fields) stamp (os : list Row) :
  find (has_order_id orderId) os = None →
  map (update_row orderId updates stamp) os = os.
Proof.
  induction os as [|row os IH]; cbn; [done|].
  unfold update_row at 1.
  destruct (has_order_id orderId row); [done|]. intros Hos. by rewrite IH.
Qed.

Lemma post_order_status_cases env orderId status w :
  post_order_status env orderId status w =
    match status with
    | Some (VStr s) =>
        if bool_decide (s ∈ validStatuses) then
          if db_fault env (clock w)
          then (Ret (mkResponse 500 (JsonError "Failed to update status")),
                set_clock S w)
          else (Ret (mkResponse 200 JsonOk),
                set_trace (λ t, t ++ [EvUpdateOrder orderId [("status", VStr s)]])
                  (set_orders
                     (map (update_row orderId [("status", VStr s)] (now env (clock w))))
                     (set_clock S w)))
        else (Ret (mkResponse 400 (JsonError "Invalid status")), w)
    | _ => (Ret (mkResponse 400 (JsonError "Invalid status")), w)
    end.
Proof.
  unfold post_order_status, try_catch.
  destruct status as [[| |s]|]; try done.
  destruct (bool_decide (s ∈ validStatuses)); [|done].
  unfold mbind, M_bind. rewrite updateOrder_cases. cbn zeta.
  rewrite filter_allowed_all by allowed_fields.
  rewrite bool_decide_false by done.
  by destruct (db_fault env (clock w)).
Qed.

(** X9.  The route that writes a status never throws.  It answers 400 and
    changes nothing for a status that is not a text of the list; for a
    status of the list it answers 500 when the database fails, and
    otherwise 200, for an order that no row has as well, in which case no
    row changes.  The status of an order that exists is then the one
    asked for.  In every case the route leaves alone the messages, the
    conversation states, the ids and the customers of the rows, and the
    rows of the other orders. *)
Theorem post_order_status_answers env orderId status w :
  let route := post_order_status env orderId status in
  let w' := world_after route w in
  (∃ body,
     outcome_of route w
     = Ret (mkResponse
              (if valid_status status
               then if db_fault env (clock w) then 500 else 200
               else 400) body)) ∧
  (valid_status status = false → w' = w) ∧
  (db_fault env (clock w) = true → orders w' = orders w) ∧
  (select_order orderId w = None → orders w' = orders w) ∧
  (∀ s (row : Row),
     status = Some (VStr s) → valid_status status = true →
     db_fault env (clock w) = false → select_order orderId w = Some row →
     order_column orderId "status" w' = Some (VStr s)) ∧
  pipeline_frame orderId w' = pipeline_frame orderId w.
Proof.
  intros route w'. subst route w'. unfold outcome_of, world_after.
  split_and!; [..|apply post_order_status_frame].
  - rewrite post_order_status_cases. unfold valid_status.
    repeat case_match; by eexists.
  - rewrite post_order_status_cases. unfold valid_status.
    by repeat case_match.
  - intros Hf. rewrite post_order_status_cases, Hf. by repeat case_match.
  - intros Hnone. rewrite post_order_status_cases.
    repeat case_match; try done. by apply no_row_to_update.
  - intros s row -> Hvalid Hf Hrow. rewrite post_order_status_cases.
    unfold valid_status in Hvalid. rewrite Hvalid, Hf.
    by eapply order_status_assigned.
Qed.

(** The operator marks the sample order as shipped, and then asks for a
    status that does not exist. *)
Lemma post_order_status_answers_witness :
  let w := sample_confirmed_world "SELF" "" in
  let w' := world_after
              (post_order_status sample_env "FFC-12345" (Some (VStr "shipped"))) w in
  order_column "FFC-12345" "status" w' = Some (VStr "shipped") ∧
  world_after (post_order_status sample_env "FFC-12345" (Some (VStr "printed"))) w' = w'.
Proof.
  intros w w'.
  destruct (post_order_status_answers sample_env "FFC-12345" (Some (VStr "shipped")) w)
    as (_ & _ & _ & _ & Hwritten & _).
  destruct (post_order_status_answers sample_env "FFC-12345" (Some (VStr "printed")) w')
    as (_ & Hinvalid & _).
  split.
  - apply (Hwritten "shipped" (sample_confirmed_order "SELF" "") eq_refl);
      reflexivity.
  - apply Hinvalid. reflexivity.
Defined.

(** X10.  The route that runs the pipeline never throws.  It answers 500
    only when its own read of the order fails, and 404 for an order that no
    row has, in both cases without running the pipeline; otherwise it
    answers 200 with the result of the run, which may be a failure.  In
    every case it leaves alone what a run of the pipeline leaves alone. *)
Theorem post_run_pipeline_answers env orderId w :
  let route := post_run_pipeline env orderId in
  let run := runOrderPipeline env orderId in
  (db_fault env (clock w) = true →
   route w = (Ret (mkResponse 500 (JsonError "SqliteError")), set_clock S w)) ∧
  (db_fault env (clock w) = false → select_order orderId w = None →
   route w = (Ret (mkResponse 404 (JsonError "Order not found")), set_clock S w)) ∧
  (db_fault env (clock w) = false → select_order orderId w ≠ None →
   ∃ result,
     run (set_clock S w) = (Ret result, world_after run (set_clock S w)) ∧
     route w = (Ret (mkResponse 200 (JsonResult result)),
                world_after run (set_clock S w))) ∧
  pipeline_frame orderId (world_after route w) = pipeline_frame orderId w.
Proof.
  intros route run. subst route run. unfold post_run_pipeline.
  pose proof (getOrder_cases env orderId w) as Hget.
  split_and!; [..|apply post_run_pipeline_frame].
  - intros Hf. rewrite Hf in Hget.
    by rewrite (try_catch_throw _ _ _ "SqliteError" (set_clock S w))
      by (by apply bind_throw).
  - intros Hf Hnone. rewrite Hf, Hnone in Hget.
    apply try_catch_ret. by rewrite (bind_ret _ _ _ _ _ Hget).
  - intros Hf Hsome. rewrite Hf in Hget.
    destruct (select_order orderId w) as [row|]; [|done].
    destruct (runOrderPipeline_returns env orderId (set_clock S w)) as [result Hrun].
    exists result. split; [done|]. apply try_catch_ret.
    rewrite (bind_ret _ _ _ _ _ Hget). by rewrite (bind_ret _ _ _ _ _ Hrun).
Qed.

Lemma post_run_pipeline_answers_witness :
  let w := sample_confirmed_world "SELF" "" in
  let route := post_run_pipeline sample_env_no_tooltrace in
  outcome_of (route "FFC-00000") w
  = Ret (mkResponse 404 (JsonError "Order not found")) ∧
  outcome_of (route "FFC-12345") w
  = Ret (mkResponse 200
           (JsonResult (failure_result "FFC-12345"
                          "ToolTrace failed: Timeout 60000ms exceeded"))).
Proof.
  intros w route. split.
  - destruct (post_run_pipeline_answers sample_env_no_tooltrace "FFC-00000" w)
      as (_ & Hnone & _). unfold outcome_of. subst route. cbv beta.
    by rewrite (Hnone eq_refl eq_refl).
  - destruct (post_run_pipeline_answers sample_env_no_tooltrace "FFC-12345" w)
      as (_ & _ & Hrun & _).
    destruct (Hrun eq_refl) as (result & Hresult & Hroute); [done|].
    unfold outcome_of. subst route. cbv beta. rewrite Hroute. cbn [fst].
    apply (f_equal fst) in Hresult. cbn [fst] in Hresult.
    assert (Ret result
            = Ret (failure_result "FFC-12345"
                     "ToolTrace failed: Timeout 60000ms exceeded")) as [= ->]
      by (rewrite <- Hresult; reflexivity).
    reflexivity.
Defined.

(** ** The order ids stay unique *)

Lemma unique_of_frame {A} orderId (m : M A) :
  preserves (pipeline_frame orderId) m → maintains unique_order_ids m.
Proof.
  intros Hm. apply unique_frame. intros w. specialize (Hm w).
  unfold pipeline_frame in Hm. injection Hm as _ _ _ Hkeys _.
  by rewrite !order_ids_keys, Hkeys.
Qed.

Lemma webhook_post_unique env pricing body :
  maintains unique_order_ids (webhook_post env pricing body).
Proof.
  unfold webhook_post, handle_event. repeat unique_step.
  apply handleIncoming_unique.
Qed.

(** X11.  No two orders ever have the same id: whatever the oracles answer,
    order ids that are unique stay so through the POST route of the
    webhook, through a turn of the conversation, through a run of the
    pipeline and through the two routes of the dashboard that write. *)
Theorem order_ids_stay_unique env pricing w :
  unique_order_ids w →
  (∀ body, unique_order_ids (world_after (webhook_post env pricing body) w)) ∧
  (∀ psid message,
     unique_order_ids (world_after (handleIncoming env pricing psid message) w)) ∧
  (∀ orderId, unique_order_ids (world_after (runOrderPipeline env orderId) w)) ∧
  (∀ orderId status,
     unique_order_ids (world_after (post_order_status env orderId status) w)) ∧
  (∀ orderId, unique_order_ids (world_after (post_run_pipeline env orderId) w)).
Proof.
  intros Hw. split_and!.
  - intros body. by apply webhook_post_unique.
  - intros psid message. by apply handleIncoming_unique.
  - intros orderId.
    by apply (unique_of_frame orderId), Hw; apply runOrderPipeline_pipeline_frame.
  - intros orderId status.
    by apply (unique_of_frame orderId), Hw; apply post_order_status_frame.
  - intros orderId.
    by apply (unique_of_frame orderId), Hw; apply post_run_pipeline_frame.
Qed.

(** The photo of a second customer on the sample day. *)
Lemma order_ids_stay_unique_witness :
  let body := mkWebhookBody "page" [[sample_photo_event "u2"]] in
  unique_order_ids (world_after (webhook_post sample_env PricingJs.pricing body)
                      (sample_world "NEW")).
Proof.
  intros body.
  assert (unique_order_ids (sample_world "NEW")) as Hw.
  { unfold unique_order_ids. decide_by_computation. }
  exact (proj1 (order_ids_stay_unique sample_env PricingJs.pricing
                  (sample_world "NEW") Hw) body).
Defined.

(** ** db.js: the conversation state *)

(** X12.  What [setState] has written for a customer, [getState] reads:
    the stage and the pending order, and that read writes nothing.  The
    write leaves the states of the other customers, the orders and the
    messages as they were. *)
Theorem setState_then_getState env psid stg pendingOrderId w :
  db_fault env (clock w) = false → db_fault env (S (clock w)) = false →
  let w1 := world_after (setState env psid stg pendingOrderId) w in
  let w2 := world_after (getState env psid) w1 in
  (∃ st, outcome_of (getState env psid) w1 = Ret st ∧
         stage st = stg ∧ pending_order_id st = pendingOrderId) ∧
  conv w2 = conv w1 ∧ trace w2 = trace w1 ∧
  (∀ p, p ≠ psid → conv w1 !! p = conv w !! p) ∧
  orders w1 = orders w ∧ messages w1 = messages w.
Proof.
  intros Hf1 Hf2 w1 w2. subst w2 w1. unfold outcome_of, world_after.
  rewrite setState_cases, Hf1. cbn [snd]. rewrite getState_cases.
  cbn [clock set_trace set_conv set_clock conv]. rewrite Hf2, lookup_insert_eq.
  cbn. split_and!; [by eexists|done..| |done|done].
  intros p Hp. by apply lookup_insert_ne.
Qed.

(** The customer of the sample world is moved to the stage of the quote. *)
Lemma setState_then_getState_witness :
  let w1 := world_after (setState sample_env "u1" "QUOTE_SENT" "FFC-12345")
              (sample_world "DETAILS_RECEIVED") in
  ∃ st, outcome_of (getState sample_env "u1") w1 = Ret st ∧
        stage st = "QUOTE_SENT" ∧ pending_order_id st = "FFC-12345".
Proof.
  intros w1.
  exact (proj1 (setState_then_getState sample_env "u1" "QUOTE_SENT" "FFC-12345"
                  (sample_world "DETAILS_RECEIVED") eq_refl eq_refl)).
Defined.

(** X13.  [getState] never overwrites: whatever the oracles answer, every
    conversation state that exists is left as it is, as are the orders and
    the messages.  The state that it returns is the one that the store then
    holds for the customer, and for a customer without a state it is the
    stage NEW without pending order, inserted for that customer only. *)
Theorem getState_never_overwrites env psid w :
  let w1 := world_after (getState env psid) w in
  (∀ p st, conv w !! p = Some st → conv w1 !! p = Some st) ∧
  (∀ p, p ≠ psid → conv w1 !! p = conv w !! p) ∧
  orders w1 = orders w ∧ messages w1 = messages w ∧
  (∀ st, outcome_of (getState env psid) w = Ret st →
     (∃ st', conv w1 !! psid = Some st' ∧ stage st' = stage st ∧
             pending_order_id st' = pending_order_id st) ∧
     (conv w !! psid = None → stage st = "NEW" ∧ pending_order_id st = "")).
Proof.
  intros w1. subst w1. unfold outcome_of, world_after. rewrite getState_cases.
  destruct (db_fault env (clock w)); [by split_and!|].
  destruct (conv w !! psid) as [st0|] eqn:Hst.
  { split_and!; try done. intros st [= <-]. split; [by exists st0|done]. }
  destruct (db_fault env (S (clock w))); [by split_and!|].
  cbn. split_and!; try done.
  - intros p st Hp. rewrite lookup_insert_ne; [done|]. intros <-. congruence.
  - intros p Hp. by apply lookup_insert_ne.
  - intros st [= <-]. split; [|done]. eexists. by rewrite lookup_insert_eq.
Qed.

(** ** db.js: what an update writes is what is read *)

Lemma apply_assignments_app (updates1 updates2 : Fields) (row : Row) :
  apply_assignments (updates1 ++ updates2) row
  = apply_assignments updates2 (apply_assignments updates1 row).
Proof. unfold apply_assignments. apply foldl_app. Qed.

Lemma apply_assignments_last (pre post : Fields) col v (row : Row) :
  col ∉ post.*1 →
  apply_assignments (pre ++ (col, v) :: post) row !! col = Some v.
Proof.
  intros Hpost. rewrite apply_assignments_app.
  change (apply_assignments ((col, v) :: post) ?r)
    with (apply_assignments post (<[col := v]> r)).
  rewrite apply_assignments_other by done. apply lookup_insert_eq.
Qed.

(** X14.  An update of an order that exists, with a database that works:
    the column of the allow-list that the fields assign last, with a value
    of the type of that column, holds the value that was assigned,
    [updated_at] holds the instant of the update, and every column that the
    fields do not name holds what it held. *)
Theorem updateOrder_then_getOrder env orderId (pre post : Fields) col v w (row : Row) :
  select_order orderId w = Some row →
  col ∈ allowed → col ∉ post.*1 →
  fits_column col v = true →
  db_fault env (clock w) = false →
  let fields := pre ++ (col, v) :: post in
  let w1 := world_after (updateOrder env orderId fields) w in
  outcome_of (updateOrder env orderId fields) w = Ret tt ∧
  order_column orderId col w1 = Some v ∧
  order_column orderId "updated_at" w1 = Some (VStr (now env (clock w))) ∧
  (∀ c, c ∉ fields.*1 → c ≠ "updated_at" → order_column orderId c w1 = row !! c).
Proof.
  intros Hrow Hcol Hpost _ Hf fields w1. subst w1. unfold outcome_of, world_after.
  rewrite updateOrder_cases, Hf. cbn zeta.
  set (updates := filter (λ kv, kv.1 ∈ allowed) fields).
  assert (updates = filter (λ kv, kv.1 ∈ allowed) pre
                    ++ (col, v) :: filter (λ kv, kv.1 ∈ allowed) post) as Hupdates.
  { unfold updates, fields. rewrite filter_app. by rewrite filter_cons_True. }
  assert (updates ≠ []) as Hne.
  { rewrite Hupdates. by destruct (filter _ pre). }
  rewrite bool_decide_false by done. cbn [fst snd].
  assert ("order_id" ∉ updates.*1) as Hid.
  { intros Hin%allowed_updates_keys. revert Hin. decide_by_computation. }
  assert (col ≠ "updated_at") as Hcol'.
  { intros ->. revert Hcol. decide_by_computation. }
  split_and!; [done| | |].
  - eapply (order_column_updated orderId updates _ w _ row col) in Hrow
      as [_ ->]; [|done..].
    rewrite Hupdates. apply apply_assignments_last.
    intros Hin. apply Hpost.
    apply list_elem_of_fmap in Hin as (kv & -> & Hin).
    apply list_elem_of_filter in Hin as [_ Hin]. by apply list_elem_of_fmap_2.
  - unfold order_column, select_order. cbn [orders set_trace set_orders set_clock].
    rewrite select_order_update by done.
    fold (select_order orderId w). rewrite Hrow. cbn.
    unfold update_row. rewrite (select_order_has_id _ _ _ Hrow).
    apply lookup_insert_eq.
  - intros c Hc Hc'.
    eapply (order_column_updated orderId updates _ w _ row c) in Hrow
      as [_ ->]; [|done..].
    apply apply_assignments_other. intros Hin. apply Hc.
    apply list_elem_of_fmap in Hin as (kv & -> & Hin).
    apply list_elem_of_filter in Hin as [_ Hin]. by apply list_elem_of_fmap_2.
Qed.

(** The material of the sample order is assigned twice in one update. *)
Lemma updateOrder_then_getOrder_witness :
  let fields := [ ("material", VStr "PLA"); ("id", VNum 7); ("material", VStr "PLA+");
                  ("color", VStr "blue") ] in
  let w1 := world_after (updateOrder sample_env "FFC-12345" fields) (sample_world "NEW") in
  order_column "FFC-12345" "material" w1 = Some (VStr "PLA+") ∧
  order_column "FFC-12345" "size" w1 = Some (VStr "small").
Proof.
  intros fields w1.
  destruct (updateOrder_then_getOrder sample_env "FFC-12345"
              [ ("material", VStr "PLA"); ("id", VNum 7) ] [ ("color", VStr "blue") ]
              "material" (VStr "PLA+") (sample_world "NEW") sample_order eq_refl)
    as (_ & Hlast & _ & Hother); [decide_by_computation..|reflexivity|reflexivity|].
  split; [exact Hlast|]. apply Hother; [|done]. decide_by_computation.
Defined.

(** ** conversation.js: the turns, stage by stage, when the database works *)

Section Turns.

Context (env : Env) (Hok : db_ok env) (pricing : Pricing) (psid : string).

(** The reply of a handler and its entry in the log. *)
Lemma reply_run text w :
  (sendText env psid text;; saveMessage env psid "out" text) w =
    (Ret tt,
     set_trace (λ t, t ++ [EvInsertMessage psid "out" text])
       (set_messages (λ ms, ms ++ [mkMessage psid "out" text (now env (S (clock w)))])
          (set_clock S
             (set_trace (λ t, t ++ [EvSendText psid text (graph_post_ok env (clock w))])
                (set_clock S w))))).
Proof.
  erewrite bind_ret by apply sendText_run. by rewrite saveMessage_run.
Qed.

(** X15.  The message of a customer who is at the stage NEW, or who has no
    conversation state yet, and who sends no image: the welcome is sent and
    logged, the customer is at the stage NEW, with the pending order that
    was there, and no order is touched. *)
Theorem first_message_is_welcomed message w :
  stage_of psid w = None ∨ stage_of psid w = Some "NEW" →
  existsb is_image (in_attachments message) = false →
  let turn := handleIncoming env pricing psid message in
  let w' := world_after turn w in
  outcome_of turn w = Ret tt ∧
  stage_of psid w' = Some "NEW" ∧
  pending_of psid w' = Some (default "" (pending_of psid w)) ∧
  orders w' = orders w ∧
  sent_replies w' = sent_replies w ++ [(psid, welcome_reply)] ∧
  logged_replies w' = logged_replies w ++ [(psid, welcome_reply)].
Proof.
  intros Hstage Himage turn w'. subst turn w'.
  unfold outcome_of, world_after, handleIncoming.
  pose proof (getState_cases env psid w) as Hget. rewrite !Hok in Hget.
  unfold stage_of, pending_of in *.
  destruct (conv w !! psid) as [st|] eqn:Hst; cbn in Hstage.
  - destruct Hstage as [|[= Hnew]]; [done|].
    rewrite (bind_ret _ _ _ _ _ Hget). rewrite Hnew, Himage. cbn [String.eqb Ascii.eqb Bool.eqb andb].
    unfold handleNew. rewrite reply_run. cbn [fst snd].
    unfold sent_replies, logged_replies. cbn. rewrite Hst, !omap_app. cbn.
    by rewrite Hnew, app_nil_r.
  - rewrite (bind_ret _ _ _ _ _ Hget). rewrite Himage.
    cbn [stage String.eqb Ascii.eqb Bool.eqb andb].
    unfold handleNew. rewrite reply_run. cbn [fst snd].
    unfold sent_replies, logged_replies. cbn. rewrite lookup_insert_eq, !omap_app. cbn.
    by rewrite !app_nil_r.
Qed.

End Turns.

(** The first message of a customer the store does not know. *)
Lemma first_message_is_welcomed_witness :
  let turn := handleIncoming sample_env PricingJs.pricing "u2" (mkIncoming "hello" []) in
  let w' := world_after turn (sample_world "QUOTE_SENT") in
  stage_of "u2" w' = Some "NEW" ∧ pending_of "u2" w' = Some "" ∧
  sent_replies w' = [("u2", welcome_reply)] ∧
  logged_replies w' = [("u2", welcome_reply)].
Proof.
  intros turn w'.
  destruct (first_message_is_welcomed sample_env (λ _, eq_refl) PricingJs.pricing "u2"
              (mkIncoming "hello" []) (sample_world "QUOTE_SENT"))
    as (_ & Hstage & Hpending & _ & Hsent & Hlogged); [by left|done|].
  by split_and!.
Defined.

Section Photo.

Context (env : Env) (Hok : db_ok env) (psid : string).

(** The download of the photo, if the message has the address of one. *)
Lemma download_phase attachments w :
  ∃ photoPath w1,
    match find is_image attachments ≫= att_url with
    | Some url => if JS.nonempty url then downloadAttachment env url psid else mret ""
    | None => mret ""
    end w = (Ret photoPath, w1) ∧
    quiet_view w1 = quiet_view w ∧
    process_image_calls w1 = process_image_calls w ∧
    (photo_url attachments = None ∨ http_get_ok env (clock w) = false →
     photoPath = "").
Proof.
  unfold photo_url. destruct (find is_image attachments ≫= att_url) as [url|];
    [|by exists "", w].
  destruct (JS.nonempty url); [|by exists "", w].
  pose proof (downloadAttachment_quiet env url psid w) as Hquiet.
  unfold world_after in Hquiet. revert Hquiet.
  unfold downloadAttachment, tick, emit, modify, mbind, M_bind. cbn.
  destruct (http_get_ok env (clock w)); cbn; intros Hquiet; eexists _, _;
    (split; [done|]); (split; [done|]);
    (split; [unfold process_image_calls; cbn; rewrite omap_app; cbn;
             by rewrite app_nil_r|]);
    by intros [|].
Qed.

(** What a photo does, with a database that works. *)
Lemma processPhoto_run attachments w :
  let turn := processPhoto env psid attachments in
  let w' := world_after turn w in
  (outcome_of turn w = Throw "UNIQUE constraint failed: orders.order_id" ∧
   orders w' = orders w ∧ conv w' = conv w ∧ messages w' = messages w ∧
   sent_replies w' = sent_replies w)
  ∨ (∃ orderId photoPath (row : Row),
       outcome_of turn w = Ret tt ∧ select_order orderId w = None ∧
       orders w' = orders w ++ [row] ∧
       row !! "order_id" = Some (VStr orderId) ∧ row !! "psid" = Some (VStr psid) ∧
       row !! "photo_path" = Some (VStr photoPath) ∧
       row !! "status" = Some (VStr "new") ∧
       row !! "stl_path" = Some (VStr "") ∧
       (photo_url attachments = None ∨ http_get_ok env (clock w) = false →
        photoPath = "") ∧
       stage_of psid w' = Some "PHOTO_RECEIVED" ∧ pending_of psid w' = Some orderId ∧
       sent_replies w' = sent_replies w ++ [(psid, photo_reply)] ∧
       logged_replies w' = logged_replies w ++ [(psid, photo_reply)] ∧
       process_image_calls w' = process_image_calls w).
Proof.
  intros turn w'. subst turn w'. unfold outcome_of, world_after, processPhoto.
  destruct (download_phase attachments w)
    as (photoPath & w1 & Hphase & Hquiet & Hcalls & Hnone).
  cbn zeta. rewrite (bind_ret _ _ _ _ _ Hphase).
  unfold quiet_view in Hquiet. injection Hquiet as Horders Hmessages Hconv Hsent.
  pose proof (createOrder_cases env psid photoPath w1) as Hcreate.
  cbn zeta in Hcreate. rewrite Hok in Hcreate.
  set (orderId := drawn_order_id env (clock w1)) in *.
  destruct (existsb (has_order_id orderId) (orders w1)) eqn:Hfree.
  - left. rewrite (bind_throw _ _ _ _ _ Hcreate). cbn. by rewrite <- Hsent.
  - right. rewrite (bind_ret _ _ _ _ _ Hcreate).
    erewrite bind_ret by apply (setState_run env Hok).
    rewrite (reply_run env Hok). cbn [fst snd].
    pose proof (new_order_columns orderId psid photoPath (now env (S (clock w1))))
      as (Hid & Hpsid & Hphoto & Hstatus & Hstl & _).
    set (row := new_order orderId psid photoPath _) in *. clearbody row.
    exists orderId, photoPath, row.
    apply find_existsb_false in Hfree. rewrite Horders in Hfree.
    unfold stage_of, pending_of, sent_replies, logged_replies, process_image_calls.
    cbn. rewrite lookup_insert_eq, !omap_app. cbn. rewrite !app_nil_r.
    unfold sent_replies in Hsent. unfold process_image_calls in Hcalls.
    rewrite Horders, Hmessages, Hsent, Hcalls. by split_and!.
Qed.

(** X16.  The photo of a customer, with a database that works, either
    creates exactly one order or changes nothing.  When the id that is
    drawn is taken, the handler throws: no order, no state, no message is
    written and no reply is sent.  Otherwise one row is added to the orders
    under an id that was free: it is of the customer, new, and holds the
    path of the downloaded photo, which is empty when the message has no
    address of an image or when the download fails; the customer is at the
    stage PHOTO_RECEIVED with that order pending; and the questions about
    the details are sent and logged. *)
Theorem photo_creates_one_order attachments w :
  let turn := processPhoto env psid attachments in
  let w' := world_after turn w in
  (outcome_of turn w = Throw "UNIQUE constraint failed: orders.order_id" ∧
   orders w' = orders w ∧ conv w' = conv w ∧ messages w' = messages w ∧
   sent_replies w' = sent_replies w)
  ∨ (∃ orderId photoPath (row : Row),
       outcome_of turn w = Ret tt ∧ select_order orderId w = None ∧
       orders w' = orders w ++ [row] ∧
       row !! "order_id" = Some (VStr orderId) ∧ row !! "psid" = Some (VStr psid) ∧
       row !! "photo_path" = Some (VStr photoPath) ∧
       row !! "status" = Some (VStr "new") ∧
       (photo_url attachments = None ∨ http_get_ok env (clock w) = false →
        photoPath = "") ∧
       stage_of psid w' = Some "PHOTO_RECEIVED" ∧ pending_of psid w' = Some orderId ∧
       sent_replies w' = sent_replies w ++ [(psid, photo_reply)] ∧
       logged_replies w' = logged_replies w ++ [(psid, photo_reply)]).
Proof.
  intros turn w'.
  destruct (processPhoto_run attachments w)
    as [Hthrow|(orderId & photoPath & row & Hret & Hfree & Horders & Hid & Hpsid
                & Hphoto & Hstatus & _ & Hnone & Hstage & Hpending & Hsent
                & Hlogged & _)];
    [by left|right].
  exists orderId, photoPath, row. by split_and!.
Qed.

(** X17.  An order that a photo creates without a photo path, the message
    having no address of an image or the download having failed, is never
    generated: a run of the pipeline for it ends in the failure that the
    order has no photo, without a call of the model generation. *)
Theorem order_without_photo_is_not_generated attachments w :
  photo_url attachments = None ∨ http_get_ok env (clock w) = false →
  outcome_of (processPhoto env psid attachments) w = Ret tt →
  let w1 := world_after (processPhoto env psid attachments) w in
  ∃ orderId,
    pending_of psid w1 = Some orderId ∧
    order_column orderId "photo_path" w1 = Some (VStr "") ∧
    outcome_of (runOrderPipeline env orderId) w1
    = Ret (failure_result orderId "Order has no photo — cannot generate STL") ∧
    process_image_calls (world_after (runOrderPipeline env orderId) w1)
    = process_image_calls w.
Proof.
  intros Hnophoto Hret w1.
  destruct (processPhoto_run attachments w)
    as [[Hthrow _]|(orderId & photoPath & row & _ & Hfree & Horders & Hid & _
                    & Hphoto & _ & Hstl & Hnone & _ & Hpending & _ & _ & Hcalls)];
    [congruence|].
  fold w1 in Horders, Hpending, Hcalls. rewrite (Hnone Hnophoto) in Hphoto.
  assert (select_order orderId w1 = Some row) as Hrow.
  { unfold select_order in *. rewrite Horders, find_snoc, Hfree.
    unfold has_order_id. by rewrite bool_decide_true. }
  exists orderId. split; [done|]. split.
  { unfold order_column. by rewrite Hrow. }
  assert (pipeline_try env orderId w1
          = (Throw "Order has no photo — cannot generate STL", set_clock S w1))
    as Htry.
  { apply (pipeline_try_no_photo env orderId w1 (Hok _) row Hrow).
    - by rewrite Hstl.
    - by rewrite Hphoto. }
  unfold outcome_of, world_after.
  rewrite (runOrderPipeline_of_throw env orderId w1 _ _ Htry). split; [done|].
  cbn [snd]. rewrite (pipeline_catch_calls env orderId _ (set_clock S w1)).
  exact Hcalls.
Qed.

End Photo.

(** The first photo of a second customer, and a photo whose id is taken. *)
Lemma photo_creates_one_order_witness :
  let turn := processPhoto sample_env "u2"
                [mkAttachment "image" (Some "https://cdn.example/photo.jpg")] in
  outcome_of turn (sample_world "NEW") = Ret tt ∧
  outcome_of turn (set_clock (λ _, 2) sample_collision_world)
  = Throw "UNIQUE constraint failed: orders.order_id".
Proof.
  intros turn. split.
  - destruct (photo_creates_one_order sample_env (λ _, eq_refl) "u2"
                [mkAttachment "image" (Some "https://cdn.example/photo.jpg")]
                (sample_world "NEW"))
      as [[Hthrow _]|(orderId & photoPath & row & Hret & _)]; [|exact Hret].
    exfalso. revert Hthrow. by vm_compute.
  - destruct (photo_creates_one_order sample_env (λ _, eq_refl) "u2"
                [mkAttachment "image" (Some "https://cdn.example/photo.jpg")]
                (set_clock (λ _, 2) sample_collision_world))
      as [[Hthrow _]|(orderId & photoPath & row & Hret & _)]; [exact Hthrow|].
    exfalso. revert Hret. by vm_compute.
Defined.

(** A second customer sends an image without address. *)
Lemma order_without_photo_is_not_generated_witness :
  let w1 := world_after (processPhoto sample_env "u2" [mkAttachment "image" None])
              (set_clock (λ _, 1) (sample_world "NEW")) in
  ∃ orderId,
    pending_of "u2" w1 = Some orderId ∧
    order_column orderId "photo_path" w1 = Some (VStr "") ∧
    outcome_of (runOrderPipeline sample_env orderId) w1
    = Ret (failure_result orderId "Order has no photo — cannot generate STL") ∧
    process_image_calls (world_after (runOrderPipeline sample_env orderId) w1) = [].
Proof.
  intros w1.
  apply (order_without_photo_is_not_generated sample_env (λ _, eq_refl) "u2"
           [mkAttachment "image" None] (set_clock (λ _, 1) (sample_world "NEW"))).
  - by left.
  - reflexivity.
Defined.

(** A column of an order after an update of that order, in a world that
    has the updated rows. *)
Lemma order_column_after orderId (updates : Fields) stamp w w' (row : Row) col v :
  select_order orderId w = Some row →
  orders w' = map (update_row orderId updates stamp) (orders w) →
  "order_id" ∉ updates.*1 → col ≠ "updated_at" →
  apply_assignments updates row !! col = v →
  order_column orderId col w' = v.
Proof.
  intros Hrow Horders Hkey Hcol <-.
  by apply (order_column_updated orderId updates stamp w w' row col).
Qed.

Section LaterTurns.

Context (env : Env) (Hok : db_ok env) (pricing : Pricing) (psid : string).
Context (message : Incoming) (w : World) (st : ConvState).
Context (Hst : conv w !! psid = Some st).

Let text := JS.trim (in_text message).
Let orderId := pending_order_id st.
Let turn := handleIncoming env pricing psid message.

Lemma getOrder_run orderId' w0 :
  getOrder env orderId' w0 = (Ret (select_order orderId' w0), set_clock S w0).
Proof. by rewrite getOrder_cases, Hok. Qed.

(** X18.  The details of a customer at the stage PHOTO_RECEIVED, in a text
    of ASCII characters that is not only white space, with a database that
    works: the material, the colour and the size that [parseDetails] reads
    in the trimmed text are written to the pending order, if that order
    exists; the customer moves to the stage DETAILS_RECEIVED with the same
    pending order; and the question about the fulfilment is sent and
    logged.  The other orders are left as they are. *)
Theorem details_are_stored :
  stage st = "PHOTO_RECEIVED" → JS.is_ascii (in_text message) = true → text ≠ "" →
  let w' := world_after turn w in
  let parsed := parseDetails text in
  outcome_of turn w = Ret tt ∧
  (∀ row : Row, select_order orderId w = Some row →
     order_column orderId "material" w' = Some (VStr (d_material parsed)) ∧
     order_column orderId "color" w' = Some (VStr (d_color parsed)) ∧
     order_column orderId "size" w' = Some (VStr (d_size parsed)) ∧
     order_column orderId "status" w' = row !! "status") ∧
  other_rows orderId w' = other_rows orderId w ∧
  stage_of psid w' = Some "DETAILS_RECEIVED" ∧ pending_of psid w' = Some orderId ∧
  sent_replies w' = sent_replies w ++ [(psid, fulfillment_reply)] ∧
  logged_replies w' = logged_replies w ++ [(psid, fulfillment_reply)].
Proof.
  intros Hstage _ Htext w' parsed. subst w' turn.
  unfold outcome_of, world_after, handleIncoming.
  run_with getState_found. rewrite Hstage. fold text.
  cbn [String.eqb Ascii.eqb Bool.eqb andb]. unfold handlePhotoReceived.
  assert (∀ s, s ≠ "" → JS.nonempty s = true) as Hne by (by intros []).
  rewrite (Hne text Htext).
  cbn [negb]. run_with getState_found. fold orderId parsed.
  set (fields := [("material", _); ("color", _); ("size", _)]).
  run_with updateOrder_run. run_with setState_run. rewrite (reply_run env Hok).
  cbn [fst snd]. split; [done|]. split; [|split].
  - intros row Hrow.
    split_and!;
      (eapply order_column_after;
       [exact Hrow|reflexivity|cbn; decide_by_computation|done|];
       unfold fields, apply_assignments; cbn [foldl fst snd]; by simplify_map_eq).
  - unfold other_rows. cbn. rewrite <- list_fmap_compose.
    apply list_fmap_ext. intros i row _. cbn.
    rewrite has_order_id_update_row by (cbn; decide_by_computation).
    destruct (has_order_id orderId row) eqn:Hrow; [done|].
    unfold update_row. by rewrite Hrow.
  - unfold stage_of, pending_of, sent_replies, logged_replies. cbn.
    rewrite lookup_insert_eq, !omap_app. cbn. by rewrite !app_nil_r.
Qed.

(** X19.  A customer at the stage DETAILS_RECEIVED whose pending order does
    not exist: the turn throws the error of the read of a property of
    [undefined], after the write of the fulfilment type that changed no
    row.  No reply is sent, and the orders, the conversation states and
    the messages are as they were: the customer stays at that stage. *)
Theorem details_without_order_throw :
  stage st = "DETAILS_RECEIVED" → select_order orderId w = None →
  let w' := world_after turn w in
  outcome_of turn w
  = Throw "TypeError: Cannot read properties of undefined (reading 'size')" ∧
  orders w' = orders w ∧ conv w' = conv w ∧ messages w' = messages w ∧
  sent_replies w' = sent_replies w.
Proof.
  intros Hstage Hnone w'. subst w' turn.
  unfold outcome_of, world_after, handleIncoming.
  run_with getState_found. rewrite Hstage.
  cbn [String.eqb Ascii.eqb Bool.eqb andb]. unfold handleDetailsReceived.
  run_with getState_found. fold orderId.
  run_with updateOrder_run. rewrite (bind_ret _ _ _ _ _ (getOrder_run _ _)).
  unfold select_order. cbn [orders set_trace set_orders set_clock].
  rewrite no_row_to_update by done.
  fold (select_order orderId w). rewrite Hnone.
  unfold sent_replies. cbn. rewrite omap_app. cbn. rewrite app_nil_r.
  split_and!; try done. by apply no_row_to_update.
Qed.

(** X20.  A customer at the stage CONFIRMED who sends no image starts
    over: the stage is NEW without pending order, the welcome back is sent
    and logged, and no order is touched. *)
Theorem confirmed_customer_starts_over :
  stage st = "CONFIRMED" → existsb is_image (in_attachments message) = false →
  let w' := world_after turn w in
  outcome_of turn w = Ret tt ∧
  stage_of psid w' = Some "NEW" ∧ pending_of psid w' = Some "" ∧
  orders w' = orders w ∧
  sent_replies w' = sent_replies w ++ [(psid, welcome_back_reply)] ∧
  logged_replies w' = logged_replies w ++ [(psid, welcome_back_reply)].
Proof.
  intros Hstage Himage w'. subst w' turn.
  unfold outcome_of, world_after, handleIncoming.
  run_with getState_found. rewrite Hstage, Himage.
  cbn [String.eqb Ascii.eqb Bool.eqb andb]. unfold handleConfirmed.
  run_with setState_run. rewrite (reply_run env Hok). cbn [fst snd].
  unfold stage_of, pending_of, sent_replies, logged_replies. cbn.
  rewrite lookup_insert_eq, !omap_app. cbn. by rewrite !app_nil_r.
Qed.

(** X21.  The answer of a customer at the stage DETAILS_RECEIVED whose
    pending order exists, with a database that works and a pricing engine
    that returns: the fulfilment type CLOUD is written to the order when
    the upper-cased text contains CLOUD and SELF otherwise; the quote is
    computed from the order as read after that write, and its six amounts
    are written to the order; the customer moves to the stage QUOTE_SENT
    with the same pending order; and the proposal, formatted from the order
    as read before the amounts were written, is sent and logged. *)
Theorem quote_is_stored_and_sent (row : Row) quote proposal :
  stage st = "DETAILS_RECEIVED" → select_order orderId w = Some row →
  let fulfillment :=
    if JS.includes (JS.toUpperCase text) "CLOUD" then "CLOUD" else "SELF" in
  let order :=
    update_row orderId [("fulfillment_type", VStr fulfillment)] (now env (2 + clock w))
      row in
  calculateQuote pricing (order !! "size") (order !! "material") fulfillment
    (truthy (order !! "rush")) (truthy (order !! "cad_design")) = Ret quote →
  formatProposal pricing order quote = Ret proposal →
  let w' := world_after turn w in
  outcome_of turn w = Ret tt ∧
  order_column orderId "fulfillment_type" w' = Some (VStr fulfillment) ∧
  order_column orderId "base_price" w' = Some (basePrice quote) ∧
  order_column orderId "addons_price" w' = Some (addonsPrice quote) ∧
  order_column orderId "shipping" w' = Some (q_shipping quote) ∧
  order_column orderId "total" w' = Some (q_total quote) ∧
  order_column orderId "craftcloud_cost" w' = Some (craftcloudCost quote) ∧
  order_column orderId "margin" w' = Some (margin quote) ∧
  stage_of psid w' = Some "QUOTE_SENT" ∧ pending_of psid w' = Some orderId ∧
  sent_replies w' = sent_replies w ++ [(psid, proposal)] ∧
  logged_replies w' = logged_replies w ++ [(psid, proposal)].
Proof.
  intros Hstage Hrow fulfillment order Hquote Hproposal w'. subst w' turn.
  unfold outcome_of, world_after, handleIncoming.
  run_with getState_found. rewrite Hstage. fold text.
  cbn [String.eqb Ascii.eqb Bool.eqb andb]. unfold handleDetailsReceived.
  run_with getState_found. fold orderId fulfillment.
  run_with updateOrder_run. cbn [clock set_clock].
  set (w3 := set_trace _ (set_orders _ _)).
  rewrite (bind_ret _ _ _ _ _ (getOrder_run _ _)).
  assert (select_order orderId w3 = Some order) as Horder.
  { unfold select_order, w3. cbn [orders set_trace set_orders set_clock].
    rewrite select_order_update by (cbn; decide_by_computation).
    fold (select_order orderId w). by rewrite Hrow. }
  rewrite Horder, Hquote. erewrite (bind_ret (lift _)) by reflexivity.
  set (prices := [("base_price", _); ("addons_price", _); ("shipping", _);
                  ("total", _); ("craftcloud_cost", _); ("margin", _)]).
  run_with updateOrder_run. rewrite Hproposal.
  erewrite (bind_ret (lift _)) by reflexivity.
  run_with setState_run. rewrite (reply_run env Hok). cbn [fst snd].
  split; [done|].
  assert (order !! "fulfillment_type" = Some (VStr fulfillment)) as Hft.
  { unfold order, update_row. rewrite (select_order_has_id _ _ _ Hrow).
    unfold apply_assignments. cbn [foldl fst snd]. by simplify_map_eq. }
  split_and!;
    try (eapply order_column_after;
         [exact Horder|reflexivity|cbn; decide_by_computation|done|];
         unfold prices, apply_assignments; cbn [foldl fst snd]; by simplify_map_eq).
  all: unfold stage_of, pending_of, sent_replies, logged_replies; cbn;
    rewrite ?lookup_insert_eq, ?omap_app; cbn; by rewrite ?app_nil_r.
Qed.

End LaterTurns.

(** The customer of the sample order answers the questions about the
    details. *)
Lemma details_are_stored_witness :
  let turn := handleIncoming sample_env PricingJs.pricing "u1"
                (mkIncoming "  petg, red, small please " []) in
  let w' := world_after turn (sample_world "PHOTO_RECEIVED") in
  order_column "FFC-12345" "material" w' = Some (VStr "PETG") ∧
  order_column "FFC-12345" "color" w' = Some (VStr "red") ∧
  order_column "FFC-12345" "size" w' = Some (VStr "small") ∧
  stage_of "u1" w' = Some "DETAILS_RECEIVED".
Proof.
  intros turn w'.
  destruct (details_are_stored sample_env (λ _, eq_refl) PricingJs.pricing "u1"
              (mkIncoming "  petg, red, small please " [])
              (sample_world "PHOTO_RECEIVED")
              (mkConvState "PHOTO_RECEIVED" "FFC-12345" "2024-05-01 09:55:00")
              eq_refl eq_refl eq_refl)
    as (_ & Hcols & _ & Hstage & _); [discriminate|].
  destruct (Hcols sample_order eq_refl) as (Hmaterial & Hcolor & Hsize & _).
  by split_and!.
Defined.

(** The customer of the sample order asks for the cloud option. *)
Lemma quote_is_stored_and_sent_witness :
  let turn := handleIncoming sample_env PricingJs.pricing "u1"
                (mkIncoming "Cloud please" []) in
  let w' := world_after turn (sample_world "DETAILS_RECEIVED") in
  order_column "FFC-12345" "fulfillment_type" w' = Some (VStr "CLOUD") ∧
  order_column "FFC-12345" "total" w' = Some (VNum 55) ∧
  order_column "FFC-12345" "craftcloud_cost" w' = Some (VNum 20) ∧
  stage_of "u1" w' = Some "QUOTE_SENT" ∧
  logged_replies w' = sent_replies w'.
Proof.
  intros turn w'.
  edestruct (quote_is_stored_and_sent sample_env (λ _, eq_refl) PricingJs.pricing "u1"
               (mkIncoming "Cloud please" []) (sample_world "DETAILS_RECEIVED")
               (mkConvState "DETAILS_RECEIVED" "FFC-12345" "2024-05-01 09:55:00")
               eq_refl sample_order)
    as (_ & Hft & _ & _ & _ & Htotal & Hcost & _ & Hstage & _ & Hsent & Hlogged);
    [reflexivity..|].
  fold turn w' in Hft, Htotal, Hcost, Hstage, Hsent, Hlogged.
  split_and!; [exact Hft|exact Htotal|exact Hcost|exact Hstage|].
  by rewrite Hsent, Hlogged.
Defined.

(** The pending order of the customer is gone. *)
Lemma details_without_order_throw_witness :
  let turn := handleIncoming sample_env PricingJs.pricing "u1" (mkIncoming "self" []) in
  let w := set_orders (λ _, []) (sample_world "DETAILS_RECEIVED") in
  outcome_of turn w
  = Throw "TypeError: Cannot read properties of undefined (reading 'size')" ∧
  sent_replies (world_after turn w) = [] ∧
  stage_of "u1" (world_after turn w) = Some "DETAILS_RECEIVED".
Proof.
  intros turn w.
  destruct (details_without_order_throw sample_env (λ _, eq_refl) PricingJs.pricing "u1"
              (mkIncoming "self" []) w
              (mkConvState "DETAILS_RECEIVED" "FFC-12345" "2024-05-01 09:55:00")
              eq_refl eq_refl eq_refl)
    as (Hthrow & _ & Hconv & _ & Hsent).
  fold turn in Hthrow, Hconv, Hsent. split_and!; [exact Hthrow|exact Hsent|].
  unfold stage_of. by rewrite Hconv.
Defined.

(** The customer of the sample order, once confirmed, writes again. *)
Lemma confirmed_customer_starts_over_witness :
  let turn := handleIncoming sample_env PricingJs.pricing "u1" (mkIncoming "thanks" []) in
  let w' := world_after turn (sample_world "CONFIRMED") in
  stage_of "u1" w' = Some "NEW" ∧ pending_of "u1" w' = Some "" ∧
  sent_replies w' = [("u1", welcome_back_reply)].
Proof.
  intros turn w'.
  destruct (confirmed_customer_starts_over sample_env (λ _, eq_refl) PricingJs.pricing
              "u1" (mkIncoming "thanks" []) (sample_world "CONFIRMED")
              (mkConvState "CONFIRMED" "FFC-12345" "2024-05-01 09:55:00")
              eq_refl eq_refl eq_refl)
    as (_ & Hstage & Hpending & _ & Hsent & _).
  by split_and!.
Defined.

(** ** tooltrace.js: the attempts of the model generation *)

Lemma append_nonempty (s t : string) : s ≠ "" → s +:+ t ≠ "".
Proof.
  destruct s as [|c s]; [done|]. intros _.
  by change (String c (s +:+ t) ≠ "").
Qed.

(** X22.  The model generation for an image path that is a text, whatever
    the oracles answer: it makes no attempt, one attempt, or two attempts
    with one wait between them and none after the last, and it touches
    neither the tables nor the replies.  A result that it returns is either
    a success with a model file and without error, or a failure without
    model file and with an error message that is not empty.  When the
    image file does not exist the result is the failure that says so, and
    no attempt is made. *)
Theorem processImage_attempts env photo outputDir w :
  let run := processImage env (VStr photo) outputDir in
  let w' := world_after run w in
  (∃ events,
     trace w' = trace w ++ EvProcessImage (VStr photo) outputDir :: events ∧
     events ∈ [ []; [EvRunToolTrace 1];
                [EvRunToolTrace 1; EvSleep 3000; EvRunToolTrace 2] ]) ∧
  quiet_view w' = quiet_view w ∧
  (∀ res, outcome_of run w = Ret res →
     (tr_success res = true ∧ (∃ p, tr_stlPath res = Some p) ∧ tr_error res = None)
     ∨ (tr_success res = false ∧ tr_stlPath res = None ∧
        ∃ e, tr_error res = Some e ∧ e ≠ "")) ∧
  (fs_exists env (clock w) = false →
   outcome_of run w
   = Ret (trace_failure ("Image not found: " +:+ path_resolve env photo)) ∧
   trace w' = trace w ++ [EvProcessImage (VStr photo) outputDir]).
Proof.
  intros run w'. split_and!; [| apply processImage_quiet | |].
  - subst run w'.
    unfold world_after, processImage, tooltrace_attempts, MAX_RETRIES, emit, modify,
      tick, throw, mbind, M_bind, mret, M_ret.
    cbn. repeat (case_match; cbn; simplify_eq);
      rewrite <- ?app_assoc; cbn; eexists; (split; [reflexivity|]); set_solver.
  - subst run w'. intros res.
    unfold outcome_of, processImage, tooltrace_attempts, MAX_RETRIES, emit, modify,
      tick, throw, trace_failure, mbind, M_bind, mret, M_ret.
    cbn. repeat (case_match; cbn; simplify_eq); intros [= <-]; cbn;
      first [ left; split_and!; [done|by eexists|done]
            | right; split_and!; [done|done|eexists; split; [done|]] ];
      first [ done | by apply append_nonempty | by intros -> ].
  - intros Hno. subst run w'.
    unfold outcome_of, world_after, processImage, emit, modify, tick, mbind, M_bind.
    cbn. by rewrite Hno.
Qed.

(** ** pipeline.js: the ways of fulfilment *)

Section Fulfilment.

Context (env : Env) (orderId : string) (w : World) (order : Row) (p ft : string).
Context (Hread : db_fault env (clock w) = false).
Context (Horder : select_order orderId w = Some order).
Context (Hstl : order !! "stl_path" = Some (VStr p)) (Hp : p ≠ "").
Context (Hft : or_default (order !! "fulfillment_type") (VStr "") = VStr ft).

Let run := runOrderPipeline env orderId.

(** X23.  An order with a model file whose fulfilment type is not CLOUD
    in upper case, the empty and the missing one included, is for the
    operator: when the write works, the run returns the success with the
    model file and without quote, its only effect is the write of the
    status in-progress, and the vendor is not asked. *)
Theorem self_fulfilment_is_the_default :
  JS.toUpperCase ft ≠ "CLOUD" → db_fault env (S (clock w)) = false →
  outcome_of run w = Ret (mkPipelineResult true orderId (VStr p) None None) ∧
  trace (world_after run w)
  = trace w ++ [EvUpdateOrder orderId [("status", VStr "in-progress")]] ∧
  order_column orderId "status" (world_after run w) = Some (VStr "in-progress") ∧
  order_column orderId "stl_path" (world_after run w) = Some (VStr p).
Proof.
  intros Hself Hwrite. subst run.
  assert (pipeline_try env orderId w
          = handleSelfFulfillment env orderId (VStr p) (set_clock S w)) as Htry.
  { rewrite (pipeline_try_with_model_file env orderId w order p) by done.
    rewrite Hft. by destruct (String.eqb_spec (JS.toUpperCase ft) "CLOUD"). }
  unfold outcome_of, world_after, runOrderPipeline, try_catch. rewrite Htry.
  unfold handleSelfFulfillment, mbind, M_bind. rewrite updateOrder_cases. cbn zeta.
  rewrite filter_allowed_all by allowed_fields.
  rewrite bool_decide_false by done. cbn [clock set_clock]. rewrite Hwrite.
  cbn [fst snd]. split_and!; [done|done| |].
  - by eapply order_status_assigned.
  - eapply order_column_after; [exact Horder|reflexivity| |done|].
    + cbn. decide_by_computation.
    + unfold apply_assignments. cbn [foldl fst snd].
      by rewrite lookup_insert_ne.
Qed.

(** X24.  An order for the vendor without a credential of the vendor: the
    run fails with the message that the key is not set, before the vendor
    is asked for anything, and the status of the order is error when that
    write works.  So the fulfilment that only quotes, for a missing
    credential, is never reached. *)
Theorem cloud_needs_the_key :
  JS.toUpperCase ft = "CLOUD" → api_key env = "" →
  outcome_of run w = Ret (failure_result orderId "CRAFTCLOUD_API_KEY not set") ∧
  clock (world_after run w) = 2 + clock w ∧
  trace (world_after run w)
  = trace w
    ++ EvUploadAndQuote (VStr p) (or_default (order !! "material") (VStr "PLA"))
    :: (if db_fault env (S (clock w)) then []
        else [EvUpdateOrder orderId [("status", VStr "error")]]) ∧
  (db_fault env (S (clock w)) = false →
   order_column orderId "status" (world_after run w) = Some (VStr "error")).
Proof.
  intros Hcloud Hkey. subst run.
  assert (pipeline_try env orderId w
          = (Throw "CRAFTCLOUD_API_KEY not set",
             set_trace (λ t, t ++ [EvUploadAndQuote (VStr p)
                                     (or_default (order !! "material") (VStr "PLA"))])
               (set_clock S w))) as Htry.
  { rewrite (pipeline_try_with_model_file env orderId w order p) by done.
    rewrite Hft, Hcloud. cbn [String.eqb Ascii.eqb Bool.eqb andb].
    unfold handleCloudFulfillment, uploadAndQuote, getHeaders, emit, modify, throw,
      mbind, M_bind.
    by rewrite Hkey. }
  unfold outcome_of, world_after.
  rewrite (runOrderPipeline_of_throw env orderId w _ _ Htry).
  unfold world_after. rewrite pipeline_catch_cases. cbn [fst snd clock set_trace set_clock].
  destruct (db_fault env (S (clock w)));
    cbn [trace clock set_trace set_orders set_clock]; rewrite <- ?app_assoc;
    split_and!; try done.
  intros _. by eapply order_status_assigned.
Qed.

End Fulfilment.

(** The sample order, confirmed and with its model file, for the
    operator. *)
Lemma self_fulfilment_is_the_default_witness :
  let run := runOrderPipeline sample_env "FFC-12345" in
  let w := sample_confirmed_world "self" "uploads/model.stl" in
  outcome_of run w
  = Ret (mkPipelineResult true "FFC-12345" (VStr "uploads/model.stl") None None) ∧
  order_column "FFC-12345" "status" (world_after run w) = Some (VStr "in-progress").
Proof.
  intros run w.
  destruct (self_fulfilment_is_the_default sample_env "FFC-12345" w
              (sample_confirmed_order "self" "uploads/model.stl")
              "uploads/model.stl" "self" eq_refl eq_refl eq_refl)
    as (Hresult & _ & Hstatus & _); [discriminate|reflexivity|discriminate|reflexivity|].
  by split.
Defined.

(** The same order for the vendor, on a day without credential. *)
Lemma cloud_needs_the_key_witness :
  let run := runOrderPipeline sample_env_no_key "FFC-12345" in
  let w := sample_confirmed_world "Cloud" "uploads/model.stl" in
  outcome_of run w = Ret (failure_result "FFC-12345" "CRAFTCLOUD_API_KEY not set") ∧
  order_column "FFC-12345" "status" (world_after run w) = Some (VStr "error").
Proof.
  intros run w.
  destruct (cloud_needs_the_key sample_env_no_key "FFC-12345" w
              (sample_confirmed_order "Cloud" "uploads/model.stl")
              "uploads/model.stl" "Cloud" eq_refl eq_refl eq_refl)
    as (Hresult & _ & _ & Hstatus); [discriminate|reflexivity..|].
  split; [exact Hresult|]. exact (Hstatus eq_refl).
Defined.

(** ** pipeline.js: the fulfilment by the vendor *)

(** The write of an order at an instant at which the driver works, and at
    one at which it fails. *)
Lemma updateOrder_at env orderId (fields : Fields) w :
  Forall (λ kv, kv.1 ∈ allowed) fields → fields ≠ [] →
  db_fault env (clock w) = false →
  updateOrder env orderId fields w =
    (Ret tt,
     set_trace (λ t, t ++ [EvUpdateOrder orderId fields])
       (set_orders (map (update_row orderId fields (now env (clock w))))
          (set_clock S w))).
Proof.
  intros Hall Hne Hf. rewrite updateOrder_cases. cbn zeta.
  rewrite filter_allowed_all by done.
  by rewrite bool_decide_false, Hf.
Qed.

Lemma updateOrder_fault env orderId (fields : Fields) w :
  Forall (λ kv, kv.1 ∈ allowed) fields → fields ≠ [] →
  db_fault env (clock w) = true →
  updateOrder env orderId fields w = (Throw "SqliteError", set_clock S w).
Proof.
  intros Hall Hne Hf. rewrite updateOrder_cases. cbn zeta.
  rewrite filter_allowed_all by done.
  by rewrite bool_decide_false, Hf.
Qed.

(** The cloud fulfilment of an order of the store, from the quote of the
    vendor on. *)
Lemma handleCloudFulfillment_run env orderId (order row : Row) p w quoteData best :
  JS.nonempty (api_key env) = true →
  vendor_quote env (clock w) = Ret quoteData →
  bestQuote (select_quotes quoteData) = Some best →
  db_fault env (1 + clock w) = false →
  select_order orderId w = Some row →
  let run := handleCloudFulfillment env orderId order (VStr p) in
  let material := or_default (order !! "material") (VStr "PLA") in
  let name := or_default (order !! "name") (VStr "FormFit Customer") in
  let quote_fields :=
    [ ("craftcloud_cost", VNum (totalPrice best));
      ("craftcloud_quote_id", VStr (quoteId best)) ] in
  let status_written :=
    placed env name (2 + clock w) && negb (db_fault env (4 + clock w)) in
  outcome_of run w
  = Ret (mkPipelineResult true orderId (VStr p)
           (Some (mkQuoteSummary (quoteId best) (totalPrice best)
                    (vendorId best) (leadDays best)))
           None) ∧
  trace (world_after run w)
  = trace w ++
    [ EvUploadAndQuote (VStr p) material;
      EvUpdateOrder orderId quote_fields;
      EvPlaceOrder (quoteId best) name orderId (shippingId best) ] ++
    (if status_written
     then [ EvUpdateOrder orderId [("status", VStr "in-progress")] ]
     else []) ∧
  order_column orderId "craftcloud_cost" (world_after run w)
    = Some (VNum (totalPrice best)) ∧
  order_column orderId "craftcloud_quote_id" (world_after run w)
    = Some (VStr (quoteId best)) ∧
  order_column orderId "status" (world_after run w)
    = if status_written then Some (VStr "in-progress") else row !! "status".
Proof.
  intros Hkey Hquote Hbest Hwrite Hrow run material name quote_fields status_written.
  subst run status_written.
  unfold outcome_of, world_after, handleCloudFulfillment. fold material name.
  rewrite (bind_ret _ _ _ _ _ (uploadAndQuote_run env Hkey p material w quoteData Hquote)).
  rewrite Hbest. fold quote_fields.
  set (w1 := set_clock S _).
  rewrite (bind_ret _ _ _ _ _
             (updateOrder_at env orderId quote_fields w1
                ltac:(allowed_fields) ltac:(done) Hwrite)).
  set (w2 := set_trace _ _). rewrite Hkey.
  destruct (placeOrder_run env Hkey (quoteId best) name orderId (shippingId best) w2)
    as (w3 & Hplace & Htrace3 & Horders3 & Hclock3).
  { by apply or_default_truthy. }
  assert (orders w2 = map (update_row orderId quote_fields (now env (clock w1))) (orders w))
    as Horders2 by done.
  assert (trace w2 = trace w ++ [EvUploadAndQuote (VStr p) material;
                                  EvUpdateOrder orderId quote_fields]) as Htrace2.
  { cbn. by rewrite <- app_assoc. }
  assert (clock w2 = 2 + clock w) as Hclock2 by done.
  destruct (order_column_updated orderId quote_fields (now env (clock w1))
              w w2 row "status" Hrow Horders2) as [Hrow2 Hstatus2];
    [cbn; decide_by_computation|done|].
  destruct (order_column_updated orderId quote_fields (now env (clock w1))
              w w2 row "craftcloud_cost" Hrow Horders2) as [_ Hcost2];
    [cbn; decide_by_computation|done|].
  destruct (order_column_updated orderId quote_fields (now env (clock w1))
              w w2 row "craftcloud_quote_id" Hrow Horders2) as [_ Hid2];
    [cbn; decide_by_computation|done|].
  assert (∀ col, order_column orderId col w3 = order_column orderId col w2) as Hcol3.
  { intros col. unfold order_column, select_order. by rewrite Horders3. }
  assert (select_order orderId w3 = Some (update_row orderId quote_fields
                                            (now env (clock w1)) row)) as Hrow3.
  { unfold select_order. rewrite Horders3. exact Hrow2. }
  unfold placed. rewrite <- Hclock2.
  destruct (placement env name (clock w2)) as [vendorOrder|e] eqn:Hplacement.
  - specialize (Hclock3 vendorOrder eq_refl).
    assert (clock w3 = 4 + clock w) as Hclock3' by (rewrite Hclock3, Hclock2; lia).
    rewrite <- Hclock3'. cbn [andb].
    destruct (db_fault env (clock w3)) eqn:Hstatus; cbn [negb].
    + erewrite bind_ret;
        [|erewrite try_catch_throw;
          [reflexivity
          |erewrite bind_ret; [|apply Hplace];
           by apply updateOrder_fault; [allowed_fields|done|]]].
      cbn [fst snd mret M_ret].
      split_and!; [done|..].
      * cbn [trace set_clock]. rewrite Htrace3, Htrace2. by rewrite <- !app_assoc.
      * change (order_column orderId "craftcloud_cost" w3 = Some (VNum (totalPrice best))).
        rewrite Hcol3, Hcost2. cbn. by simplify_map_eq.
      * change (order_column orderId "craftcloud_quote_id" w3
                = Some (VStr (quoteId best))).
        rewrite Hcol3, Hid2. cbn. by simplify_map_eq.
      * change (order_column orderId "status" w3 = row !! "status").
        rewrite Hcol3, Hstatus2. cbn. by simplify_map_eq.
    + set (status_fields := [("status", VStr "in-progress")]).
      pose proof (updateOrder_at env orderId status_fields w3
                    ltac:(allowed_fields) ltac:(done) Hstatus) as Hrun.
      set (w4 := set_trace _ _) in Hrun.
      erewrite bind_ret;
        [|apply try_catch_ret; erewrite bind_ret; [apply Hrun|apply Hplace]].
      cbn [fst snd mret M_ret].
      assert (orders w4 = map (update_row orderId status_fields (now env (clock w3)))
                            (orders w3)) as Horders4 by done.
      split_and!; [done|..].
      * cbn [trace w4 set_trace set_orders set_clock].
        rewrite Htrace3, Htrace2. by rewrite <- !app_assoc.
      * destruct (order_column_updated orderId status_fields (now env (clock w3))
                    w3 w4 _ "craftcloud_cost" Hrow3 Horders4) as [_ ->];
          [cbn; decide_by_computation|done|].
        cbn. rewrite lookup_insert_ne by done. unfold update_row.
        rewrite (select_order_has_id _ _ _ Hrow). by simplify_map_eq.
      * destruct (order_column_updated orderId status_fields (now env (clock w3))
                    w3 w4 _ "craftcloud_quote_id" Hrow3 Horders4) as [_ ->];
          [cbn; decide_by_computation|done|].
        cbn. rewrite lookup_insert_ne by done. unfold update_row.
        rewrite (select_order_has_id _ _ _ Hrow). by simplify_map_eq.
      * destruct (order_column_updated orderId status_fields (now env (clock w3))
                    w3 w4 _ "status" Hrow3 Horders4) as [_ ->];
          [cbn; decide_by_computation|done|].
        cbn. by rewrite lookup_insert_eq.
  - erewrite bind_ret; [|erewrite try_catch_throw; [reflexivity|by erewrite bind_throw]].
    cbn [fst snd mret M_ret andb].
    split_and!; [done|..].
    + rewrite Htrace3, Htrace2. by rewrite <- !app_assoc.
    + rewrite Hcol3, Hcost2. cbn. by simplify_map_eq.
    + rewrite Hcol3, Hid2. cbn. by simplify_map_eq.
    + rewrite Hcol3, Hstatus2. cbn. by simplify_map_eq.
Qed.

(** The [try] block of a run on an order for the vendor comes to the cloud
    fulfilment, with the order as it was read and the model file of the
    steps before; the order is then in the store with its status. *)
Lemma pipeline_try_to_cloud env orderId (order : Row) ft p w w1 :
  db_fault env (clock w) = false →
  select_order orderId w = Some order →
  or_default (order !! "fulfillment_type") (VStr "") = VStr ft →
  JS.toUpperCase ft = "CLOUD" →
  model_file_ready env orderId order (set_clock S w) p w1 →
  pipeline_try env orderId w = handleCloudFulfillment env orderId order (VStr p) w1 ∧
  ∃ row : Row, select_order orderId w1 = Some row ∧ row !! "status" = order !! "status".
Proof.
  intros Hread Horder Hft Hcloud
    [(Hstl & Hp & ->)|(Hstl & photo & wt & Hphoto & Hne & Hgen & Hwrite & ->)].
  - split; [|by exists order].
    rewrite (pipeline_try_with_model_file env orderId w order p) by done.
    by rewrite Hft, Hcloud.
  - pose proof (processImage_quiet env (VStr photo) (uploads_dir env) (set_clock S w))
      as Hquiet.
    unfold world_after in Hquiet. rewrite Hgen in Hquiet. cbn [snd] in Hquiet.
    unfold quiet_view in Hquiet. injection Hquiet as Horders _ _ _.
    unfold world_after.
    rewrite (updateOrder_at env orderId [("stl_path", VStr p)] wt)
      by (allowed_fields || done).
    cbn [snd]. set (w2 := set_trace _ _). split.
    + unfold pipeline_try.
      pose proof (getOrder_cases env orderId w) as Hget. rewrite Hread, Horder in Hget.
      rewrite (bind_ret _ _ _ _ _ Hget).
      assert (or_default (order !! "stl_path") (VStr "") = VStr "") as ->
        by (unfold or_default; by rewrite Hstl).
      rewrite Hphoto. assert (truthy (Some (VStr photo)) = true) as ->
        by (by destruct photo).
      cbn [truthy JS.nonempty negb default from_option id].
      erewrite bind_ret; [|].
      2:{ rewrite (bind_ret _ _ _ _ _ Hgen). cbn [tr_success negb tr_stlPath from_option].
          erewrite bind_ret; [reflexivity|].
          by apply updateOrder_at; [allowed_fields|done|]. }
      fold w2. by rewrite Hft, Hcloud.
    + assert (select_order orderId wt = Some order) as Horder1.
      { unfold select_order. by rewrite Horders. }
      destruct (order_column_updated orderId [("stl_path", VStr p)] (now env (clock wt))
                  wt w2 order "status" Horder1 eq_refl) as [Hsel Hcol];
        [cbn; decide_by_computation|done|].
      eexists. split; [exact Hsel|].
      unfold order_column in Hcol. rewrite Hsel in Hcol. cbn in Hcol.
      by rewrite lookup_insert_ne in Hcol.
Qed.

(** C7.  A run of [runOrderPipeline] on an order for the vendor, with a
    credential: the read of the order works, the order has its model file
    or the model file is generated and written, the vendor answers quotes
    (with prices whose sums do not overflow) of which [best] is the best
    one, and the write of the quote works.  Then the cost and the reference
    of the quote are written to the order before the placement of the
    vendor's order is attempted, and the status is written only after a
    placement that succeeded.  Whatever the placement ends in (a failure of
    the cart or of the order, a cart without id, a name that is no text),
    and whether the write of the status works, the run returns the success
    with the summary of the quote, and the order keeps the cost and the
    reference; its status is in-progress when the placement succeeded and
    the write of the status worked, and is the one it had otherwise. *)
Theorem cloud_quote_survives_placement env orderId (order : Row) ft p w w1
    quoteData best :
  db_fault env (clock w) = false →
  select_order orderId w = Some order →
  or_default (order !! "fulfillment_type") (VStr "") = VStr ft →
  JS.toUpperCase ft = "CLOUD" →
  model_file_ready env orderId order (set_clock S w) p w1 →
  JS.nonempty (api_key env) = true →
  vendor_quote env (clock w1) = Ret quoteData →
  prices_in_range quoteData = true →
  bestQuote (select_quotes quoteData) = Some best →
  db_fault env (1 + clock w1) = false →
  let run := runOrderPipeline env orderId in
  let material := or_default (order !! "material") (VStr "PLA") in
  let name := or_default (order !! "name") (VStr "FormFit Customer") in
  let quote_fields :=
    [ ("craftcloud_cost", VNum (totalPrice best));
      ("craftcloud_quote_id", VStr (quoteId best)) ] in
  let status_written :=
    placed env name (2 + clock w1) && negb (db_fault env (4 + clock w1)) in
  outcome_of run w
  = Ret (mkPipelineResult true orderId (VStr p)
           (Some (mkQuoteSummary (quoteId best) (totalPrice best)
                    (vendorId best) (leadDays best)))
           None) ∧
  trace (world_after run w)
  = trace w1 ++
    [ EvUploadAndQuote (VStr p) material;
      EvUpdateOrder orderId quote_fields;
      EvPlaceOrder (quoteId best) name orderId (shippingId best) ] ++
    (if status_written
     then [ EvUpdateOrder orderId [("status", VStr "in-progress")] ]
     else []) ∧
  order_column orderId "craftcloud_cost" (world_after run w)
    = Some (VNum (totalPrice best)) ∧
  order_column orderId "craftcloud_quote_id" (world_after run w)
    = Some (VStr (quoteId best)) ∧
  order_column orderId "status" (world_after run w)
    = if status_written then Some (VStr "in-progress") else order !! "status".
Proof.
  intros Hread Horder Hft Hcloud Hready Hkey Hquote _ Hbest Hwrite.
  intros run material name quote_fields status_written.
  destruct (pipeline_try_to_cloud env orderId order ft p w w1
              Hread Horder Hft Hcloud Hready) as (Htry & row & Hrow & Hstatus).
  pose proof (handleCloudFulfillment_run env orderId order row p w1 quoteData best
                Hkey Hquote Hbest Hwrite Hrow) as Hrun.
  cbn zeta in Hrun. rewrite Hstatus in Hrun.
  fold material name quote_fields status_written in Hrun.
  destruct Hrun as (Hresult & Hrest).
  assert (runOrderPipeline env orderId w
          = handleCloudFulfillment env orderId order (VStr p) w1) as Heq.
  { unfold runOrderPipeline, try_catch. rewrite Htry.
    unfold outcome_of in Hresult.
    destruct (handleCloudFulfillment env orderId order (VStr p) w1) as [o w'].
    cbn in Hresult. by subst o. }
  subst run. unfold outcome_of, world_after in *. rewrite Heq. by split.
Qed.

(** The sample order with its model file, for the vendor, on the day the
    vendor takes no order: the quote of 25 is on the order and in the
    result, and the status is still confirmed. *)
Lemma cloud_quote_survives_placement_witness :
  let stl := "/srv/formfit/uploads/1714557700000.stl" in
  let w := sample_confirmed_world "CLOUD" stl in
  let run := runOrderPipeline sample_env_no_placement "FFC-12345" in
  placed sample_env_no_placement (VStr "FormFit Customer") 3 = false ∧
  outcome_of run w
  = Ret (mkPipelineResult true "FFC-12345" (VStr stl)
           (Some (mkQuoteSummary "q-b" 25 "vendor-b" (Some 5%N))) None) ∧
  trace (world_after run w)
  = [ EvUploadAndQuote (VStr stl) (VStr "PETG");
      EvUpdateOrder "FFC-12345"
        [ ("craftcloud_cost", VNum 25); ("craftcloud_quote_id", VStr "q-b") ];
      EvPlaceOrder "q-b" (VStr "FormFit Customer") "FFC-12345" (Some "ship-b") ] ∧
  order_column "FFC-12345" "craftcloud_cost" (world_after run w) = Some (VNum 25) ∧
  order_column "FFC-12345" "craftcloud_quote_id" (world_after run w) = Some (VStr "q-b") ∧
  order_column "FFC-12345" "status" (world_after run w) = Some (VStr "confirmed").
Proof.
  intros stl w run.
  assert (model_file_ready sample_env_no_placement "FFC-12345"
            (sample_confirmed_order "CLOUD" stl) (set_clock S w) stl (set_clock S w))
    as Hready.
  { left. split; [reflexivity|]. split; [discriminate|reflexivity]. }
  pose proof (cloud_quote_survives_placement sample_env_no_placement "FFC-12345"
                (sample_confirmed_order "CLOUD" stl) "CLOUD" stl w (set_clock S w)
                (mkQuoteData sample_quotes sample_shippings)
                (combine_quote sample_shippings
                   (mkRawQuote "q-b" "vendor-b" 20 (Some 5%N) (Some 3%N)))
                eq_refl eq_refl eq_refl eq_refl Hready
                eq_refl eq_refl eq_refl eq_refl eq_refl)
    as (Hresult & Htrace & Hcost & Hquote & Hstatus).
  split; [reflexivity|]. split; [exact Hresult|]. split; [exact Htrace|].
  split; [exact Hcost|]. split; [exact Hquote|exact Hstatus].
Defined.

(** The same run on the day of the cart without id, on the day the write
    of the status fails, and on an order whose model file is generated
    first: the result is the success with the quote of 25; the status is
    still confirmed on the first two days, and in-progress on the sample
    day. *)
Lemma runOrderPipeline_cloud_faults :
  let stl := "/srv/formfit/uploads/1714557700000.stl" in
  let w := sample_confirmed_world "CLOUD" stl in
  let summary := Some (mkQuoteSummary "q-b" 25 "vendor-b" (Some 5%N)) in
  outcome_of (runOrderPipeline sample_env_no_cart "FFC-12345") w
  = Ret (mkPipelineResult true "FFC-12345" (VStr stl) summary None) ∧
  order_column "FFC-12345" "status"
    (world_after (runOrderPipeline sample_env_no_cart "FFC-12345") w)
  = Some (VStr "confirmed") ∧
  outcome_of (runOrderPipeline sample_env_status_fault "FFC-12345") w
  = Ret (mkPipelineResult true "FFC-12345" (VStr stl) summary None) ∧
  order_column "FFC-12345" "status"
    (world_after (runOrderPipeline sample_env_status_fault "FFC-12345") w)
  = Some (VStr "confirmed") ∧
  outcome_of (runOrderPipeline sample_env "FFC-12345") (sample_confirmed_world "CLOUD" "")
  = Ret (mkPipelineResult true "FFC-12345"
           (VStr "/srv/formfit//srv/formfit/uploads/1714557600003.stl") summary None) ∧
  order_column "FFC-12345" "status"
    (world_after (runOrderPipeline sample_env "FFC-12345")
       (sample_confirmed_world "CLOUD" ""))
  = Some (VStr "in-progress").
Proof. by vm_compute. Qed.

(** ** pipeline.js: a model that was generated is kept *)

(** X25.  A run on an order without model file whose generation succeeds
    with a path that is not empty, and whose write of that path works: the
    order holds the path after the run, whatever the fulfilment then does
    and whether the run ends in a success or in a failure; and a second run
    calls the model generation not once. *)
Theorem generated_model_is_kept env orderId w (order : Row) photo p w1 :
  db_fault env (clock w) = false →
  select_order orderId w = Some order →
  truthy (order !! "stl_path") = false →
  order !! "photo_path" = Some (VStr photo) → photo ≠ "" →
  processImage env (VStr photo) (uploads_dir env) (set_clock S w)
  = (Ret (mkTraceResult (Some p) true None), w1) →
  db_fault env (clock w1) = false → p ≠ "" →
  let run := runOrderPipeline env orderId in
  let w' := world_after run w in
  order_column orderId "stl_path" w' = Some (VStr p) ∧
  process_image_calls (world_after run w') = process_image_calls w'.
Proof.
  intros Hread Horder Hstl Hphoto Hne Hgen Hwrite Hp run w'.
  pose proof (processImage_quiet env (VStr photo) (uploads_dir env) (set_clock S w))
    as Hquiet.
  unfold world_after in Hquiet. rewrite Hgen in Hquiet. cbn [snd] in Hquiet.
  unfold quiet_view in Hquiet. injection Hquiet as Horders _ _ _.
  set (w2 := set_trace (λ t, t ++ [EvUpdateOrder orderId [("stl_path", VStr p)]])
               (set_orders (map (update_row orderId [("stl_path", VStr p)]
                                   (now env (clock w1))))
                  (set_clock S w1))).
  assert (select_order orderId w2
          = Some (update_row orderId [("stl_path", VStr p)] (now env (clock w1)) order)
          ∧ order_column orderId "stl_path" w2 = Some (VStr p)) as [Horder2 Hstl2].
  { assert (select_order orderId w1 = Some order) as Horder1.
    { unfold select_order. by rewrite Horders. }
    destruct (order_column_updated orderId [("stl_path", VStr p)] (now env (clock w1))
                w1 w2 order "stl_path" Horder1 eq_refl) as [Hsel Hcol];
      [cbn; decide_by_computation|done|].
    split; [done|]. rewrite Hcol. unfold apply_assignments. cbn.
    apply lookup_insert_eq. }
  assert (model_files w' = model_files w2) as Hfiles.
  { subst w' run. unfold runOrderPipeline.
    set (fulfil :=
           match or_default (order !! "fulfillment_type") (VStr "") with
           | VStr ft =>
               if String.eqb (JS.toUpperCase ft) "CLOUD"
               then handleCloudFulfillment env orderId order (VStr p)
               else handleSelfFulfillment env orderId (VStr p)
           | _ => throw "TypeError: toUpperCase is not a function"
           end).
    assert (pipeline_try env orderId w = fulfil w2) as Htry.
    { unfold pipeline_try, fulfil.
      pose proof (getOrder_cases env orderId w) as Hget. rewrite Hread, Horder in Hget.
      rewrite (bind_ret _ _ _ _ _ Hget). unfold or_default. rewrite Hstl.
      rewrite Hphoto. assert (truthy (Some (VStr photo)) = true) as ->
        by (by destruct photo).
      cbn [truthy JS.nonempty negb default from_option id].
      erewrite bind_ret; [reflexivity|].
      rewrite (bind_ret _ _ _ _ _ Hgen). cbn [tr_success negb tr_stlPath from_option].
      erewrite bind_ret; [reflexivity|].
      rewrite updateOrder_cases. cbn zeta.
      rewrite filter_allowed_all by allowed_fields.
      by rewrite bool_decide_false, Hwrite. }
    pose proof (fulfilment_files env orderId order (VStr p) w2) as Hfulfil.
    fold fulfil in Hfulfil.
    unfold world_after, try_catch in Hfulfil |- *. rewrite Htry.
    destruct (fulfil w2) as [[res|message] w3]; [done|].
    cbn [snd] in Hfulfil. rewrite <- Hfulfil.
    apply (pipeline_catch_files env orderId message w3). }
  destruct (select_order_model_file orderId w2 w' _ (VStr p) Hfiles Horder2)
    as (order' & Horder' & Hstl').
  { unfold update_row. rewrite (select_order_has_id orderId w order Horder).
    rewrite lookup_insert_ne by done. unfold apply_assignments. cbn.
    apply lookup_insert_eq. }
  split.
  - unfold order_column. by rewrite Horder'.
  - by apply (runOrderPipeline_with_model_file env orderId w' order' p).
Qed.

(** The sample order without model file, for the vendor, on a day without
    credential: the run fails, and the model is kept. *)
Lemma generated_model_is_kept_witness :
  let run := runOrderPipeline sample_env_no_key "FFC-12345" in
  let w := sample_confirmed_world "CLOUD" "" in
  let w' := world_after run w in
  outcome_of run w = Ret (failure_result "FFC-12345" "CRAFTCLOUD_API_KEY not set") ∧
  order_column "FFC-12345" "stl_path" w'
  = Some (VStr "/srv/formfit//srv/formfit/uploads/1714557600003.stl") ∧
  process_image_calls (world_after run w') = process_image_calls w'.
Proof.
  intros run w w'.
  destruct (generated_model_is_kept sample_env_no_key "FFC-12345" w
              (sample_confirmed_order "CLOUD" "")
              "uploads/u1_1714557000000.jpg"
              "/srv/formfit//srv/formfit/uploads/1714557600003.stl"
              (world_after
                 (processImage sample_env_no_key (VStr "uploads/u1_1714557000000.jpg")
                    (uploads_dir sample_env_no_key))
                 (set_clock S w)))
    as [Hstl Hcalls];
    [reflexivity|reflexivity|reflexivity|reflexivity|discriminate|reflexivity
    |reflexivity|discriminate|].
  split; [reflexivity|]. by split.
Defined.

(** ** craftcloud.js: the list of all quotes *)

Lemma insert_quote_ascending (q : VendorQuote) (l : list VendorQuote) :
  ascending l → ascending (insert_quote q l).
Proof.
  induction l as [|q' rest IH]; cbn [insert_quote ascending]; [done|].
  intros [Hq' Hrest].
  destruct (Qle_bool (totalPrice q) (totalPrice q')) eqn:Hle; cbn [ascending].
  - apply Qle_bool_iff in Hle. split; [|done].
    constructor; [done|]. eapply Forall_impl; [exact Hq'|].
    intros x Hx. cbn in *. by apply Qle_trans with (totalPrice q').
  - split; [|by apply IH]. rewrite insert_quote_perm. constructor; [|done].
    destruct (Qlt_le_dec (totalPrice q') (totalPrice q)) as [Hlt|Hle'].
    + by apply Qlt_le_weak.
    + apply Qle_bool_iff in Hle'. congruence.
Qed.

(** Of the quotes of one total price, the one inserted comes first. *)
Lemma insert_quote_stable (v : Q) (q : VendorQuote) (l : list VendorQuote) :
  filter (λ x, Qeq_bool (totalPrice x) v = true) (insert_quote q l)
  = filter (λ x, Qeq_bool (totalPrice x) v = true) (q :: l).
Proof.
  induction l as [|q' rest IH]; cbn [insert_quote]; [done|].
  destruct (Qle_bool (totalPrice q) (totalPrice q')) eqn:Hle; [done|].
  destruct (Qeq_bool (totalPrice q) v) eqn:Hq.
  - assert (Qeq_bool (totalPrice q') v = false) as Hq'.
    { destruct (Qeq_bool (totalPrice q') v) eqn:Hq'; [|done].
      apply Qeq_bool_iff in Hq, Hq'.
      assert (Qle_bool (totalPrice q) (totalPrice q') = true) as Hle'; [|congruence].
      apply Qle_bool_iff. rewrite Hq, Hq'. apply Qle_refl. }
    rewrite (filter_cons_False _ q') by (by rewrite Hq').
    rewrite IH. rewrite !(filter_cons_True _ q) by done.
    by rewrite (filter_cons_False _ q') by (by rewrite Hq').
  - rewrite (filter_cons_False _ q (q' :: rest)) by (by rewrite Hq).
    destruct (Qeq_bool (totalPrice q') v) eqn:Hq'.
    + rewrite !(filter_cons_True _ q') by done. rewrite IH.
      by rewrite (filter_cons_False _ q) by (by rewrite Hq).
    + rewrite !(filter_cons_False _ q') by (by rewrite Hq'). rewrite IH.
      by rewrite (filter_cons_False _ q) by (by rewrite Hq).
Qed.

Lemma sort_quotes_ascending (l : list VendorQuote) : ascending (sort_quotes l).
Proof.
  induction l as [|q l IH]; cbn; [done|]. by apply insert_quote_ascending.
Qed.

Lemma sort_quotes_stable (v : Q) (l : list VendorQuote) :
  filter (λ x, Qeq_bool (totalPrice x) v = true) (sort_quotes l)
  = filter (λ x, Qeq_bool (totalPrice x) v = true) l.
Proof.
  induction l as [|q l IH]; [done|]. cbn [sort_quotes foldr].
  rewrite insert_quote_stable. fold (sort_quotes l).
  destruct (Qeq_bool (totalPrice q) v) eqn:Hq.
  - rewrite !(filter_cons_True _ q) by done. by rewrite IH.
  - rewrite !(filter_cons_False _ q) by (by rewrite Hq). by rewrite IH.
Qed.

(** X26.  A call of [uploadAndQuote] with a credential, to which the
    vendor answers quotes with prices whose sums do not overflow: the list
    of all quotes that the call returns holds the combined quotes of the
    answer, each one once, in ascending order of their total prices (sums
    of doubles), and quotes of one total price in the order in which the
    vendor gave them.  The best quote is the first of that list, and there
    is none exactly when the vendor gave no quote. *)
Theorem allQuotes_are_sorted env p material w (quoteData : QuoteData) :
  JS.nonempty (api_key env) = true →
  vendor_quote env (clock w) = Ret quoteData →
  prices_in_range quoteData = true →
  let combined := combine_quote (qd_shippings quoteData) <$> qd_quotes quoteData in
  ∃ result,
    outcome_of (uploadAndQuote env (VStr p) material) w = Ret result ∧
    allQuotes result ≡ₚ combined ∧
    ascending (allQuotes result) ∧
    (∀ v, filter (λ x, Qeq_bool (totalPrice x) v = true) (allQuotes result)
          = filter (λ x, Qeq_bool (totalPrice x) v = true) combined) ∧
    bestQuote result = head (allQuotes result) ∧
    (bestQuote result = None ↔ qd_quotes quoteData = []).
Proof.
  intros Hkey Hquote _ combined. exists (select_quotes quoteData).
  split; [by apply uploadAndQuote_result|].
  unfold select_quotes. cbn [allQuotes bestQuote]. fold combined. split_and!.
  - apply sort_quotes_perm.
  - apply sort_quotes_ascending.
  - intros v. apply sort_quotes_stable.
  - done.
  - pose proof (sort_quotes_perm combined) as Hperm. split.
    + intros Hnone. destruct (sort_quotes combined) as [|q l] eqn:Hsorted; [|done].
      apply Permutation_nil_l in Hperm. unfold combined in Hperm.
      symmetry in Hperm. by apply fmap_nil_inv in Hperm.
    + intros Hnil. unfold combined. by rewrite Hnil.
Qed.

(** On the sample day the quotes of 40, 25 and 60 come back as 25, 40 and
    60. *)
Lemma allQuotes_are_sorted_witness :
  ∃ result,
    outcome_of (uploadAndQuote sample_env (VStr "uploads/model.stl") (VStr "PLA"))
      (sample_world "CONFIRMED") = Ret result ∧
    ascending (allQuotes result) ∧
    (quoteId <$> allQuotes result) = ["q-b"; "q-a"; "q-c"] ∧
    (totalPrice <$> allQuotes result) = [25; 40; 60]%Q.
Proof.
  destruct (allQuotes_are_sorted sample_env "uploads/model.stl" (VStr "PLA")
              (sample_world "CONFIRMED") (mkQuoteData sample_quotes sample_shippings)
              eq_refl eq_refl eq_refl)
    as (result & Hresult & _ & Hsorted & _).
  exists result. split; [exact Hresult|]. split; [exact Hsorted|].
  injection Hresult as <-. by split.
Defined.

(** ** craftcloud.js: the names of the shipping address *)

Lemma split_space_cons (s : string) : ∃ p ps, split_space s = p :: ps.
Proof.
  induction s as [|c s (p & ps & IH)]; cbn; [by eexists _, _|].
  destruct (Ascii.eqb c " "); [by eexists _, _|]. rewrite IH. by eexists _, _.
Qed.

Lemma join_cons (sep w p : string) (ps : list string) :
  JS.join sep (w :: p :: ps) = w +:+ sep +:+ JS.join sep (p :: ps).
Proof. done. Qed.

(** The pieces joined by spaces are the string again. *)
Lemma split_space_join (s : string) : JS.join " " (split_space s) = s.
Proof.
  induction s as [|c s IH]; [done|]. cbn [split_space].
  destruct (split_space_cons s) as (p & ps & Hs). rewrite Hs in IH |- *.
  destruct (Ascii.eqb_spec c " ") as [->|Hc].
  - rewrite join_cons, IH. done.
  - destruct ps as [|p' ps].
    + cbn [JS.join] in IH |- *. by rewrite IH.
    + rewrite join_cons in IH |- *.
      change (String c p +:+ " " +:+ JS.join " " (p' :: ps))
        with (String c (p +:+ " " +:+ JS.join " " (p' :: ps))).
      by rewrite IH.
Qed.

Lemma includes_space (c : ascii) (s : string) :
  JS.includes (String c s) " " = false → c ≠ " "%char ∧ JS.includes s " " = false.
Proof.
  cbn [JS.includes String.prefix]. intros [Hc Hs]%orb_false_elim. split; [|done].
  intros ->. by destruct s.
Qed.

Lemma split_space_no_space (s : string) :
  JS.includes s " " = false → split_space s = [s].
Proof.
  induction s as [|c s IH]; [done|]. intros [Hc Hs]%includes_space.
  cbn [split_space]. destruct (Ascii.eqb_spec c " "); [done|]. by rewrite IH.
Qed.

Lemma split_space_first (f l : string) :
  JS.includes f " " = false →
  split_space (f +:+ " " +:+ l) = f :: split_space l.
Proof.
  induction f as [|c f IH]; [done|]. intros [Hc Hf]%includes_space.
  change (String c f +:+ " " +:+ l) with (String c (f +:+ " " +:+ l)).
  cbn [split_space]. destruct (Ascii.eqb_spec c " "); [done|]. by rewrite IH.
Qed.

(** X27.  The names that [placeOrder] sends for the name of the shipping
    address are never empty.  For a name with a space, the first name is
    what is before the first space and the last name all that is after it,
    the default FormFit and the default Customer standing in for an empty
    one; for a name without space, the first name is the name, FormFit for
    the empty name, and the last name is Customer. *)
Theorem shipping_names_split :
  (∀ name, (shipping_names name).1 ≠ "" ∧ (shipping_names name).2 ≠ "") ∧
  (∀ f l, JS.includes f " " = false →
     shipping_names (f +:+ " " +:+ l)
     = (if JS.nonempty f then f else "FormFit",
        if JS.nonempty l then l else "Customer")) ∧
  (∀ name, JS.includes name " " = false →
     shipping_names name = (if JS.nonempty name then name else "FormFit", "Customer")).
Proof.
  split_and!.
  - intros name. unfold shipping_names. cbn zeta. cbn [fst snd].
    set (nameParts := split_space _).
    split.
    + destruct (JS.nonempty (default "" (head nameParts))) eqn:Hfirst; [|done].
      intros Heq. by rewrite Heq in Hfirst.
    + destruct (JS.nonempty (JS.join " " (tail nameParts))) eqn:Hlast; [|done].
      intros Heq. by rewrite Heq in Hlast.
  - intros f l Hf. unfold shipping_names.
    assert (JS.nonempty (f +:+ " " +:+ l) = true) as -> by (by destruct f).
    rewrite split_space_first by done. cbn [head tail default from_option id].
    by rewrite split_space_join.
  - intros name Hname. unfold shipping_names. destruct name as [|c name]; [done|].
    cbn [JS.nonempty]. by rewrite split_space_no_space.
Qed.

(** ** pricing.js: the amounts of a quote *)

(** X28.  For a size and a material that are texts, and that in lower
    case are no names that a price table inherits, [calculateQuote] returns
    a quote of six numbers: the total is the base price plus the add-ons
    plus the shipping, the add-ons are not negative, and the margin is
    positive and at most the total.  A cloud quote has no shipping, a
    positive cost of the vendor, and the total less that cost for margin; a
    quote for the operator has no cost of the vendor and a positive
    shipping. *)
Theorem calculateQuote_amounts size material fulfillment rush cadDesign :
  JS.toLowerCase size ∉ inherited_names →
  JS.toLowerCase material ∉ inherited_names →
  ∃ b a s t c m,
    PricingJs.calculateQuote (Some (VStr size)) (Some (VStr material)) fulfillment
      rush cadDesign
    = Ret (mkQuote (VNum b) (VNum a) (VNum s) (VNum t) (VNum c) (VNum m)) ∧
    (t == b + a + s)%Q ∧ (0 <= a)%Q ∧ (0 < m)%Q ∧ (m <= t)%Q ∧
    if String.eqb
         (JS.toUpperCase (if JS.nonempty fulfillment then fulfillment else "SELF"))
         "CLOUD"
    then (s == 0)%Q ∧ (0 < c)%Q ∧ (m == t - c)%Q
    else (c == 0)%Q ∧ (0 < s)%Q.
Proof.
  intros _ _. unfold PricingJs.calculateQuote.
  destruct (String.eqb _ "CLOUD");
    unfold PricingJs.lookup_or, PricingJs.CLOUD_COST, PricingJs.CLOUD_SELL,
      PricingJs.SELF_BASE, PricingJs.MATERIAL_MULT, PricingJs.SELF_SHIPPING;
    cbn [find fst snd];
    repeat match goal with
           | |- context [String.eqb ?k (JS.toLowerCase ?s)] =>
               destruct (String.eqb k (JS.toLowerCase s))
           end;
    destruct rush, cadDesign;
    eexists _, _, _, _, _, _; (split; [reflexivity|]);
    split_and!; by vm_compute.
Qed.

(** A small insert of PETG, in a hurry, printed by the operator. *)
Lemma calculateQuote_amounts_witness :
  ∃ b a s t c m,
    PricingJs.calculateQuote (Some (VStr "Small")) (Some (VStr "PETG")) "self" true false
    = Ret (mkQuote (VNum b) (VNum a) (VNum s) (VNum t) (VNum c) (VNum m)) ∧
    (t == b + a + s)%Q ∧ (0 <= a)%Q ∧ (0 < m)%Q ∧ (m <= t)%Q ∧
    (c == 0)%Q ∧ (0 < s)%Q.
Proof.
  apply (calculateQuote_amounts "Small" "PETG" "self" true false);
    decide_by_computation.
Defined.

(** ** conversation.js and pricing.js: the parsed details are priced from
    the tables *)

Lemma join_nonempty (sep w : string) (rest : list string) :
  w ≠ "" → JS.join sep (w :: rest) ≠ "".
Proof.
  intros Hw. destruct rest as [|p ps]; [done|].
  rewrite join_cons. by apply append_nonempty.
Qed.

(** X29.  Whatever the text, the material that [parseDetails] returns is
    PLA, PLA+ or PETG, the size is small, medium or full drawer, and the
    colour is not empty; so the lower-cased size and material are keys of
    the price tables and no inherited names, and a quote for the parsed
    details never falls back on a default price. *)
Theorem parseDetails_in_tables (text : string) :
  let parsed := parseDetails text in
  d_material parsed ∈ ["PLA"; "PLA+"; "PETG"] ∧
  d_size parsed ∈ ["small"; "medium"; "full drawer"] ∧
  d_color parsed ≠ "" ∧
  JS.toLowerCase (d_material parsed) ∈ PricingJs.MATERIAL_MULT.*1 ∧
  JS.toLowerCase (d_size parsed) ∈ PricingJs.SELF_BASE.*1 ∧
  JS.toLowerCase (d_size parsed) ∈ PricingJs.SELF_SHIPPING.*1 ∧
  JS.toLowerCase (d_size parsed) ∈ PricingJs.CLOUD_COST.*1 ∧
  JS.toLowerCase (d_size parsed) ∈ PricingJs.CLOUD_SELL.*1 ∧
  (JS.toLowerCase (d_material parsed) ∉ inherited_names) ∧
  (JS.toLowerCase (d_size parsed) ∉ inherited_names).
Proof.
  intros parsed. subst parsed. unfold parseDetails. cbn zeta.
  cbn [d_material d_size d_color].
  split_and!.
  - repeat case_match; set_solver.
  - repeat case_match; set_solver.
  - set (colorWords := filter _ (filter _ (JS.split_seps text))).
    destruct colorWords as [|word rest] eqn:Hwords; [done|].
    rewrite bool_decide_true by (cbn; lia).
    apply join_nonempty.
    assert (word ∈ colorWords) as Hin by (rewrite Hwords; left).
    unfold colorWords in Hin.
    apply list_elem_of_filter in Hin as [_ Hin].
    apply list_elem_of_filter in Hin as [Hlen _].
    intros ->. cbn in Hlen. lia.
  - repeat case_match; cbn; set_solver.
  - repeat case_match; cbn; set_solver.
  - repeat case_match; cbn; set_solver.
  - repeat case_match; cbn; set_solver.
  - repeat case_match; cbn; set_solver.
  - repeat case_match; decide_by_computation.
  - repeat case_match; decide_by_computation.
Qed.

(** ** conversation.js: an image in the middle of a conversation *)

Section NoOrder.

Context (env : Env) (pricing : Pricing) (psid : string).

Lemma orders_frame {A} (m : M A) : preserves orders m → preserves order_keys m.
Proof. intros Hm w. unfold order_keys. by rewrite Hm. Qed.

Lemma getState_orders : preserves orders (getState env psid).
Proof. by_oracle_cases. Qed.

Lemma setState_orders stg pendingOrderId :
  preserves orders (setState env psid stg pendingOrderId).
Proof. by_oracle_cases. Qed.

Lemma saveMessage_orders direction text :
  preserves orders (saveMessage env psid direction text).
Proof. by_oracle_cases. Qed.

Lemma sendText_orders text : preserves orders (sendText env psid text).
Proof. by_oracle_cases. Qed.

Lemma getOrder_orders orderId : preserves orders (getOrder env orderId).
Proof. by_oracle_cases. Qed.

End NoOrder.

(** One step of a handler that creates no order. *)
Ltac keys_step :=
  lazymatch goal with
  | |- preserves _ (updateOrder _ _ _) => apply updateOrder_order_keys
  | |- preserves _ (getOrder _ _) => apply orders_frame, getOrder_orders
  | |- preserves _ (saveMessage _ _ _ _) => apply orders_frame, saveMessage_orders
  | |- preserves _ (sendText _ _ _) => apply orders_frame, sendText_orders
  | |- preserves _ (getState _ _) => apply orders_frame, getState_orders
  | |- preserves _ (setState _ _ _ _) => apply orders_frame, setState_orders
  | |- preserves _ (mret _) => apply preserves_ret
  | |- preserves _ (throw _) => apply preserves_throw
  | |- preserves _ (lift _) => apply preserves_lift
  | |- preserves _ (mbind _ _) => apply preserves_bind; [|intros ?]
  | |- preserves _ _ => case_match
  end.

(** X30.  A customer at the stage PHOTO_RECEIVED, DETAILS_RECEIVED or
    QUOTE_SENT gets no new order, whatever the message holds, an image
    included, and whatever the oracles answer: the turn adds no row to the
    orders, removes none, and leaves the id and the customer of every
    row. *)
Theorem no_order_in_the_middle env pricing psid message w st :
  conv w !! psid = Some st →
  stage st ∈ ["PHOTO_RECEIVED"; "DETAILS_RECEIVED"; "QUOTE_SENT"] →
  order_keys (world_after (handleIncoming env pricing psid message) w) = order_keys w.
Proof.
  intros Hst Hstage. unfold world_after, handleIncoming.
  pose proof (getState_cases env psid w) as Hget. rewrite Hst in Hget.
  destruct (db_fault env (clock w)).
  { by rewrite (bind_throw _ _ _ _ _ Hget). }
  rewrite (bind_ret _ _ _ _ _ Hget).
  assert (∀ handler : M unit,
            preserves order_keys handler →
            order_keys (handler (set_clock S w)).2 = order_keys w) as Hframe.
  { intros handler Hhandler. apply (Hhandler (set_clock S w)). }
  apply elem_of_cons in Hstage as [->|Hstage];
    [|apply elem_of_cons in Hstage as [->|Hstage];
      [|apply list_elem_of_singleton in Hstage as ->]];
    cbn [String.eqb Ascii.eqb Bool.eqb andb]; apply Hframe.
  - unfold handlePhotoReceived. repeat keys_step.
  - unfold handleDetailsReceived. repeat keys_step.
  - unfold handleQuoteSent. repeat keys_step.
Qed.

(** The customer of the sample order sends another photo instead of an
    answer to the quote. *)
Lemma no_order_in_the_middle_witness :
  let turn := handleIncoming sample_env PricingJs.pricing "u1"
                (mkIncoming ""
                   [mkAttachment "image" (Some "https://cdn.example/photo.jpg")]) in
  order_keys (world_after turn (sample_world "QUOTE_SENT"))
  = [(Some (VStr "FFC-12345"), Some (VStr "u1"))].
Proof.
  intros turn. subst turn.
  rewrite (no_order_in_the_middle sample_env PricingJs.pricing "u1"
             (mkIncoming ""
                [mkAttachment "image" (Some "https://cdn.example/photo.jpg")])
             (sample_world "QUOTE_SENT")
             (mkConvState "QUOTE_SENT" "FFC-12345" "2024-05-01 09:55:00") eq_refl).
  - reflexivity.
  - decide_by_computation.
Defined.
